(** * API-Security-Scanner: a shallow embedding of the scan engine

    The development follows the JavaScript sources of the scanner:
    the ten analyzer modules ([sql.js], [xss.js], [commandInjection.js],
    [pathTraversal.js], [nosqlInjection.js], [headerInjection.js],
    [rateLimiting.js], [malformedPayload.js], [httpMethodTest.js],
    [payloadSize.js]) and the engine ([index.js]: [injectPayload],
    [sendRequest], [getBaseline], [scanEndpoint], [truncateResponse],
    [runScan]).

    Conventions of the embedding.
    - A JavaScript string is a [string] of Rocq that holds its UTF-8 bytes
      (a surrogate that stands alone is held as its three bytes).  Its
      [length] and [substring] count UTF-16 code units ([Str.units],
      [Str.first_units]); [includes], [startsWith] and [endsWith] compare
      bytes, which is exact for text in UTF-8.  The case mappings and the
      character classes of regular expressions are those of ASCII: they are
      exact on ASCII text ([Str.is_ascii]), and the properties that depend
      on them for a text say that the text is ASCII.
    - A JavaScript number is an integer of [Z] (status codes, milliseconds,
      lengths).  Its decimal text is the text that JavaScript prints for
      the integers it holds exactly, those of magnitude below 2^53
      ([JSON.safe]).
    - A value that is only read is a tree ([jsval]); objects that the engine
      copies and then writes to live in a heap of objects ([heap]).
    - A [throw] is the [Throw] branch of [exc]. *)

From Stdlib Require Import String Ascii List ZArith Lia Bool Arith.
From Stdlib Require Import Numbers.DecimalString.
From stdpp Require Import base list.
Import ListNotations.

Open Scope bool_scope.
Open Scope string_scope.

(** ** Strings *)

Module Str.

(** The double quote character, and a string made of it. *)
Definition dquote : ascii := Ascii false true false false false true false false.
Definition dq : string := String dquote EmptyString.

(** Characters from their code. *)
Definition chr (n : nat) : ascii := ascii_of_nat n.
Definition str1 (n : nat) : string := String (chr n) EmptyString.

(** [tpl s] is [s] with every backquote replaced by a double quote; it is
    used to write constants that hold double quotes and no backquote. *)
Fixpoint tpl (s : string) : string :=
  match s with
  | EmptyString => EmptyString
  | String c s' => String (if Ascii.eqb c "`"%char then dquote else c) (tpl s')
  end.

(** [s.startsWith(p)] *)
Definition startsWith (s p : string) : bool := String.prefix p s.

(** [s.includes(sub)] *)
Fixpoint includes (s sub : string) : bool :=
  String.prefix sub s ||
  match s with
  | EmptyString => false
  | String _ s' => includes s' sub
  end.

(** [s.endsWith(p)] *)
Fixpoint endsWith (s p : string) : bool :=
  String.eqb s p ||
  match s with
  | EmptyString => false
  | String _ s' => endsWith s' p
  end.

Definition is_upper (c : ascii) : bool :=
  let n := nat_of_ascii c in (65 <=? n)%nat && (n <=? 90)%nat.
Definition is_lower (c : ascii) : bool :=
  let n := nat_of_ascii c in (97 <=? n)%nat && (n <=? 122)%nat.
Definition is_digit (c : ascii) : bool :=
  let n := nat_of_ascii c in (48 <=? n)%nat && (n <=? 57)%nat.

Definition lower_char (c : ascii) : ascii :=
  if is_upper c then ascii_of_nat (nat_of_ascii c + 32) else c.
Definition upper_char (c : ascii) : ascii :=
  if is_lower c then ascii_of_nat (nat_of_ascii c - 32) else c.

(** [s.toLowerCase()] and [s.toUpperCase()] on ASCII text: the letters A
    to Z and a to z are mapped, and every other byte stays (JavaScript maps
    letters outside ASCII too, the Kelvin sign to [k] among them). *)
Fixpoint toLowerCase (s : string) : string :=
  match s with
  | EmptyString => EmptyString
  | String c s' => String (lower_char c) (toLowerCase s')
  end.
Fixpoint toUpperCase (s : string) : string :=
  match s with
  | EmptyString => EmptyString
  | String c s' => String (upper_char c) (toUpperCase s')
  end.

(** [s.substring(0, n)] and [s.slice(0, n)] for [0 <= n], on ASCII text. *)
Definition take (n : nat) (s : string) : string := String.substring 0 n s.

(** Text that is ASCII: every byte is a character. *)
Fixpoint is_ascii (s : string) : bool :=
  match s with
  | EmptyString => true
  | String c s' => (nat_of_ascii c <? 128)%nat && is_ascii s'
  end.

(** *** Lengths in code units

    [length] and [substring] count the UTF-16 code units of a string.  In
    UTF-8 a character of one, two or three bytes is one code unit, and a
    character of four bytes is two, a surrogate pair; the bytes of a
    character after its first count for nothing. *)
Definition unit_weight (c : ascii) : nat :=
  let n := nat_of_ascii c in
  if (n <? 128)%nat then 1%nat
  else if (n <? 192)%nat then 0%nat
  else if (n <? 240)%nat then 1%nat
  else 2%nat.

(** [s.length] *)
Fixpoint units (s : string) : nat :=
  match s with
  | EmptyString => 0%nat
  | String c s' => (unit_weight c + units s')%nat
  end.

(** The byte of [s] at [i], as a number; a byte that is missing is read as
    a byte of continuation without bits. *)
Definition byte_at (i : nat) (s : string) : nat :=
  match String.get i s with
  | Some c => nat_of_ascii c
  | None => 128%nat
  end.

(** The two code units of a character of four bytes [b1 b2 b3 b4], each as
    the three bytes of a surrogate that stands alone: with [cp] the code
    point of the character, [0xD800 + ((cp - 0x10000) >> 10)] and
    [0xDC00 + (cp & 0x3FF)]. *)
Definition high_surrogate (b1 b2 b3 : nat) : string :=
  let u := (4 * (b1 mod 8) + (b2 / 16) mod 4)%nat in
  String (ascii_of_nat 237)
    (String (ascii_of_nat (160 + (u - 1) mod 16))
       (String (ascii_of_nat (128 + (4 * (b2 mod 16) + (b3 / 16) mod 4)))
          EmptyString)).

Definition low_surrogate (b3 b4 : nat) : string :=
  String (ascii_of_nat 237)
    (String (ascii_of_nat (176 + b3 mod 16))
       (String (ascii_of_nat (128 + b4 mod 64)) EmptyString)).

(** [s.substring(0, n)]: the characters of [s] as long as their code units
    are among the first [n]; of a character of four bytes that has its
    first code unit there and its second not, the first one is kept. *)
Fixpoint first_units (n : nat) (s : string) : string :=
  match s with
  | EmptyString => EmptyString
  | String c s' =>
      match unit_weight c with
      | O => String c (first_units n s')
      | S O =>
          match n with
          | O => EmptyString
          | S n' => String c (first_units n' s')
          end
      | _ =>
          match n with
          | O => EmptyString
          | S O => high_surrogate (nat_of_ascii c) (byte_at 0 s') (byte_at 1 s')
          | S (S n') => String c (first_units n' s')
          end
      end
  end.

(** The code units of [s], each as a string of its own: what [s[i]] is, and
    what [{...s}] spreads.  The bytes of continuation that [pending] holds
    go to the first byte of their character. *)
Fixpoint code_units_from (s : string) : string * list string :=
  match s with
  | EmptyString => (EmptyString, [])
  | String c s' =>
      let '(pending, us) := code_units_from s' in
      match unit_weight c with
      | O => (String c pending, us)
      | S O => (EmptyString, String c pending :: us)
      | _ =>
          (EmptyString,
           high_surrogate (nat_of_ascii c) (byte_at 0 pending) (byte_at 1 pending)
             :: low_surrogate (byte_at 1 pending) (byte_at 2 pending) :: us)
      end
  end.

Definition code_units (s : string) : list string := snd (code_units_from s).

(** [parts.join(sep)] *)
Fixpoint join (sep : string) (parts : list string) : string :=
  match parts with
  | [] => EmptyString
  | [p] => p
  | p :: rest => p ++ sep ++ join sep rest
  end.

(** [c.repeat(n)] for a string of one character. *)
Fixpoint repeat (c : ascii) (n : nat) : string :=
  match n with
  | O => EmptyString
  | S n' => String c (repeat c n')
  end.

(** [s.repeat(n)] *)
Fixpoint times (n : nat) (s : string) : string :=
  match n with
  | O => EmptyString
  | S n' => s ++ times n' s
  end.

(** [String(n)] for an integer [n] below [10^21] in absolute value (from
    there on JavaScript writes a number with an exponent). *)
Definition ofZ (z : Z) : string := NilZero.string_of_int (Z.to_int z).

(** Two hexadecimal digits of a byte, in the given letters. *)
Definition hex_digit (upper : bool) (n : nat) : ascii :=
  if (n <? 10)%nat then ascii_of_nat (48 + n)
  else ascii_of_nat ((if upper then 55 else 87) + n).
Definition hex2 (upper : bool) (c : ascii) : string :=
  let n := nat_of_ascii c in
  String (hex_digit upper (n / 16)) (String (hex_digit upper (n mod 16)) EmptyString).

End Str.

(** ** Exceptions *)

Inductive exc (A : Type) : Type :=
| Ok (a : A)
| Throw (message : string).
Arguments Ok {A} a.
Arguments Throw {A} message.

(** ** JavaScript values as trees, and [JSON.stringify] *)

#[warnings="-register-all"]
Inductive jsval : Type :=
| JUndefined
| JNull
| JBool (b : bool)
| JNum (n : Z)
| JStr (s : string)
| JArr (elems : list jsval)
| JObj (props : list (string * jsval)).

(** Truthiness: what [!v], [v || d] and [v && w] test. *)
Definition truthy (v : jsval) : bool :=
  match v with
  | JUndefined | JNull => false
  | JBool b => b
  | JNum n => negb (n =? 0)%Z
  | JStr s => negb (String.eqb s EmptyString)
  | JArr _ | JObj _ => true
  end.

Module JSON.

(** The escape of one character inside a JSON string. *)
Definition escape_char (c : ascii) : string :=
  let n := nat_of_ascii c in
  if (n =? 34)%nat then "\" ++ Str.dq
  else if (n =? 92)%nat then "\\"
  else if (n =? 8)%nat then "\b"
  else if (n =? 9)%nat then "\t"
  else if (n =? 10)%nat then "\n"
  else if (n =? 12)%nat then "\f"
  else if (n =? 13)%nat then "\r"
  else if (n <? 32)%nat then "\u00" ++ Str.hex2 false c
  else String c EmptyString.

(** A surrogate that stands alone (three bytes, the first [0xED] and the
    second from [0xA0] on) is written as its escape [\udXXX]; [skip] counts
    the bytes of it that are still to be dropped. *)
Definition surrogate_escape (b2 b3 : nat) : string :=
  "\ud"
  ++ String (Str.hex_digit false ((b2 mod 64) / 4))
       (String (Str.hex_digit false (4 * (b2 mod 4) + (b3 mod 64) / 16))
          (String (Str.hex_digit false (b3 mod 16)) EmptyString)).

Fixpoint escape_from (skip : nat) (s : string) : string :=
  match s with
  | EmptyString => EmptyString
  | String c s' =>
      match skip with
      | S k => escape_from k s'
      | O =>
          if (nat_of_ascii c =? 237)%nat && (160 <=? Str.byte_at 0 s')%nat
          then surrogate_escape (Str.byte_at 0 s') (Str.byte_at 1 s')
                 ++ escape_from 2 s'
          else escape_char c ++ escape_from 0 s'
      end
  end.

Definition escape (s : string) : string := escape_from 0 s.

Definition quote (s : string) : string := Str.dq ++ escape s ++ Str.dq.

(** [JSON.stringify(v)]; [None] is the result [undefined]. *)
Fixpoint stringify (v : jsval) : option string :=
  match v with
  | JUndefined => None
  | JNull => Some "null"
  | JBool true => Some "true"
  | JBool false => Some "false"
  | JNum n => Some (Str.ofZ n)
  | JStr s => Some (quote s)
  | JArr elems =>
      let item x := match stringify x with Some t => t | None => "null" end in
      Some ("[" ++ Str.join "," (List.map item elems) ++ "]")
  | JObj props =>
      let member (kv : string * jsval) (acc : list string) :=
        match stringify (snd kv) with
        | Some t => (quote (fst kv) ++ ":" ++ t) :: acc
        | None => acc
        end in
      Some ("{" ++ Str.join "," (List.fold_right member [] props) ++ "}")
  end.

(** Data whose numbers are integers that a number of JavaScript holds
    exactly ([Number.isSafeInteger]): for them [stringify] is
    [JSON.stringify]. *)
Fixpoint safe (v : jsval) : bool :=
  match v with
  | JNum n => (Z.abs n <? 2 ^ 53)%Z
  | JArr elems => forallb safe elems
  | JObj props => forallb (fun kv => safe (snd kv)) props
  | _ => true
  end.

(** Data whose strings and keys are ASCII text. *)
Fixpoint ascii_text (v : jsval) : bool :=
  match v with
  | JStr s => Str.is_ascii s
  | JArr elems => forallb ascii_text elems
  | JObj props =>
      forallb (fun kv => Str.is_ascii (fst kv) && ascii_text (snd kv)) props
  | _ => true
  end.

(** Data for which every function on text of this development is the
    function of JavaScript. *)
Definition plain (v : jsval) : bool := safe v && ascii_text v.

End JSON.

(** ** The engine: [truncateResponse] *)

(** [typeof data === 'string' ? data : JSON.stringify(data)] for a [data]
    that is not [undefined]. *)
Definition data_text (data : jsval) : string :=
  match data with
  | JStr s => s
  | _ => match JSON.stringify data with Some t => t | None => EmptyString end
  end.

Definition truncateResponse (data : jsval) : string :=
  if negb (truthy data) then "[No response body]"
  else
    let str := data_text data in
    if (Str.units str <=? 200)%nat then str
    else Str.first_units 200 str ++ "... [truncated]".


(** ** Regular expressions

    The patterns of the analyzers use literals, escapes, [.], classes,
    the greedy quantifiers [*], [+], [?], [{n}] and top-level alternation;
    none has a group, an anchor or a lazy quantifier.  [parse] reads a
    pattern text into [re]; [run] is the backtracking matcher of the
    language specification for this fragment, written with a continuation. *)

Module Regex.

Inductive cset : Type :=
| Any                       (* [.]: every character but a line terminator *)
| Lit (c : ascii)
| Digit                     (* [\d] *)
| Word                      (* [\w] *)
| Space                     (* [\s] *)
| OneOf (cs : list ascii)   (* [[...]] *)
| NoneOf (cs : list ascii). (* [[^...]] *)

Inductive re : Type :=
| Eps
| Chr (cs : cset)
| Cat (a b : re)
| Alt (a b : re)
| Star (a : re).

Definition lit_match (ic : bool) (x c : ascii) : bool :=
  if ic then Ascii.eqb (Str.lower_char x) (Str.lower_char c) else Ascii.eqb x c.

(** The classes [\s], [\w] and [.] on ASCII text (JavaScript has white
    space and two line terminators outside ASCII too). *)
Definition is_space (c : ascii) : bool :=
  let n := nat_of_ascii c in
  ((9 <=? n)%nat && (n <=? 13)%nat) || (n =? 32)%nat.

Definition is_word (c : ascii) : bool :=
  Str.is_upper c || Str.is_lower c || Str.is_digit c || Ascii.eqb c "_"%char.

Definition is_line_terminator (c : ascii) : bool :=
  let n := nat_of_ascii c in (n =? 10)%nat || (n =? 13)%nat.

Definition cset_match (ic : bool) (cs : cset) (c : ascii) : bool :=
  match cs with
  | Any => negb (is_line_terminator c)
  | Lit x => lit_match ic x c
  | Digit => Str.is_digit c
  | Word => is_word c
  | Space => is_space c
  | OneOf l => existsb (fun x => lit_match ic x c) l
  | NoneOf l => negb (existsb (fun x => lit_match ic x c) l)
  end.

(** [run ic r s k]: match [r] at the start of [s] and hand the rest of the
    string to [k]; alternatives are tried left to right, a star takes as
    many iterations as it can, and an iteration that consumes nothing is
    refused. *)
Fixpoint run {A : Type} (ic : bool) (r : re) (s : string)
         (k : string -> option A) {struct r} : option A :=
  match r with
  | Eps => k s
  | Chr cs =>
      match s with
      | String c s' => if cset_match ic cs c then k s' else None
      | EmptyString => None
      end
  | Cat a b => run ic a s (fun s' => run ic b s' k)
  | Alt a b =>
      match run ic a s k with
      | Some x => Some x
      | None => run ic b s k
      end
  | Star a =>
      (fix star (n : nat) (s : string) {struct n} : option A :=
         match n with
         | O => k s
         | S n' =>
             match run ic a s
                     (fun s' => if (String.length s' <? String.length s)%nat
                                then star n' s' else None) with
             | Some x => Some x
             | None => k s
             end
         end) (String.length s) s
  end.

(** The leftmost match in [s], which is the part of the subject from
    index [pos] on; the result is the index where that match ends. *)
Fixpoint search (ic : bool) (r : re) (s : string) (pos : nat) : option nat :=
  match run ic r s (fun rest => Some rest) with
  | Some rest => Some (pos + (String.length s - String.length rest))%nat
  | None =>
      match s with
      | EmptyString => None
      | String _ s' => search ic r s' (S pos)
      end
  end.

(** *** Pattern texts *)

Inductive mode : Type :=
| MNormal
| MEscape
| MHex (seen : option nat)
| MClass (start neg : bool) (acc : list ascii)
| MBrace (n : nat).

(** The alternatives read so far and the atoms of the current one, both
    latest first. *)
Record pstate : Type := { alts : list re; atoms : list re }.

Definition push (a : re) (st : pstate) : pstate :=
  {| alts := alts st; atoms := a :: atoms st |}.

Definition on_last (f : re -> re) (st : pstate) : pstate :=
  match atoms st with
  | a :: rest => {| alts := alts st; atoms := f a :: rest |}
  | [] => st
  end.

Definition seq_of (atoms_rev : list re) : re :=
  List.fold_left (fun acc a => Cat a acc) atoms_rev Eps.

Definition close_alt (st : pstate) : pstate :=
  {| alts := seq_of (atoms st) :: alts st; atoms := [] |}.

Definition finish (st : pstate) : re :=
  match alts (close_alt st) with
  | [] => Eps
  | last :: before => List.fold_left (fun acc a => Alt a acc) before last
  end.

Fixpoint rep (n : nat) (a : re) : re :=
  match n with
  | O => Eps
  | S n' => Cat a (rep n' a)
  end.

Definition digit_val (c : ascii) : nat := nat_of_ascii c - 48.

Definition hex_val (c : ascii) : nat :=
  if Str.is_digit c then nat_of_ascii c - 48
  else nat_of_ascii (Str.lower_char c) - 87.

Definition escape_atom (c : ascii) : re :=
  if Ascii.eqb c "d"%char then Chr Digit
  else if Ascii.eqb c "w"%char then Chr Word
  else if Ascii.eqb c "s"%char then Chr Space
  else if Ascii.eqb c "n"%char then Chr (Lit (Str.chr 10))
  else if Ascii.eqb c "r"%char then Chr (Lit (Str.chr 13))
  else if Ascii.eqb c "t"%char then Chr (Lit (Str.chr 9))
  else if Ascii.eqb c "0"%char then Chr (Lit (Str.chr 0))
  else Chr (Lit c).

Fixpoint parse_from (m : mode) (st : pstate) (s : string) : re :=
  match s with
  | EmptyString => finish st
  | String c s' =>
      match m with
      | MNormal =>
          if Ascii.eqb c "\"%char then parse_from MEscape st s'
          else if Ascii.eqb c "["%char then parse_from (MClass true false []) st s'
          else if Ascii.eqb c "{"%char then parse_from (MBrace 0) st s'
          else if Ascii.eqb c "."%char then parse_from MNormal (push (Chr Any) st) s'
          else if Ascii.eqb c "*"%char then parse_from MNormal (on_last Star st) s'
          else if Ascii.eqb c "+"%char
               then parse_from MNormal (on_last (fun a => Cat a (Star a)) st) s'
          else if Ascii.eqb c "?"%char
               then parse_from MNormal (on_last (fun a => Alt a Eps) st) s'
          else if Ascii.eqb c "|"%char then parse_from MNormal (close_alt st) s'
          else parse_from MNormal (push (Chr (Lit c)) st) s'
      | MEscape =>
          if Ascii.eqb c "x"%char then parse_from (MHex None) st s'
          else parse_from MNormal (push (escape_atom c) st) s'
      | MHex None => parse_from (MHex (Some (hex_val c))) st s'
      | MHex (Some hi) =>
          parse_from MNormal (push (Chr (Lit (Str.chr (16 * hi + hex_val c)))) st) s'
      | MClass start neg acc =>
          if start && Ascii.eqb c "^"%char then parse_from (MClass false true acc) st s'
          else if Ascii.eqb c "]"%char
               then parse_from MNormal
                      (push (Chr (if neg then NoneOf (rev acc) else OneOf (rev acc))) st) s'
          else parse_from (MClass false neg (c :: acc)) st s'
      | MBrace n =>
          if Ascii.eqb c "}"%char then parse_from MNormal (on_last (rep n) st) s'
          else parse_from (MBrace (10 * n + digit_val c)) st s'
      end
  end.

Definition parse (pattern : string) : re :=
  parse_from MNormal {| alts := []; atoms := [] |} pattern.

(** *** RegExp objects

    A RegExp object carries its [lastIndex]; [test] reads and writes it
    when the [g] flag is set and leaves it alone otherwise. *)

Record RegExp : Type := {
  source : string;
  ignoreCase : bool;
  global : bool;
  body : re;
  lastIndex : nat
}.

(** The literal [/source/] with the flags [i] and [g] as given. *)
Definition regexp (g i : bool) (src : string) : RegExp :=
  {| source := src; ignoreCase := i; global := g; body := parse src; lastIndex := 0 |}.

Definition set_lastIndex (r : RegExp) (n : nat) : RegExp :=
  {| source := source r; ignoreCase := ignoreCase r; global := global r;
     body := body r; lastIndex := n |}.

Fixpoint drop (n : nat) (s : string) : string :=
  match n, s with
  | S n', String _ s' => drop n' s'
  | _, _ => s
  end.

(** [r.test(s)]: the answer and the object after the call. *)
Definition test (r : RegExp) (s : string) : bool * RegExp :=
  if global r then
    if (String.length s <? lastIndex r)%nat then (false, set_lastIndex r 0)
    else
      match search (ignoreCase r) (body r) (drop (lastIndex r) s) (lastIndex r) with
      | Some e => (true, set_lastIndex r e)
      | None => (false, set_lastIndex r 0)
      end
  else
    (match search (ignoreCase r) (body r) s 0 with Some _ => true | None => false end, r).

(** [r.toString()] *)
Definition toString (r : RegExp) : string :=
  "/" ++ source r ++ "/" ++ (if global r then "g" else EmptyString)
      ++ (if ignoreCase r then "i" else EmptyString).

(** [for (const p of patterns) { if (p.test(s)) { ...; break; } }]: the
    first pattern that matches, if any, and the table after the calls. *)
Fixpoint first_match (patterns : list RegExp) (s : string)
  : option RegExp * list RegExp :=
  match patterns with
  | [] => (None, [])
  | p :: rest =>
      let '(hit, p') := test p s in
      if hit then (Some p', p' :: rest)
      else let '(found, rest') := first_match rest s in (found, p' :: rest')
  end.

End Regex.

(** ** [decodeURIComponent] and [encodeURIComponent] *)

Module URI.

Definition is_hex (c : ascii) : bool :=
  Str.is_digit c ||
  (let n := nat_of_ascii (Str.lower_char c) in (97 <=? n)%nat && (n <=? 102)%nat).

Inductive dmode : Type :=
| DPlain
| DPct
| DHex (hi : nat).

(** What a lead byte asks of the bytes after it: how many follow, and the
    range of the first of them. *)
Definition lead (b : nat) : option (nat * nat * nat) :=
  if (b <? 194)%nat then None
  else if (b <? 224)%nat then Some (1, 128, 191)
  else if (b =? 224)%nat then Some (2, 160, 191)
  else if (b =? 237)%nat then Some (2, 128, 159)
  else if (b <? 240)%nat then Some (2, 128, 191)
  else if (b =? 240)%nat then Some (3, 144, 191)
  else if (b <? 244)%nat then Some (3, 128, 191)
  else if (b =? 244)%nat then Some (3, 128, 143)
  else None.

(** [pending] is the number of continuation bytes still owed, [lo] and
    [hi] bound the next of them. *)
Fixpoint decode_from (m : dmode) (pending lo hi : nat) (s : string) : exc string :=
  match s with
  | EmptyString =>
      match m, pending with
      | DPlain, O => Ok EmptyString
      | _, _ => Throw "URI malformed"
      end
  | String c s' =>
      match m with
      | DPlain =>
          if Ascii.eqb c "%"%char then decode_from DPct pending lo hi s'
          else
            match pending with
            | O =>
                match decode_from DPlain 0 0 0 s' with
                | Ok t => Ok (String c t)
                | Throw e => Throw e
                end
            | S _ => Throw "URI malformed"
            end
      | DPct =>
          if is_hex c then decode_from (DHex (Regex.hex_val c)) pending lo hi s'
          else Throw "URI malformed"
      | DHex h =>
          if is_hex c then
            let b := (16 * h + Regex.hex_val c)%nat in
            let emit (pending' lo' hi' : nat) :=
              match decode_from DPlain pending' lo' hi' s' with
              | Ok t => Ok (String (Str.chr b) t)
              | Throw e => Throw e
              end in
            match pending with
            | O =>
                if (b <? 128)%nat then emit 0%nat 0%nat 0%nat
                else
                  match lead b with
                  | Some (n, lo', hi') => emit n lo' hi'
                  | None => Throw "URI malformed"
                  end
            | S p =>
                if (lo <=? b)%nat && (b <=? hi)%nat then emit p 128%nat 191%nat
                else Throw "URI malformed"
            end
          else Throw "URI malformed"
      end
  end.

Definition decodeURIComponent (s : string) : exc string :=
  decode_from DPlain 0 0 0 s.

Definition unreserved (c : ascii) : bool :=
  Regex.is_word c && negb (Ascii.eqb c "_"%char)
  || existsb (Ascii.eqb c)
       ["-"%char; "_"%char; "."%char; "!"%char; "~"%char; "*"%char;
        "'"%char; "("%char; ")"%char].

Fixpoint encodeURIComponent (s : string) : string :=
  match s with
  | EmptyString => EmptyString
  | String c s' =>
      (if unreserved c then String c EmptyString else "%" ++ Str.hex2 true c)
      ++ encodeURIComponent s'
  end.

End URI.

(** ** Responses and analysis results *)

Inductive Confidence : Type := low | medium | high.

Record AnalysisResult : Type := {
  vulnerable : bool;
  confidence : Confidence;
  indicators : list string;
  notes : string
}.

(** A header value of a response: one string, or the array that the HTTP
    client builds for a header that repeats ([set-cookie]). *)
Inductive hval : Type :=
| HStr (s : string)
| HArr (items : list string).

Record Response : Type := {
  status : Z;
  data : jsval;
  headers : list (string * hval)
}.

(** [headers[name]]; [None] is [undefined]. *)
Fixpoint header (hs : list (string * hval)) (name : string) : option hval :=
  match hs with
  | [] => None
  | (k, v) :: rest => if String.eqb k name then Some v else header rest name
  end.

(** Truthiness of [headers[name]]. *)
Definition header_truthy (v : option hval) : bool :=
  match v with
  | None => false
  | Some (HStr s) => negb (String.eqb s EmptyString)
  | Some (HArr _) => true
  end.

(** [v.includes(x)] on a header value: a substring of a string, an element
    of an array. *)
Definition hval_includes (v : hval) (x : string) : bool :=
  match v with
  | HStr s => Str.includes s x
  | HArr items => existsb (String.eqb x) items
  end.

(** A header value inside a template literal. *)
Definition hval_text (v : hval) : string :=
  match v with
  | HStr s => s
  | HArr items => Str.join "," items
  end.

(** [typeof response.data === 'string' ? response.data
      : JSON.stringify(response.data || '')] *)
Definition responseBody (response : Response) : string :=
  match data response with
  | JStr s => s
  | d =>
      match JSON.stringify (if truthy d then d else JStr EmptyString) with
      | Some t => t
      | None => EmptyString
      end
  end.

(** The object every [analyzeResponse] starts from and then assigns to. *)
Definition result0 : AnalysisResult :=
  {| vulnerable := false; confidence := low; indicators := []; notes := EmptyString |}.

Definition set_vulnerable (b : bool) (r : AnalysisResult) : AnalysisResult :=
  {| vulnerable := b; confidence := confidence r;
     indicators := indicators r; notes := notes r |}.
Definition set_confidence (c : Confidence) (r : AnalysisResult) : AnalysisResult :=
  {| vulnerable := vulnerable r; confidence := c;
     indicators := indicators r; notes := notes r |}.
Definition push_indicator (s : string) (r : AnalysisResult) : AnalysisResult :=
  {| vulnerable := vulnerable r; confidence := confidence r;
     indicators := indicators r ++ [s]; notes := notes r |}.
Definition set_notes (s : string) (r : AnalysisResult) : AnalysisResult :=
  {| vulnerable := vulnerable r; confidence := confidence r;
     indicators := indicators r; notes := s |}.

(** [result.vulnerable = v; result.confidence = c; result.indicators.push(i);
    result.notes = n], the group of assignments most findings make. *)
Definition finding (v : bool) (c : Confidence) (i n : string) (r : AnalysisResult)
  : AnalysisResult :=
  set_notes n (push_indicator i (set_confidence c (set_vulnerable v r))).

(** [words.some(w => text.includes(w))] *)
Definition some_included (text : string) (words : list string) : bool :=
  existsb (Str.includes text) words.

(** [status === 403 || status === 406 || status === 429] *)
Definition blocking_status (st : Z) : bool :=
  ((st =? 403) || (st =? 406) || (st =? 429))%Z.

(** [s.replace(/from/g, to)] for a literal, non-empty [from]: the
    occurrences are replaced from the left, and [skip] counts the
    characters of an occurrence that are still to be dropped. *)
Fixpoint replace_from (skip : nat) (from to s : string) : string :=
  match s with
  | EmptyString => EmptyString
  | String c s' =>
      match skip with
      | S k => replace_from k from to s'
      | O =>
          if String.prefix from s
          then to ++ replace_from (String.length from - 1) from to s'
          else String c (replace_from 0 from to s')
      end
  end.

Definition replaceAll (from to s : string) : string := replace_from 0 from to s.

(** ** [sql.js] *)

Module Sql.

(** The pattern tables of the module, objects that live as long as the
    module does. *)
Record state : Type := {
  sqlErrorPatterns : list Regex.RegExp;
  successPatterns : list Regex.RegExp
}.

Definition init : state :=
  {| sqlErrorPatterns := List.map (Regex.regexp false true)
       [ "sql syntax"; "mysql_fetch"; "mysql_num_rows"; "mysql_query";
         "pg_query"; "pg_exec"; "sqlite_"; "ORA-\d{5}"; "Oracle error";
         "ODBC SQL Server Driver"; "SQLServer JDBC Driver";
         "Microsoft OLE DB Provider"; "Incorrect syntax near";
         "Unclosed quotation mark"; "quoted string not properly terminated";
         "syntax error at or near"; "unexpected end of SQL command";
         "invalid column name"; "unknown column"; "no such column";
         "column.*does not exist"; "table.*doesn't exist"; "no such table";
         "division by zero"; "You have an error in your SQL syntax";
         "Warning.*mysql_"; "valid MySQL result"; "PostgreSQL.*ERROR";
         "Warning.*pg_"; "Warning.*sqlite_"; "SQLite\/JDBCDriver";
         "SQLite.Exception"; "System.Data.SQLite.SQLiteException";
         "SQLITE_ERROR"; "SQL Server.*Driver"; "SQL Server.*Error";
         "Access.*Driver"; "Jet Database Engine"; "Driver.*SQL[-_ ]*Server";
         "SQLSTATE"; "psycopg2"; "mysqli"; "PDOException"; "db2_"; "ifx_";
         "sybase" ];
     successPatterns := List.map (Regex.regexp false true)
       [ "root:.*:0:0"; "admin.*password"; "user.*password";
         "login.*success.*true"; "authentication.*bypass" ] |}.

Definition wafIndicators : list string :=
  [ "you have been blocked"; "access denied"; "forbidden"; "request blocked";
    "security block"; "firewall"; "cloudflare"; "akamai"; "imperva";
    "incapsula"; "sucuri"; "mod_security"; "web application firewall"; "waf";
    "attack detected"; "malicious request"; "sql injection";
    "invalid request"; "request rejected" ].

Definition isWAFBlocked (response : Response) (responseBody : string) : bool :=
  let bodyLower := Str.toLowerCase responseBody in
  if blocking_status (status response) && some_included bodyLower wafIndicators
  then true
  else if Str.includes bodyLower "cloudflare ray id" || Str.includes bodyLower "cf-ray"
  then true
  else false.

Definition analyzeResponse (m : state) (response : Response) (payload : string)
           (originalStatus : option Z) : AnalysisResult * state :=
  let result := result0 in
  let body := responseBody response in
  let st := status response in
  if isWAFBlocked response body then
    let result := set_vulnerable false result in
    let result := set_confidence high result in
    let result := push_indicator "✅ WAF/Firewall blocked the malicious request" result in
    let result := push_indicator ("Response status: " ++ Str.ofZ st) result in
    let result := set_notes "PROTECTED: Web Application Firewall detected and blocked the SQL injection attempt. The application is secured by WAF." result in
    (result, m)
  else if ((400 <=? st) && (st <? 500) && negb (st =? 401))%Z then
    let result := set_vulnerable false result in
    let result := push_indicator ("Request rejected with status " ++ Str.ofZ st) result in
    let result := set_notes "Request was rejected - server may have input validation" result in
    (result, m)
  else
    let '(hit, errors') := Regex.first_match (sqlErrorPatterns m) body in
    let result :=
      match hit with
      | Some pattern =>
          finding true high "⚠️ SQL error message detected in response"
            ("VULNERABLE: SQL error exposed - " ++ Str.take 50 (Regex.toString pattern))
            result
      | None => result
      end in
    let '(hit, success') := Regex.first_match (successPatterns m) body in
    let result :=
      match hit with
      | Some _ =>
          finding true high "⚠️ Potential data leakage detected"
            "VULNERABLE: Sensitive data pattern found in response" result
      | None => result
      end in
    let result :=
      if Str.includes payload "OR '1'='1"
         || Str.includes payload (Str.tpl "OR `1`=`1")
      then
        if (st =? 200)%Z then
          if fst (Regex.test
                    (Regex.regexp false true
                       "success|authenticated|welcome|token|session|jwt|bearer")
                    body)
          then finding true high "⚠️ Potential authentication bypass"
                 "VULNERABLE: SQL injection payload resulted in successful authentication"
                 result
          else result
        else result
      else result in
    let result :=
      match originalStatus with
      | Some original =>
          if negb (st =? original)%Z then
            if ((st =? 200) && (400 <=? original))%Z then
              finding true medium "⚠️ Status code changed from error to success"
                "SUSPICIOUS: Injection changed response from error to success" result
            else result
          else result
      | None => result
      end in
    let result :=
      if negb (vulnerable result) then
        let result := push_indicator "No SQL injection indicators found" result in
        set_notes "SAFE: No SQL error messages or injection indicators detected in response" result
      else result in
    let result :=
      if fst (Regex.test
                (Regex.regexp false true "stack trace|exception|error.*line \d+") body)
      then push_indicator "ℹ️ Verbose error messages detected (info disclosure)" result
      else result in
    (result, {| sqlErrorPatterns := errors'; successPatterns := success' |}).

Definition getPayloads : list string :=
  [ "' OR '1'='1"; Str.tpl "` OR `1`=`1"; "' OR '1'='1' --";
    Str.tpl "` OR `1`=`1` --"; "' OR '1'='1' /*"; "1' OR '1'='1";
    Str.tpl "1` OR `1`=`1";
    "' UNION SELECT NULL--"; "' UNION SELECT NULL, NULL--";
    "' UNION SELECT username, password FROM users--";
    "1 UNION SELECT * FROM users";
    "' AND 1=CONVERT(int, @@version)--"; "' AND 1=1--"; "' AND 1=2--";
    "'; WAITFOR DELAY '0:0:5'--"; "' OR SLEEP(5)--"; "1' AND SLEEP(5)#";
    "'; DROP TABLE users--";
    "'; INSERT INTO users VALUES('hacker','hacked')--";
    "'; UPDATE users SET password='hacked'--";
    "{'$gt': ''}"; "{'$ne': null}"; "admin'--";
    "1; DROP TABLE users"; "1'); DROP TABLE users--"; "' OR ''='";
    "' OR 1=1#"; "admin'/*"; "') OR ('1'='1" ].

Definition getType : string := "SQL Injection".
Definition getSeverity : string := "Critical".

End Sql.

(** ** [xss.js] *)

Module Xss.

(** The module keeps a table of patterns with the [g] flag; its
    [analyzeResponse] never consults it. *)
Record state : Type := { reflectionPatterns : list Regex.RegExp }.

Definition init : state :=
  {| reflectionPatterns := List.map (Regex.regexp true true)
       [ "<script[^>]*>.*<\/script>"; "<img[^>]*onerror[^>]*>";
         "<svg[^>]*onload[^>]*>"; "<body[^>]*onload[^>]*>";
         "<input[^>]*onfocus[^>]*>"; "javascript:"; "on\w+\s*=";
         "<iframe[^>]*>"; "<object[^>]*>"; "<embed[^>]*>"; "<link[^>]*>";
         "<meta[^>]*http-equiv" ] |}.

Definition dangerousPatterns : list string :=
  [ "<script>"; "</script>"; "javascript:"; "onerror="; "onload="; "onclick=";
    "onmouseover="; "onfocus="; "onblur="; "<img"; "<svg"; "<iframe" ].

Definition isPayloadReflected (responseBody payload : string) : bool :=
  if Str.includes responseBody payload then true
  else if match URI.decodeURIComponent payload with
          | Ok decoded => Str.includes responseBody decoded
          | Throw _ => false
          end
  then true
  else
    let htmlDecoded :=
      replaceAll "&#39;" "'"
        (replaceAll "&quot;" Str.dq
           (replaceAll "&amp;" "&"
              (replaceAll "&gt;" ">"
                 (replaceAll "&lt;" "<" payload)))) in
    if Str.includes responseBody htmlDecoded then true else false.

Definition checkDangerousContent (responseBody payload : string) : list string :=
  List.filter
    (fun pattern =>
       Str.includes (Str.toLowerCase payload) (Str.toLowerCase pattern)
       && Str.includes (Str.toLowerCase responseBody) (Str.toLowerCase pattern))
    dangerousPatterns.

Definition wafIndicators : list string :=
  [ "you have been blocked"; "access denied"; "forbidden"; "request blocked";
    "security block"; "firewall"; "cloudflare"; "akamai"; "imperva";
    "incapsula"; "sucuri"; "mod_security"; "web application firewall"; "waf";
    "attack detected"; "malicious request"; "sql injection";
    "cross-site scripting"; "xss detected"; "invalid request";
    "request rejected" ].

Definition isWAFBlocked (response : Response) (responseBody : string) : bool :=
  let bodyLower := Str.toLowerCase responseBody in
  if blocking_status (status response) && some_included bodyLower wafIndicators
  then true
  else if Str.includes bodyLower "cloudflare ray id" || Str.includes bodyLower "cf-ray"
  then true
  else false.

Definition analyzeResponse (response : Response) (payload : string)
           (originalStatus : option Z) : AnalysisResult :=
  let result := result0 in
  let body := responseBody response in
  let st := status response in
  if isWAFBlocked response body then
    let result := set_vulnerable false result in
    let result := set_confidence high result in
    let result := push_indicator "✅ WAF/Firewall blocked the malicious request" result in
    let result := push_indicator ("Response status: " ++ Str.ofZ st) result in
    set_notes "PROTECTED: Web Application Firewall detected and blocked the XSS attempt. The application is secured by WAF." result
  else if ((400 <=? st) && (st <? 600))%Z
          && some_included (Str.toLowerCase body)
               [ "invalid"; "error"; "bad request"; "not allowed"; "rejected" ]
  then
    let result := set_vulnerable false result in
    let result := push_indicator ("Request rejected with status " ++ Str.ofZ st) result in
    set_notes "Request was rejected by the server - input validation may be in place" result
  else
    let result :=
      if isPayloadReflected body payload then
        let dangerousContent := checkDangerousContent body payload in
        if (0 <? List.length dangerousContent)%nat then
          let result := set_vulnerable true result in
          let result := set_confidence high result in
          let result := push_indicator "⚠️ Payload reflected without sanitization" result in
          let result :=
            push_indicator
              ("Dangerous content found: " ++ Str.join ", " dangerousContent) result in
          set_notes "VULNERABLE: XSS payload was reflected in the response without proper encoding. This could allow script execution." result
        else
          finding true medium "Payload reflected in response"
            "Payload found in response - verify if properly escaped in browser context"
            result
      else
        let result := set_vulnerable false result in
        let result := push_indicator "Payload was not reflected in response" result in
        set_notes "SAFE: The XSS payload was not reflected in the server response" result in
    let result :=
      if negb (vulnerable result) && (st =? 200)%Z then
        if Str.includes body payload then
          finding true high "⚠️ Exact payload found in 200 OK response"
            "VULNERABLE: The exact XSS payload appears in a successful response" result
        else result
      else result in
    let missingHeaders :=
      List.filter (fun key => negb (header_truthy (header (headers response) key)))
        [ "x-xss-protection"; "content-security-policy"; "x-content-type-options" ] in
    if (0 <? List.length missingHeaders)%nat && vulnerable result then
      push_indicator ("Missing security headers: " ++ Str.join ", " missingHeaders) result
    else result.

Definition getPayloads : list string :=
  [ "<script>alert(1)</script>"; "<script>alert('XSS')</script>";
    "<script>alert(document.cookie)</script>";
    "<img src=x onerror=alert(1)>"; "<img src=x onerror='alert(1)'>";
    "<svg onload=alert(1)>"; "<body onload=alert(1)>";
    "<input onfocus=alert(1) autofocus>"; "<marquee onstart=alert(1)>";
    "<video><source onerror=alert(1)>";
    Str.tpl "` onclick=`alert(1)`"; "' onclick='alert(1)'";
    Str.tpl "` onfocus=`alert(1)` autofocus=`";
    "javascript:alert(1)"; "javascript:alert(document.domain)";
    "data:text/html,<script>alert(1)</script>";
    "%3Cscript%3Ealert(1)%3C/script%3E";
    "&#60;script&#62;alert(1)&#60;/script&#62;";
    "\x3cscript\x3ealert(1)\x3c/script\x3e";
    "<svg><script>alert(1)</script></svg>"; "<svg/onload=alert(1)>";
    "{{constructor.constructor('alert(1)')()}}"; "${alert(1)}"; "#{alert(1)}";
    "'-alert(1)-'"; Str.tpl "`-alert(1)-`";
    "</script><script>alert(1)</script>" ].

Definition getType : string := "XSS".
Definition getSeverity : string := "High".

End Xss.

(** ** [commandInjection.js] *)

Module Cmd.

Record state : Type := { commandOutputPatterns : list Regex.RegExp }.

Definition init : state :=
  {| commandOutputPatterns := List.map (Regex.regexp false true)
       [ "root:.*:0:0:"; "bin\/bash"; "bin\/sh"; "nobody:.*:65534";
         "daemon:.*:1:1"; "uid=\d+.*gid=\d+"; "Linux.*\d+\.\d+\.\d+";
         "total \d+\s+drwx"; "drwxr-xr-x"; "-rw-r--r--"; "\/home\/\w+";
         "\/usr\/bin"; "\/var\/log";
         "Volume Serial Number"; "Directory of"; "\d{2}\/\d{2}\/\d{4}";
         "Windows IP Configuration"; "Ethernet adapter"; "C:\\Windows";
         "C:\\Users"; "Program Files"; "SYSTEM32"; "\[boot loader\]";
         "\[operating systems\]"; "\[fonts\]"; "\[extensions\]";
         "COMPUTERNAME="; "USERNAME="; "USERDOMAIN=";
         "command not found";
         "not recognized as an internal or external command";
         "No such file or directory"; "Permission denied";
         "Access is denied"; "cannot find the path";
         "is not recognized as a cmdlet" ] |}.

Definition timingKeywords : list string :=
  [ "sleep"; "WAITFOR"; "ping -c"; "ping -n" ].

Definition wafIndicators : list string :=
  [ "you have been blocked"; "access denied"; "forbidden"; "request blocked";
    "firewall"; "cloudflare"; "akamai"; "imperva"; "waf"; "attack detected";
    "malicious request"; "command injection"; "invalid request" ].

Definition isWAFBlocked (response : Response) (responseBody : string) : bool :=
  let bodyLower := Str.toLowerCase responseBody in
  if blocking_status (status response) && some_included bodyLower wafIndicators
  then true
  else if Str.includes bodyLower "cloudflare ray id" then true
  else false.

(** The table that [analyzeResponse] builds anew at every call. *)
Definition errorPatterns : list Regex.RegExp :=
  List.map (Regex.regexp false true)
    [ "sh: .*: not found"; "bash: .*: command not found";
      "cmd\.exe.*is not recognized"; "\/bin\/.*: No such file";
      "cannot execute binary file"; "syntax error near unexpected token" ].

Definition analyzeResponse (m : state) (response : Response) (payload : string)
           (originalStatus responseTime : option Z) : AnalysisResult * state :=
  let result := result0 in
  let body := responseBody response in
  let st := status response in
  if isWAFBlocked response body then
    let result := set_vulnerable false result in
    let result := set_confidence high result in
    let result := push_indicator "✅ WAF/Firewall blocked the malicious request" result in
    let result := set_notes "PROTECTED: WAF detected and blocked the command injection attempt." result in
    (result, m)
  else if ((400 <=? st) && (st <? 500))%Z then
    let result := set_vulnerable false result in
    let result := push_indicator ("Request rejected with status " ++ Str.ofZ st) result in
    let result := set_notes "Request was rejected - input validation may be in place" result in
    (result, m)
  else
    let '(hit, output') := Regex.first_match (commandOutputPatterns m) body in
    let result :=
      match hit with
      | Some pattern =>
          finding true high "⚠️ Command output detected in response"
            ("VULNERABLE: System command output found - "
               ++ Str.take 50 (Regex.toString pattern)) result
      | None => result
      end in
    let result :=
      match responseTime with
      | Some t =>
          let isTimingPayload :=
            existsb (fun kw => Str.includes (Str.toLowerCase payload) (Str.toLowerCase kw))
              timingKeywords in
          if isTimingPayload && (4500 <? t)%Z then
            finding true high "⚠️ Time-based command injection detected"
              ("VULNERABLE: Response delayed by " ++ Str.ofZ t ++ "ms - command executed")
              result
          else result
      | None => result
      end in
    let result :=
      match fst (Regex.first_match errorPatterns body) with
      | Some _ =>
          finding true medium "⚠️ Shell error message in response"
            "VULNERABLE: Shell error indicates command was processed" result
      | None => result
      end in
    let result :=
      if negb (vulnerable result) then
        let result := push_indicator "No command injection indicators found" result in
        set_notes "SAFE: No command execution indicators detected in response" result
      else result in
    (result, {| commandOutputPatterns := output' |}).

Definition getPayloads : list string :=
  [ "; ls"; "; ls -la"; "| ls"; "| ls -la"; "& ls"; "&& ls";
    "; cat /etc/passwd"; "| cat /etc/passwd"; "; whoami"; "| whoami";
    "&& whoami"; "& whoami"; "; id"; "| id"; "; uname -a"; "| uname -a";
    "& dir"; "| dir"; "; dir"; "&& dir";
    "| type C:\Windows\System32\drivers\etc\hosts";
    "; type C:\Windows\win.ini"; "& whoami"; "| net user";
    "; sleep 5"; "| sleep 5"; "&& sleep 5"; "; ping -c 5 127.0.0.1";
    "| ping -n 5 127.0.0.1";
    "`ls`"; "`whoami`"; "`cat /etc/passwd`";
    "$(ls)"; "$(whoami)"; "$(cat /etc/passwd)";
    "%0als"; "%0awhoami"; "\nls"; "\nwhoami";
    "; ls%00"; "| whoami%00" ].

Definition getType : string := "Command Injection".
Definition getSeverity : string := "Critical".

End Cmd.

(** ** [pathTraversal.js] *)

Module Path.

Record state : Type := {
  fileContentPatterns : list Regex.RegExp;
  errorPatterns : list Regex.RegExp;
  nullBytePatterns : list Regex.RegExp
}.

Definition init : state :=
  {| fileContentPatterns :=
       List.map (Regex.regexp false false)
         [ "root:.*:0:0:"; "daemon:.*:1:1:"; "nobody:.*:65534:";
           "shadow:.*:\*:"; "bin\/bash"; "bin\/sh"; "localhost";
           "127\.0\.0\.1"; "nameserver" ]
       ++ List.map (Regex.regexp false true)
         [ "\[global\]";
           "\[boot loader\]"; "\[operating systems\]"; "\[fonts\]";
           "\[extensions\]"; "\[Mail\]"; "; for 16-bit app support";
           "\[drivers\]"; "\[386Enh\]"; "MSDOS\.SYS"; "IO\.SYS";
           "DB_PASSWORD"; "DB_HOST"; "API_KEY"; "SECRET_KEY"; "AWS_ACCESS";
           "MYSQL_PASSWORD"; "POSTGRES_PASSWORD" ]
       ++ List.map (Regex.regexp false false)
         [ "<?php"; "<?xml"; "<\?xml version"; "<!DOCTYPE"; "package\.json";
           Str.tpl "`dependencies`"; Str.tpl "`devDependencies`" ];
     errorPatterns := List.map (Regex.regexp false true)
       [ "No such file or directory"; "File not found"; "Cannot find the file";
         "Access denied"; "Permission denied"; "failed to open stream";
         "include\(\): Failed opening"; "require\(\): Failed opening";
         "fopen\(\): failed"; "file_get_contents\(\): failed";
         "is not a valid path"; "Invalid file path"; "Directory traversal";
         "Path traversal" ];
     nullBytePatterns := List.map (Regex.regexp false false)
       [ "%00"; "\x00"; "\\x00"; "\\0" ] |}.

Definition wafIndicators : list string :=
  [ "you have been blocked"; "access denied"; "forbidden"; "request blocked";
    "firewall"; "cloudflare"; "akamai"; "imperva"; "waf"; "attack detected";
    "malicious request"; "path traversal"; "directory traversal";
    "invalid request" ].

Definition isWAFBlocked (response : Response) (responseBody : string) : bool :=
  let bodyLower := Str.toLowerCase responseBody in
  if blocking_status (status response) && some_included bodyLower wafIndicators
  then true
  else if Str.includes bodyLower "cloudflare ray id" then true
  else false.

Definition analyzeResponse (m : state) (response : Response) (payload : string)
           (originalStatus : option Z) : AnalysisResult * state :=
  let result := result0 in
  let body := responseBody response in
  let st := status response in
  if isWAFBlocked response body then
    let result := set_vulnerable false result in
    let result := set_confidence high result in
    let result := push_indicator "✅ WAF/Firewall blocked the malicious request" result in
    let result := set_notes "PROTECTED: WAF detected and blocked the path traversal attempt." result in
    (result, m)
  else if ((st =? 400) || (st =? 403) || (st =? 404))%Z then
    let result := set_vulnerable false result in
    let result :=
      push_indicator ("Request rejected/not found with status " ++ Str.ofZ st) result in
    let result := set_notes "SAFE: Path traversal was blocked or file not found" result in
    (result, m)
  else
    let '(hit, files') := Regex.first_match (fileContentPatterns m) body in
    let result :=
      match hit with
      | Some pattern =>
          finding true high "⚠️ System/config file content detected"
            ("VULNERABLE: System file content found - "
               ++ Str.take 50 (Regex.toString pattern)) result
      | None => result
      end in
    let '(hit, errors') := Regex.first_match (errorPatterns m) body in
    let result :=
      match hit with
      | Some _ =>
          if negb (vulnerable result) then
            let result := push_indicator "ℹ️ Path-related error message detected" result in
            set_notes "INFO: Error messages may indicate file system interaction" result
          else result
      | None => result
      end in
    let contentType :=
      let v := header (headers response) "content-type" in
      if header_truthy v then v else None in
    let contentType_includes (x : string) :=
      match contentType with
      | Some v => hval_includes v x
      | None => Str.includes EmptyString x
      end in
    let result :=
      if (st =? 200)%Z
         && (contentType_includes "octet-stream"
             || contentType_includes "application/pdf"
             || contentType_includes "image/")
      then finding true medium "⚠️ Binary file content returned"
             "SUSPICIOUS: Binary content returned - possible file disclosure" result
      else result in
    let result :=
      match originalStatus with
      | Some original =>
          if ((st =? 200) && (original =? 404))%Z then
            finding true medium "⚠️ File found after path traversal"
              "VULNERABLE: Traversal payload changed 404 to 200" result
          else result
      | None => result
      end in
    let result :=
      if negb (vulnerable result) then
        let result := push_indicator "No path traversal indicators found" result in
        set_notes "SAFE: No system file content detected in response" result
      else result in
    (result, {| fileContentPatterns := files'; errorPatterns := errors';
                nullBytePatterns := nullBytePatterns m |}).

Definition getPayloads : list string :=
  [ "../../../etc/passwd"; "../../../../etc/passwd";
    "../../../../../etc/passwd"; "../../../../../../etc/passwd";
    "../../../etc/shadow"; "../../../etc/hosts"; "../../../var/log/auth.log";
    "../../../root/.bash_history";
    "..\..\..\windows\system.ini"; "..\..\..\..\windows\system.ini";
    "..\..\..\windows\win.ini"; "..\..\..\..\boot.ini";
    "....//....//....//etc/passwd"; "....//..//..//..//windows/system.ini";
    "%2e%2e%2f%2e%2e%2f%2e%2e%2fetc%2fpasswd";
    "%2e%2e%5c%2e%2e%5c%2e%2e%5cwindows%5csystem.ini";
    "..%2f..%2f..%2fetc%2fpasswd"; "..%5c..%5c..%5cwindows%5csystem.ini";
    "%252e%252e%252f%252e%252e%252fetc%252fpasswd";
    "..%252f..%252f..%252fetc%252fpasswd";
    "../../../etc/passwd%00"; "../../../etc/passwd%00.jpg";
    "../../../etc/passwd" ++ Str.str1 0 ++ ".jpg";
    "..%c0%af..%c0%af..%c0%afetc/passwd";
    "..%c1%9c..%c1%9c..%c1%9cwindows/system.ini";
    "....//....//....//etc/passwd"; "..../\/..../\/..../\/etc/passwd";
    "..;/..;/..;/etc/passwd" ].

Definition getType : string := "Path Traversal".
Definition getSeverity : string := "High".

End Path.

(** ** [nosqlInjection.js] *)

Module NoSql.

Record state : Type := {
  vulnerabilityPatterns : list Regex.RegExp;
  successPatterns : list Regex.RegExp
}.

Definition init : state :=
  {| vulnerabilityPatterns := List.map (Regex.regexp false true)
       [ "mongodb"; "mongoose"; "bson"; "objectid"; "cannot read property";
         "unexpected token"; "syntaxerror.*json"; "cast.*error";
         "invalid.*operator"; "\$where"; "\$regex"; "query.*failed" ];
     successPatterns :=
       List.map (Regex.regexp false true)
         [ Str.tpl "`_id`\s*:"; Str.tpl "`password`\s*:"; Str.tpl "`email`\s*:" ]
       ++ List.map (Regex.regexp false false)
         [ Str.tpl "\[`.*`\]"; Str.tpl "\{`.*`:.*\}" ] |}.

Definition wafIndicators : list string :=
  [ "you have been blocked"; "access denied"; "forbidden"; "firewall";
    "cloudflare"; "waf"; "attack detected"; "malicious" ].

Definition isWAFBlocked (response : Response) (responseBody : string) : bool :=
  let bodyLower := Str.toLowerCase responseBody in
  if blocking_status (status response) && some_included bodyLower wafIndicators
  then true
  else if Str.includes bodyLower "cloudflare ray id" then true
  else false.

Definition analyzeResponse (m : state) (response : Response) (payload : string)
           (originalStatus : option Z) : AnalysisResult * state :=
  let result := result0 in
  let body := responseBody response in
  let st := status response in
  if isWAFBlocked response body then
    let result := push_indicator "✅ WAF/Firewall blocked the request" result in
    let result := set_notes "PROTECTED: Request was blocked by security controls" result in
    (result, m)
  else if ((400 <=? st) && (st <? 500))%Z then
    let result := push_indicator ("Request rejected with status " ++ Str.ofZ st) result in
    let result := set_notes "SAFE: Server rejected the malformed request" result in
    (result, m)
  else
    let '(hit, vulns') := Regex.first_match (vulnerabilityPatterns m) body in
    let result :=
      match hit with
      | Some _ =>
          finding true high "⚠️ NoSQL/MongoDB error message detected"
            "VULNERABLE: Database error exposed in response" result
      | None => result
      end in
    let '(result, success') :=
      if (st =? 200)%Z then
        let '(hit, success') := Regex.first_match (successPatterns m) body in
        (match hit with
         | Some _ =>
             if (500 <? Str.units body)%nat && Str.includes payload "$ne" then
               finding true medium "⚠️ Potential data leakage with NoSQL operators"
                 "SUSPICIOUS: Large response with injection payload" result
             else result
         | None => result
         end, success')
      else (result, successPatterns m) in
    let result :=
      if Str.includes payload "$ne" || Str.includes payload "$gt" then
        if (st =? 200)%Z
           && fst (Regex.test
                     (Regex.regexp false true "token|session|jwt|success|authenticated")
                     body)
        then finding true high "⚠️ Potential authentication bypass"
               "VULNERABLE: NoSQL injection may have bypassed authentication" result
        else result
      else result in
    let result :=
      if negb (vulnerable result) then
        let result := push_indicator "No NoSQL injection indicators found" result in
        set_notes "SAFE: No NoSQL injection vulnerabilities detected" result
      else result in
    (result, {| vulnerabilityPatterns := vulns'; successPatterns := success' |}).

Definition getPayloads : list string :=
  List.map Str.tpl
    [ "{`$gt`: ``}"; "{`$ne`: null}"; "{`$ne`: ``}"; "{`$exists`: true}";
      "{`$regex`: `.*`}"; "{`$where`: `1==1`}"; "{`$or`: [{`a`: 1}, {`b`: 2}]}";
      "{`username`: {`$ne`: null}, `password`: {`$ne`: null}}";
      "{`username`: {`$gt`: ``}, `password`: {`$gt`: ``}}";
      "{`$where`: `this.password.length > 0`}";
      "{`$where`: `function() { return true; }`}";
      "{`name`: {`$ne`: null}}"; "{`debug`: {`$gt`: ``}}"; "{`admin`: true}";
      "{`role`: `admin`}"; "{`isAdmin`: true, `__proto__`: {`admin`: true}}";
      "{`__proto__`: {`admin`: true}}";
      "{`constructor`: {`prototype`: {`admin`: true}}}";
      "{`__proto__`: {`isAdmin`: true}}";
      "{`$in`: [1, 2, 3]}"; "{`ids`: {`$in`: [1, 2, 3, 4, 5]}}";
      "true, $where: `1 == 1`"; "1, $or: [{}, {`a`: `a`}]";
      "'; return true; var dummy='";
      "1; return true"; "1'; return true; var x='";
      "function() { return true; }" ].

Definition getType : string := "NoSQL Injection".
Definition getSeverity : string := "Critical".

End NoSql.

(** ** [headerInjection.js] *)

Module Header.

Definition wafIndicators : list string :=
  [ "you have been blocked"; "access denied"; "forbidden"; "firewall";
    "cloudflare"; "waf"; "attack detected"; "malicious" ].

Definition isWAFBlocked (response : Response) (responseBody : string) : bool :=
  let bodyLower := Str.toLowerCase responseBody in
  if blocking_status (status response) && some_included bodyLower wafIndicators
  then true
  else if Str.includes bodyLower "cloudflare ray id" then true
  else false.

Definition crlf : string := Str.str1 13 ++ Str.str1 10.

Definition analyzeResponse (response : Response) (payload : string)
           (originalStatus : option Z) : AnalysisResult :=
  let result := result0 in
  let body := responseBody response in
  let responseHeaders := headers response in
  if isWAFBlocked response body then
    let result := push_indicator "✅ WAF/Firewall blocked the request" result in
    set_notes "PROTECTED: Header manipulation was blocked" result
  else
    let result :=
      if Str.includes payload "%0d%0a" || Str.includes payload crlf then
        let setCookie := header responseHeaders "set-cookie" in
        match setCookie with
        | Some v =>
            if header_truthy setCookie
               && (hval_includes v "malicious" || hval_includes v "evil")
            then finding true high "⚠️ CRLF Injection - Response splitting successful"
                   "VULNERABLE: Attacker can inject arbitrary headers" result
            else result
        | None => result
        end
      else result in
    let result :=
      if Str.includes payload "<script>" || Str.includes payload "onerror=" then
        if Str.includes body payload then
          finding true high "⚠️ Header value reflected in response (XSS)"
            "VULNERABLE: Header value reflected without sanitization" result
        else result
      else result in
    let result :=
      if String.eqb payload "evil.com" || Str.includes payload "127.0.0.1" then
        if Str.includes body payload then
          finding true high "⚠️ Host header value reflected in response"
            "VULNERABLE: Host header is used unsafely in response" result
        else result
      else result in
    if negb (vulnerable result) then
      let result :=
        push_indicator "Header injection payload rejected or not reflected" result in
      set_notes "SAFE: No header injection vulnerabilities detected" result
    else result.

Definition getPayloads : list string :=
  [ "<script>alert(1)</script>"; Str.tpl "`><img src=x onerror=alert(1)>";
    "' OR '1'='1"; "'; DROP TABLE users; --"; "7.0.1; DROP TABLE users";
    "test" ++ crlf ++ "Set-Cookie: malicious=value";
    "test%0d%0aSet-Cookie: evil=true"; "%0d%0aLocation: http://evil.com";
    "evil.com"; "127.0.0.1"; "localhost" ].

Definition getType : string := "Header Injection".
Definition getSeverity : string := "High".

End Header.

(** ** [rateLimiting.js] *)

Module Rate.

Definition wafIndicators : list string :=
  [ "you have been blocked"; "access denied"; "forbidden"; "firewall";
    "cloudflare"; "waf"; "rate limit"; "too many requests"; "throttle";
    "slow down"; "try again later" ].

Definition isWAFBlocked (response : Response) (responseBody : string) : bool :=
  let st := status response in
  let bodyLower := Str.toLowerCase responseBody in
  if ((st =? 403) || (st =? 429) || (st =? 503))%Z then true
  else if some_included bodyLower wafIndicators then true
  else false.

Definition rateLimitHeaders : list string :=
  [ "x-ratelimit-limit"; "x-ratelimit-remaining"; "x-ratelimit-reset";
    "retry-after"; "x-rate-limit-limit"; "ratelimit-limit" ].

Definition analyzeResponse (response : Response) (payload : string)
           (originalStatus responseTime : option Z) : AnalysisResult :=
  let result := result0 in
  let body := responseBody response in
  let st := status response in
  if (st =? 429)%Z then
    let result := set_vulnerable false result in
    let result := set_confidence high result in
    let result :=
      push_indicator "✅ Rate limiting is active (429 Too Many Requests)" result in
    set_notes "PROTECTED: Server properly implements rate limiting" result
  else if isWAFBlocked response body then
    let result := set_vulnerable false result in
    let result := set_confidence high result in
    let result := push_indicator "✅ Bot/DDoS protection is active" result in
    set_notes "PROTECTED: Server has anti-bot/rate limiting measures" result
  else
    let foundRateLimitHeaders :=
      List.filter
        (fun h => header_truthy (header (headers response) (Str.toLowerCase h)))
        rateLimitHeaders in
    if (0 <? List.length foundRateLimitHeaders)%nat then
      let result :=
        push_indicator
          ("ℹ️ Rate limit headers present: " ++ Str.join ", " foundRateLimitHeaders)
          result in
      let remaining :=
        let a := header (headers response) "x-ratelimit-remaining" in
        if header_truthy a then a else header (headers response) "x-rate-limit-remaining" in
      let result :=
        match remaining with
        | Some v => push_indicator ("Remaining requests: " ++ hval_text v) result
        | None => result
        end in
      set_notes "INFO: Rate limiting headers detected - server may have protection" result
    else if (st =? 200)%Z then
      let result := push_indicator "⚠️ No rate limit headers in response" result in
      set_notes "WARNING: Consider implementing rate limiting for this endpoint" result
    else result.

Definition getPayloads : list string :=
  [ "rate_limit_test_1"; "rate_limit_test_2"; "rate_limit_test_3" ].

Definition getType : string := "Rate Limiting".
Definition getSeverity : string := "Medium".

End Rate.

(** ** [malformedPayload.js] *)

Module Malformed.

Record state : Type := { verboseErrorPatterns : list Regex.RegExp }.

Definition init : state :=
  {| verboseErrorPatterns := List.map (Regex.regexp false true)
       [ "stack\s*trace"; "at\s+\w+\s+\("; "exception"; "error.*line\s*\d+";
         "syntax.*error"; "undefined.*property"; "cannot\s+read"; "type.*error";
         "internal\s+server\s+error"; "\.js:\d+:\d+"; "node_modules" ] |}.

Definition analyzeResponse (m : state) (response : Response) (payload : string)
           (originalStatus : option Z) : AnalysisResult * state :=
  let result := result0 in
  let body := responseBody response in
  let st := status response in
  if (st =? 400)%Z then
    let result := set_vulnerable false result in
    let result :=
      push_indicator "✅ Server returns 400 Bad Request for malformed data" result in
    let result := set_notes "GOOD: Server properly validates input" result in
    let '(hit, verbose') := Regex.first_match (verboseErrorPatterns m) body in
    let result :=
      match hit with
      | Some _ =>
          let result :=
            push_indicator "⚠️ Error response contains verbose debug information"
              result in
          set_notes "WARNING: Error messages may leak implementation details" result
      | None => result
      end in
    (result, {| verboseErrorPatterns := verbose' |})
  else if (st =? 500)%Z then
    let result := set_vulnerable true result in
    let result := set_confidence medium result in
    let result := push_indicator "⚠️ Server crashed with 500 error" result in
    let result := set_notes "VULNERABLE: Malformed input causes server error" result in
    let '(hit, verbose') := Regex.first_match (verboseErrorPatterns m) body in
    let result :=
      match hit with
      | Some _ =>
          let result := set_confidence high result in
          let result := push_indicator "⚠️ Stack trace or debug info exposed" result in
          set_notes "VULNERABLE: Server exposes internal error details" result
      | None => result
      end in
    (result, {| verboseErrorPatterns := verbose' |})
  else
    let '(hit, verbose') := Regex.first_match (verboseErrorPatterns m) body in
    let result :=
      match hit with
      | Some _ =>
          finding true medium "⚠️ Verbose error information detected"
            "VULNERABLE: Server exposes implementation details" result
      | None => result
      end in
    let result :=
      if negb (vulnerable result) then
        let result :=
          push_indicator "Server handled malformed payload gracefully" result in
        set_notes ("SAFE: Server responded with " ++ Str.ofZ st) result
      else result in
    (result, {| verboseErrorPatterns := verbose' |}).

Definition getPayloads : list string :=
  List.map Str.tpl
    [ "{ `name`: 123,, `xyz`: }"; "{`unclosed`: `string"; "{name: `no quotes`}";
      "{`trailing`: `comma`,}";
      EmptyString; "{}"; "[]"; "null";
      "{`name`: 12345}"; "{`age`: `twenty`}"; "{`active`: `yes`}";
      "{`items`: `not-array`}";
      "{`count`: -1}"; "{`count`: 999999999999}"; "{`id`: -999999}";
      "{`name`: `\u0000\u0001`}"; "{`name`: `test\ninjection`}";
      "{`name`: `😀🎉🔥`}"; "{`name`: `中文测试`}";
      "{`a`:{`b`:{`c`:{`d`:{`e`:{`f`:`deep`}}}}}}" ].

Definition getType : string := "Malformed Payload".
Definition getSeverity : string := "Low".

End Malformed.

(** ** [httpMethodTest.js] *)

Module HttpMethod.

Definition dangerousMethods : list string := [ "TRACE"; "TRACK"; "DEBUG" ].
Definition webdavMethods : list string :=
  [ "PROPFIND"; "PROPPATCH"; "MKCOL"; "COPY"; "MOVE" ].

(** The analyzer calls [toUpperCase] on the [allow] header; an array has
    no such method, and the call throws. *)
Definition analyzeResponse (response : Response) (payload : string)
           (originalStatus : option Z) : exc AnalysisResult :=
  let result := result0 in
  let responseHeaders := headers response in
  let testedMethod := payload in
  let st := status response in
  let allow := header responseHeaders "allow" in
  if (st =? 405)%Z then
    let result := set_vulnerable false result in
    let result :=
      push_indicator ("✅ Server properly rejects " ++ testedMethod ++ " with 405")
        result in
    let result := set_notes "GOOD: Server enforces allowed HTTP methods" result in
    let result :=
      match allow with
      | Some v =>
          if header_truthy allow
          then push_indicator ("Allowed methods: " ++ hval_text v) result
          else result
      | None => result
      end in
    Ok result
  else if (String.eqb testedMethod "TRACE" || String.eqb testedMethod "TRACK")
          && (st =? 200)%Z
  then
    let result := set_vulnerable true result in
    let result := set_confidence high result in
    let result := push_indicator ("⚠️ " ++ testedMethod ++ " method is enabled") result in
    Ok (set_notes "VULNERABLE: TRACE enabled - Cross-Site Tracing (XST) possible" result)
  else
    let options_step : exc AnalysisResult :=
      if String.eqb testedMethod "OPTIONS" && ((st =? 200) || (st =? 204))%Z then
        let result := push_indicator "ℹ️ OPTIONS method is allowed" result in
        let after_allow : exc AnalysisResult :=
          match allow with
          | Some v =>
              if header_truthy allow then
                let result := push_indicator ("Allowed: " ++ hval_text v) result in
                match v with
                | HStr s =>
                    let allowedDangerous :=
                      List.filter (fun m => Str.includes (Str.toUpperCase s) m)
                        dangerousMethods in
                    if (0 <? List.length allowedDangerous)%nat then
                      let result := set_vulnerable true result in
                      let result := set_confidence medium result in
                      let result :=
                        push_indicator
                          ("⚠️ Dangerous methods allowed: "
                             ++ Str.join ", " allowedDangerous) result in
                      Ok (set_notes "WARNING: Review allowed HTTP methods" result)
                    else Ok result
                | HArr _ =>
                    Throw "responseHeaders.allow.toUpperCase is not a function"
                end
              else Ok result
          | None => Ok result
          end in
        match after_allow with
        | Ok result =>
            Ok (if String.eqb (notes result) EmptyString
                then set_notes "INFO: OPTIONS reveals allowed methods" result
                else result)
        | Throw e => Throw e
        end
      else Ok result in
    match options_step with
    | Throw e => Throw e
    | Ok result =>
        let result :=
          if existsb (String.eqb testedMethod) webdavMethods
             && ((st =? 200) || (st =? 207))%Z
          then finding true high ("⚠️ WebDAV method " ++ testedMethod ++ " is enabled")
                 "VULNERABLE: WebDAV methods should be disabled" result
          else result in
        let result :=
          if String.eqb testedMethod "DEBUG" && (st =? 200)%Z then
            finding true high "⚠️ DEBUG method is enabled"
              "VULNERABLE: Debug endpoint exposed" result
          else result in
        Ok (if (List.length (indicators result) =? 0)%nat then
              let result :=
                push_indicator (testedMethod ++ " method returned " ++ Str.ofZ st)
                  result in
              set_notes "SAFE: Server handled HTTP method appropriately" result
            else result)
    end.

Definition getPayloads : list string :=
  [ "TRACE"; "OPTIONS"; "PUT"; "DELETE"; "PATCH"; "CONNECT"; "PROPFIND"; "DEBUG" ].

Definition getType : string := "HTTP Method".
Definition getSeverity : string := "Medium".

End HttpMethod.

(** ** [payloadSize.js] *)

Module PayloadSize.

Definition analyzeResponse (response : Response) (payload : string)
           (originalStatus responseTime : option Z) : AnalysisResult :=
  let result := result0 in
  let st := status response in
  (* [responseTime && responseTime > limit] *)
  let slower_than (limit : Z) :=
    match responseTime with
    | Some t => negb (t =? 0)%Z && (limit <? t)%Z
    | None => false
    end in
  let time_text :=
    match responseTime with Some t => Str.ofZ t | None => "null" end in
  if (st =? 413)%Z then
    let result := set_vulnerable false result in
    let result := push_indicator "✅ Server returns 413 Payload Too Large" result in
    set_notes "GOOD: Server enforces payload size limits" result
  else if (st =? 400)%Z then
    let result := set_vulnerable false result in
    let result := push_indicator "✅ Server rejects oversized payload with 400" result in
    set_notes "GOOD: Server validates input size" result
  else if ((st =? 408) || (st =? 504))%Z then
    finding true medium "⚠️ Request timed out with large payload"
      "VULNERABLE: Large payloads may cause DoS" result
  else if ((st =? 500) || (st =? 502) || (st =? 503))%Z then
    finding true high "⚠️ Server error with large payload"
      "VULNERABLE: Large payload causes server error - DoS vector" result
  else
    let result :=
      if slower_than 10000%Z then
        finding true medium ("⚠️ Very slow response: " ++ time_text ++ "ms")
          "VULNERABLE: Large payloads cause significant slowdown" result
      else if slower_than 5000%Z then
        let result := push_indicator ("ℹ️ Slow response: " ++ time_text ++ "ms") result in
        set_notes "WARNING: Large payloads cause noticeable slowdown" result
      else result in
    if (st =? 200)%Z then
      let result := push_indicator ("Server accepted " ++ payload ++ " payload") result in
      set_notes "SAFE: Server handled large payload" result
    else result.

Definition getPayloads : list string :=
  [ "500_chars"; "1000_chars"; "5000_chars"; "10000_chars"; "50000_chars" ].

Definition getType : string := "Payload Size".
Definition getSeverity : string := "Medium".

End PayloadSize.

(** ** Computations with a state that may throw

    A [throw] keeps the state it has reached: what a [try] block did before
    it failed stays done when the [catch] block runs. *)

Definition M (S A : Type) : Type := S -> exc A * S.

Definition ret {S A : Type} (a : A) : M S A := fun s => (Ok a, s).
Definition bind {S A B : Type} (m : M S A) (k : A -> M S B) : M S B :=
  fun s =>
    match m s with
    | (Ok a, s') => k a s'
    | (Throw e, s') => (Throw e, s')
    end.
Definition throw {S A : Type} (e : string) : M S A := fun s => (Throw e, s).

(** [try { m } catch (error) { handler(error.message) }] *)
Definition try_catch {S A : Type} (m : M S A) (handler : string -> M S A) : M S A :=
  fun s =>
    match m s with
    | (Ok a, s') => (Ok a, s')
    | (Throw e, s') => handler e s'
    end.

Notation "'let*' x := c 'in' k" := (bind c (fun x => k))
  (at level 10, x name, c at level 100, k at level 200).

(** [for (const a of l) { ... }] and [l.forEach(a => ...)], with the
    variables that the body assigns to as [acc]. *)
Fixpoint forEach {S A B : Type} (l : list A) (f : B -> A -> M S B) (acc : B) : M S B :=
  match l with
  | [] => ret acc
  | a :: rest => let* acc' := f acc a in forEach rest f acc'
  end.

(** ** Objects in a heap

    The engine copies an endpoint with [JSON.parse(JSON.stringify(endpoint))]
    and then assigns to fields of the copy.  To say which objects such an
    assignment reaches, objects live in a heap; a location is an index of
    the heap, and a new object goes to its end. *)

Module Heap.

Definition loc : Type := nat.

Inductive value : Type :=
| VUndefined
| VNull
| VBool (b : bool)
| VNum (n : Z)
| VStr (s : string)
| VRef (l : loc).

(** An object keeps its properties in the order [Object.keys] lists them;
    an array keeps its elements and, apart, the properties that are no
    index. *)
Inductive object : Type :=
| Obj (props : list (string * value))
| Arr (elems : list value) (extra : list (string * value)).

Abbreviation heap := (list object).

Fixpoint assoc {A : Type} (k : string) (l : list (string * A)) : option A :=
  match l with
  | [] => None
  | (k', a) :: rest => if String.eqb k' k then Some a else assoc k rest
  end.

(** [o[k] = a] on the properties of [o]: in place when [k] is there, at
    the end when it is new. *)
Fixpoint set_assoc {A : Type} (k : string) (a : A) (l : list (string * A))
  : list (string * A) :=
  match l with
  | [] => [(k, a)]
  | (k', a') :: rest =>
      if String.eqb k' k then (k, a) :: rest else (k', a') :: set_assoc k a rest
  end.

Definition index_key (i : nat) : string := Str.ofZ (Z.of_nat i).
Definition index_keys (n : nat) : list string := List.map index_key (seq 0 n).

(** The position of [k] among the index keys of an array of [n] elements. *)
Fixpoint find_key (k : string) (keys : list string) (i : nat) : option nat :=
  match keys with
  | [] => None
  | k' :: rest => if String.eqb k' k then Some i else find_key k rest (S i)
  end.
Definition index_of (k : string) (n : nat) : option nat :=
  find_key k (index_keys n) 0.

(** Truthiness of a value. *)
Definition to_boolean (v : value) : bool :=
  match v with
  | VUndefined | VNull => false
  | VBool b => b
  | VNum n => negb (n =? 0)%Z
  | VStr s => negb (String.eqb s EmptyString)
  | VRef _ => true
  end.

(** [typeof v === 'object'] *)
Definition is_object_type (v : value) : bool :=
  match v with
  | VNull | VRef _ => true
  | _ => false
  end.

(** [{...}] and [[...]]: a new object. *)
Definition new_object (o : object) : M heap value :=
  fun h => (Ok (VRef (List.length h)), (h ++ [o])%list).

(** [v[k]], or [v.k].  A primitive has none of the properties the engine
    asks for. *)
Definition get_prop (v : value) (k : string) : M heap value :=
  fun h =>
    match v with
    | VUndefined =>
        (Throw ("Cannot read properties of undefined (reading '" ++ k ++ "')"), h)
    | VNull =>
        (Throw ("Cannot read properties of null (reading '" ++ k ++ "')"), h)
    | VRef l =>
        match h !! l with
        | Some (Obj ps) =>
            (Ok (match assoc k ps with Some x => x | None => VUndefined end), h)
        | Some (Arr vs extra) =>
            (Ok (match index_of k (List.length vs) with
                 | Some i => nth i vs VUndefined
                 | None =>
                     if String.eqb k "length" then VNum (Z.of_nat (List.length vs))
                     else match assoc k extra with Some x => x | None => VUndefined end
                 end), h)
        | None => (Ok VUndefined, h)
        end
    | _ => (Ok VUndefined, h)
    end.

(** [v[k] = x].  The engine's code is not in strict mode: an assignment to
    a property of a primitive does nothing.  On an array, a key that is no
    index of it becomes a named property (the engine writes no index past
    the end). *)
Definition set_prop (v : value) (k : string) (x : value) : M heap unit :=
  fun h =>
    match v with
    | VUndefined =>
        (Throw ("Cannot set properties of undefined (setting '" ++ k ++ "')"), h)
    | VNull =>
        (Throw ("Cannot set properties of null (setting '" ++ k ++ "')"), h)
    | VRef l =>
        match h !! l with
        | Some (Obj ps) => (Ok tt, <[l := Obj (set_assoc k x ps)]> h)
        | Some (Arr vs extra) =>
            match index_of k (List.length vs) with
            | Some i => (Ok tt, <[l := Arr (<[i := x]> vs) extra]> h)
            | None => (Ok tt, <[l := Arr vs (set_assoc k x extra)]> h)
            end
        | None => (Ok tt, h)
        end
    | _ => (Ok tt, h)
    end.

(** [Object.keys(v)] *)
Definition keys (v : value) : M heap (list string) :=
  fun h =>
    match v with
    | VUndefined | VNull =>
        (Throw "Cannot convert undefined or null to object", h)
    | VRef l =>
        match h !! l with
        | Some (Obj ps) => (Ok (List.map fst ps), h)
        | Some (Arr vs extra) =>
            (Ok (index_keys (List.length vs) ++ List.map fst extra)%list, h)
        | None => (Ok [], h)
        end
    | VStr s => (Ok (index_keys (List.length (Str.code_units s))), h)
    | _ => (Ok [], h)
    end.

(** *** [JSON.parse(JSON.stringify(v))] *)

(** [f] on every element, or on the value of every property, when it
    succeeds on all of them. *)
Section Traverse.

Context {A B : Type} (f : A -> option B).

Fixpoint traverse (l : list A) : option (list B) :=
  match l with
  | [] => Some []
  | x :: rest =>
      match f x, traverse rest with
      | Some t, Some ts => Some (t :: ts)
      | _, _ => None
      end
  end.

Fixpoint traverse_props (l : list (string * A)) : option (list (string * B)) :=
  match l with
  | [] => Some []
  | (k, x) :: rest =>
      match f x, traverse_props rest with
      | Some t, Some ts => Some ((k, t) :: ts)
      | _, _ => None
      end
  end.

End Traverse.

(** The tree under [v].  [JSON.stringify] walks the objects and throws
    when it meets one it is inside of; a walk that takes more steps down
    than the heap has objects has met one twice. *)
Fixpoint reify (fuel : nat) (h : heap) (v : value) : option jsval :=
  match v with
  | VUndefined => Some JUndefined
  | VNull => Some JNull
  | VBool b => Some (JBool b)
  | VNum n => Some (JNum n)
  | VStr s => Some (JStr s)
  | VRef l =>
      match fuel with
      | O => None
      | S fuel' =>
          match h !! l with
          | Some (Obj ps) => option_map JObj (traverse_props (reify fuel' h) ps)
          | Some (Arr vs _) => option_map JArr (traverse (reify fuel' h) vs)
          | None => None
          end
      end
  end.

Definition is_undefined (t : jsval) : bool :=
  match t with
  | JUndefined => true
  | _ => false
  end.

(** What the text of a tree parses to: a property that is [undefined] is
    left out, an element that is [undefined] comes back as [null]. *)
Fixpoint normalize (t : jsval) : jsval :=
  match t with
  | JArr elems =>
      JArr (List.map (fun x => if is_undefined x then JNull else normalize x) elems)
  | JObj props =>
      let fix go (ps : list (string * jsval)) : list (string * jsval) :=
        match ps with
        | [] => []
        | (k, x) :: rest =>
            if is_undefined x then go rest else (k, normalize x) :: go rest
        end in
      JObj (go props)
  | _ => t
  end.

(** New objects for the elements of a list, or for the values of the
    properties of a list, from left to right. *)
Section AllocAll.

Variable alloc_one : jsval -> heap -> value * heap.

Fixpoint alloc_list (ts : list jsval) (h : heap) : list value * heap :=
  match ts with
  | [] => ([], h)
  | x :: rest =>
      let '(v, h1) := alloc_one x h in
      let '(vs, h2) := alloc_list rest h1 in
      (v :: vs, h2)
  end.

Fixpoint alloc_props (ts : list (string * jsval)) (h : heap)
  : list (string * value) * heap :=
  match ts with
  | [] => ([], h)
  | (k, x) :: rest =>
      let '(v, h1) := alloc_one x h in
      let '(ps, h2) := alloc_props rest h1 in
      ((k, v) :: ps, h2)
  end.

End AllocAll.

(** [JSON.parse] of the text of [t]: new objects, the inner ones first. *)
Fixpoint alloc (t : jsval) (h : heap) : value * heap :=
  match t with
  | JUndefined => (VUndefined, h)
  | JNull => (VNull, h)
  | JBool b => (VBool b, h)
  | JNum n => (VNum n, h)
  | JStr s => (VStr s, h)
  | JArr elems =>
      let '(vs, h') := alloc_list alloc elems h in
      (VRef (List.length h'), (h' ++ [Arr vs []])%list)
  | JObj props =>
      let '(ps, h') := alloc_props alloc props h in
      (VRef (List.length h'), (h' ++ [Obj ps])%list)
  end.

Definition deepCopy (v : value) : M heap value :=
  fun h =>
    match reify (S (List.length h)) h v with
    | None => (Throw "Converting circular structure to JSON", h)
    | Some JUndefined => (Throw (Str.tpl "`undefined` is not valid JSON"), h)
    | Some t => let '(v', h') := alloc (normalize t) h in (Ok v', h')
    end.

(** *** The objects of a tree

    [fp h v t] is the list of the locations of the objects of the tree [t]
    as the heap [h] holds it at the value [v], the location of every object
    once for each way down to it; it is [None] when [h] does not hold [t]
    at [v].  A tree that shares no object between two of its parts has a
    list without repetition. *)
Section Footprint.

Variable fp_one : value -> jsval -> option (list loc).

Fixpoint fp_list (vs : list value) (ts : list jsval) {struct ts}
  : option (list loc) :=
  match ts, vs with
  | [], [] => Some []
  | t :: ts', x :: vs' =>
      match fp_one x t, fp_list vs' ts' with
      | Some F1, Some F2 => Some (F1 ++ F2)%list
      | _, _ => None
      end
  | _, _ => None
  end.

Fixpoint fp_props (ps : list (string * value)) (ts : list (string * jsval))
         {struct ts} : option (list loc) :=
  match ts, ps with
  | [], [] => Some []
  | (k', t) :: ts', (k, x) :: ps' =>
      if String.eqb k k' then
        match fp_one x t, fp_props ps' ts' with
        | Some F1, Some F2 => Some (F1 ++ F2)%list
        | _, _ => None
        end
      else None
  | _, _ => None
  end.

End Footprint.

Fixpoint fp (h : heap) (v : value) (t : jsval) {struct t} : option (list loc) :=
  match t, v with
  | JUndefined, VUndefined => Some []
  | JNull, VNull => Some []
  | JBool b, VBool b' => if Bool.eqb b b' then Some [] else None
  | JNum n, VNum n' => if (n =? n')%Z then Some [] else None
  | JStr s, VStr s' => if String.eqb s s' then Some [] else None
  | JArr elems, VRef l =>
      match h !! l with
      | Some (Arr vs _) =>
          match fp_list (fp h) vs elems with
          | Some F => Some (l :: F)
          | None => None
          end
      | _ => None
      end
  | JObj props, VRef l =>
      match h !! l with
      | Some (Obj ps) =>
          match fp_props (fp h) ps props with
          | Some F => Some (l :: F)
          | None => None
          end
      | _ => None
      end
  | _, _ => None
  end.

(** The heap [h] holds the tree [t] at [v], in objects of its own: no
    object twice, and every object at [base] or after. *)
Definition owns (h : heap) (base : nat) (v : value) (t : jsval) (F : list loc) : Prop :=
  fp h v t = Some F /\ List.NoDup F /\ (forall l, List.In l F -> (base <= l)%nat).

(** The depth of a tree in objects. *)
Fixpoint depth (t : jsval) : nat :=
  match t with
  | JArr elems => S (List.fold_right (fun x d => Nat.max (depth x) d) 0%nat elems)
  | JObj props => S (List.fold_right (fun kv d => Nat.max (depth (snd kv)) d) 0%nat props)
  | _ => 0
  end.

End Heap.

(** ** The engine: [injectPayload] *)

Import Heap.

(** [['POST', 'PUT', 'PATCH'].includes(method)] *)
Definition carries_body (method : value) : bool :=
  match method with
  | VStr s => existsb (String.eqb s) [ "POST"; "PUT"; "PATCH" ]
  | _ => false
  end.

(** [v || {}] *)
Definition or_new_object (v : value) : M heap value :=
  if to_boolean v then ret v else new_object (Obj []).

(** [modified.url.endsWith('/') ? modified.url : modified.url + '/'] *)
Definition urlBase (url : value) : M heap string :=
  match url with
  | VStr u => ret (if Str.endsWith u "/" then u else u ++ "/")
  | VUndefined =>
      throw "Cannot read properties of undefined (reading 'endsWith')"
  | VNull => throw "Cannot read properties of null (reading 'endsWith')"
  | _ => throw "modified.url.endsWith is not a function"
  end.

Definition injectPayload (endpoint : value) (payload location : string)
  : M heap (list value) :=
  let injectedEndpoints : list value := [] in
  let* injectedEndpoints :=
    if String.eqb location "query" || String.eqb location "all" then
      let* queryParams := get_prop endpoint "queryParams" in
      let* names := if to_boolean queryParams then keys queryParams else ret [] in
      let* injectedEndpoints :=
        forEach names
          (fun injectedEndpoints key =>
             let* modified := deepCopy endpoint in
             let* target := get_prop modified "queryParams" in
             let* _ := set_prop target key (VStr payload) in
             let* _ := set_prop modified "injectionPoint"
                         (VStr ("Query param: " ++ key)) in
             ret (injectedEndpoints ++ [modified])%list)
          injectedEndpoints in
      let* modified := deepCopy endpoint in
      let* current := get_prop modified "queryParams" in
      let* params := or_new_object current in
      let* _ := set_prop modified "queryParams" params in
      let* target := get_prop modified "queryParams" in
      let* _ := set_prop target "q" (VStr payload) in
      let* _ := set_prop modified "injectionPoint" (VStr "Query param: q (injected)") in
      ret (injectedEndpoints ++ [modified])%list
    else ret injectedEndpoints in
  let* injectedEndpoints :=
    if String.eqb location "body" || String.eqb location "all" then
      let* body := get_prop endpoint "body" in
      let* injectedEndpoints :=
        if to_boolean body && is_object_type body then
          let* names := keys body in
          forEach names
            (fun injectedEndpoints key =>
               let* modified := deepCopy endpoint in
               let* target := get_prop modified "body" in
               let* _ := set_prop target key (VStr payload) in
               let* _ := set_prop modified "injectionPoint"
                           (VStr ("Body param: " ++ key)) in
               ret (injectedEndpoints ++ [modified])%list)
            injectedEndpoints
        else ret injectedEndpoints in
      let* method := get_prop endpoint "method" in
      if carries_body method then
        let* modified := deepCopy endpoint in
        let* current := get_prop modified "body" in
        let* content := or_new_object current in
        let* _ := set_prop modified "body" content in
        let* target := get_prop modified "body" in
        let* _ :=
          if is_object_type target then set_prop target "input" (VStr payload)
          else
            let* fresh := new_object (Obj [("input", VStr payload)]) in
            set_prop modified "body" fresh in
        let* _ := set_prop modified "injectionPoint"
                    (VStr "Body param: input (injected)") in
        ret (injectedEndpoints ++ [modified])%list
      else ret injectedEndpoints
    else ret injectedEndpoints in
  let* injectedEndpoints :=
    if String.eqb location "header" || String.eqb location "all" then
      let* modified := deepCopy endpoint in
      let* current := get_prop modified "headers" in
      let* hs := or_new_object current in
      let* _ := set_prop modified "headers" hs in
      let* target := get_prop modified "headers" in
      let* _ := set_prop target "X-Test-Input" (VStr payload) in
      let* _ := set_prop modified "injectionPoint"
                  (VStr "Header: X-Test-Input (injected)") in
      ret (injectedEndpoints ++ [modified])%list
    else ret injectedEndpoints in
  let* injectedEndpoints :=
    if String.eqb location "path" || String.eqb location "all" then
      let* modified := deepCopy endpoint in
      let* url := get_prop modified "url" in
      let* base := urlBase url in
      let* _ := set_prop modified "url" (VStr (base ++ URI.encodeURIComponent payload)) in
      let* _ := set_prop modified "injectionPoint" (VStr "URL path (appended)") in
      ret (injectedEndpoints ++ [modified])%list
    else ret injectedEndpoints in
  if (List.length injectedEndpoints =? 0)%nat then
    let* modified := deepCopy endpoint in
    let* current := get_prop modified "queryParams" in
    let* params := or_new_object current in
    let* _ := set_prop modified "queryParams" params in
    let* target := get_prop modified "queryParams" in
    let* _ := set_prop target "test" (VStr payload) in
    let* _ := set_prop modified "injectionPoint" (VStr "Query param: test (fallback)") in
    ret (injectedEndpoints ++ [modified])%list
  else ret injectedEndpoints.

(** ** The injection strategy, as the specification words it

    [Inject] follows the rules of the specification (section 4.2) on trees:
    one variant for each query key and one for a new key [q]; one for each
    key of a structured body and, for POST, PUT and PATCH, one for a new
    key [input]; one for the test header; one for the path; and the
    fallback on [test] when there is none. *)

(** [E.k], and [E] with its field [k] set. *)
Definition field (k : string) (E : jsval) : jsval :=
  match E with
  | JObj props => match assoc k props with Some t => t | None => JUndefined end
  | _ => JUndefined
  end.

Definition with_field (k : string) (t : jsval) (E : jsval) : jsval :=
  match E with
  | JObj props => JObj (set_assoc k t props)
  | _ => E
  end.

(** The keys and values of a mapping; none for what is no mapping. *)
Definition mapping (t : jsval) : list (string * jsval) :=
  match t with
  | JObj props => props
  | _ => []
  end.

(** [E] with the payload under [key] of its mapping [name]. *)
Definition in_mapping (name key payload : string) (E : jsval) : jsval :=
  with_field name (JObj (set_assoc key (JStr payload) (mapping (field name E)))) E.

(** A variant with its label. *)
Definition tagged (point : string) (V : jsval) : jsval :=
  with_field "injectionPoint" (JStr point) V.

Definition method_carries_body (m : jsval) : bool :=
  match m with
  | JStr s => existsb (String.eqb s) [ "POST"; "PUT"; "PATCH" ]
  | _ => false
  end.

(** The URL with the encoded payload appended to its path. *)
Definition url_with (payload : string) (u : jsval) : jsval :=
  match u with
  | JStr u =>
      JStr ((if Str.endsWith u "/" then u else u ++ "/")
              ++ URI.encodeURIComponent payload)
  | _ => u
  end.

Definition Inject (E : jsval) (payload location : string) : list jsval :=
  let on (l : string) := String.eqb location l || String.eqb location "all" in
  let query :=
    if on "query" then
      (List.map
         (fun key => tagged ("Query param: " ++ key)
                       (in_mapping "queryParams" key payload E))
         (List.map fst (mapping (field "queryParams" E)))
       ++ [ tagged "Query param: q (injected)" (in_mapping "queryParams" "q" payload E) ])%list
    else [] in
  let body :=
    if on "body" then
      (List.map
         (fun key => tagged ("Body param: " ++ key) (in_mapping "body" key payload E))
         (List.map fst (mapping (field "body" E)))
       ++ (if method_carries_body (field "method" E)
           then [ tagged "Body param: input (injected)"
                    (in_mapping "body" "input" payload E) ]
           else []))%list
    else [] in
  let header :=
    if on "header" then
      [ tagged "Header: X-Test-Input (injected)"
          (in_mapping "headers" "X-Test-Input" payload E) ]
    else [] in
  let path :=
    if on "path" then
      [ tagged "URL path (appended)"
          (with_field "url" (url_with payload (field "url" E)) E) ]
    else [] in
  match (query ++ body ++ header ++ path)%list with
  | [] => [ tagged "Query param: test (fallback)"
              (in_mapping "queryParams" "test" payload E) ]
  | variants => variants
  end.

(** An endpoint descriptor of the data model: an object of JSON data whose
    [url] is a string, whose [queryParams] and [headers] are mappings or
    missing, and whose [body] is missing, a mapping or a primitive (a raw
    string). *)
Definition mapping_or_absent (t : jsval) : bool :=
  match t with
  | JObj _ | JNull | JUndefined => true
  | _ => false
  end.

Definition not_array (t : jsval) : bool :=
  match t with
  | JArr _ => false
  | _ => true
  end.

Definition descriptor (E : jsval) : Prop :=
  (exists props, E = JObj props)
  /\ normalize E = E
  /\ (exists u, field "url" E = JStr u)
  /\ mapping_or_absent (field "queryParams" E) = true
  /\ mapping_or_absent (field "headers" E) = true
  /\ not_array (field "body" E) = true.

(** The locations of the heap [h] below [base] are left as they were in
    [h'], which is no shorter. *)
Definition extends (base : nat) (h h' : heap) : Prop :=
  (List.length h <= List.length h')%nat
  /\ (forall l, (l < base)%nat -> h' !! l = h !! l).

(** The variants [vs] are held by [h] as the trees [Ts], each in objects of
    its own, [Fs], all of them at [base] or after. *)
Definition held_apart (h : heap) (base : nat) (vs : list value) (Ts : list jsval)
           (Fs : list (list loc)) : Prop :=
  Forall3 (fun v T F => fp h v T = Some F) vs Ts Fs
  /\ List.NoDup (List.concat Fs)
  /\ (forall l, List.In l (List.concat Fs) -> (base <= l)%nat).

(** ** The engine: the scanner table *)

(** The state of the analyzer modules: their pattern tables. *)
Record Modules : Type := {
  sql : Sql.state;
  xss : Xss.state;
  cmd : Cmd.state;
  path : Path.state;
  nosql : NoSql.state;
  malformed : Malformed.state
}.

Definition modules0 : Modules :=
  {| sql := Sql.init; xss := Xss.init; cmd := Cmd.init; path := Path.init;
     nosql := NoSql.init; malformed := Malformed.init |}.

(** The four functions every analyzer module exports. *)
Record Scanner : Type := {
  getType : string;
  getSeverity : string;
  getPayloads : list string;
  analyzeResponse : Response -> string -> option Z -> option Z -> M Modules AnalysisResult
}.

Definition sqlScanner : Scanner :=
  {| getType := Sql.getType; getSeverity := Sql.getSeverity;
     getPayloads := Sql.getPayloads;
     analyzeResponse := fun response payload originalStatus _ m =>
       let '(r, s) := Sql.analyzeResponse (sql m) response payload originalStatus in
       (Ok r, {| sql := s; xss := xss m; cmd := cmd m; path := path m;
                 nosql := nosql m; malformed := malformed m |}) |}.

Definition xssScanner : Scanner :=
  {| getType := Xss.getType; getSeverity := Xss.getSeverity;
     getPayloads := Xss.getPayloads;
     analyzeResponse := fun response payload originalStatus _ =>
       ret (Xss.analyzeResponse response payload originalStatus) |}.

Definition commandInjectionScanner : Scanner :=
  {| getType := Cmd.getType; getSeverity := Cmd.getSeverity;
     getPayloads := Cmd.getPayloads;
     analyzeResponse := fun response payload originalStatus responseTime m =>
       let '(r, s) :=
         Cmd.analyzeResponse (cmd m) response payload originalStatus responseTime in
       (Ok r, {| sql := sql m; xss := xss m; cmd := s; path := path m;
                 nosql := nosql m; malformed := malformed m |}) |}.

Definition pathTraversalScanner : Scanner :=
  {| getType := Path.getType; getSeverity := Path.getSeverity;
     getPayloads := Path.getPayloads;
     analyzeResponse := fun response payload originalStatus _ m =>
       let '(r, s) := Path.analyzeResponse (path m) response payload originalStatus in
       (Ok r, {| sql := sql m; xss := xss m; cmd := cmd m; path := s;
                 nosql := nosql m; malformed := malformed m |}) |}.

Definition nosqlInjectionScanner : Scanner :=
  {| getType := NoSql.getType; getSeverity := NoSql.getSeverity;
     getPayloads := NoSql.getPayloads;
     analyzeResponse := fun response payload originalStatus _ m =>
       let '(r, s) := NoSql.analyzeResponse (nosql m) response payload originalStatus in
       (Ok r, {| sql := sql m; xss := xss m; cmd := cmd m; path := path m;
                 nosql := s; malformed := malformed m |}) |}.

Definition headerInjectionScanner : Scanner :=
  {| getType := Header.getType; getSeverity := Header.getSeverity;
     getPayloads := Header.getPayloads;
     analyzeResponse := fun response payload originalStatus _ =>
       ret (Header.analyzeResponse response payload originalStatus) |}.

Definition rateLimitingScanner : Scanner :=
  {| getType := Rate.getType; getSeverity := Rate.getSeverity;
     getPayloads := Rate.getPayloads;
     analyzeResponse := fun response payload originalStatus responseTime =>
       ret (Rate.analyzeResponse response payload originalStatus responseTime) |}.

Definition malformedPayloadScanner : Scanner :=
  {| getType := Malformed.getType; getSeverity := Malformed.getSeverity;
     getPayloads := Malformed.getPayloads;
     analyzeResponse := fun response payload originalStatus _ m =>
       let '(r, s) :=
         Malformed.analyzeResponse (malformed m) response payload originalStatus in
       (Ok r, {| sql := sql m; xss := xss m; cmd := cmd m; path := path m;
                 nosql := nosql m; malformed := s |}) |}.

Definition httpMethodScanner : Scanner :=
  {| getType := HttpMethod.getType; getSeverity := HttpMethod.getSeverity;
     getPayloads := HttpMethod.getPayloads;
     analyzeResponse := fun response payload originalStatus _ m =>
       (HttpMethod.analyzeResponse response payload originalStatus, m) |}.

Definition payloadSizeScanner : Scanner :=
  {| getType := PayloadSize.getType; getSeverity := PayloadSize.getSeverity;
     getPayloads := PayloadSize.getPayloads;
     analyzeResponse := fun response payload originalStatus responseTime =>
       ret (PayloadSize.analyzeResponse response payload originalStatus responseTime) |}.

Definition scanners : list Scanner :=
  [ sqlScanner; xssScanner; commandInjectionScanner; pathTraversalScanner;
    nosqlInjectionScanner; headerInjectionScanner; rateLimitingScanner;
    malformedPayloadScanner; httpMethodScanner; payloadSizeScanner ].

(** ** The engine: requests *)

Record AxiosConfig : Type := {
  cfg_method : value;
  cfg_url : string;
  cfg_headers : list (string * value);
  cfg_timeout : Z;
  cfg_validateStatus : Z -> bool;
  cfg_maxRedirects : Z;
  cfg_data : option value
}.

(** What the HTTP client rejects with. *)
Record AxiosError : Type := {
  err_code : option string;
  err_message : string;
  err_response : option Response
}.

Inductive AxiosOutcome : Type :=
| Resolved (response : Response)
| Rejected (error : AxiosError).

(** What the engine takes from its platform: the HTTP client, the clock,
    the text of a query string, identifiers and the timer.  The HTTP client
    and the query string read the objects of the request in the heap;
    [new URLSearchParams(v)] throws for a [v] that it cannot read as pairs
    of a name and a value. *)
Record Platform (World : Type) : Type := {
  axios : AxiosConfig -> heap -> World -> AxiosOutcome * World;
  Date_now : World -> Z * World;
  Date_toISOString : World -> string * World;
  uuid_v4 : World -> string * World;
  setTimeout : Z -> World -> World;
  URLSearchParams_toString : heap -> value -> exc string
}.
Arguments axios {World}.
Arguments Date_now {World}.
Arguments Date_toISOString {World}.
Arguments uuid_v4 {World}.
Arguments setTimeout {World}.
Arguments URLSearchParams_toString {World}.

(** What [sendRequest] resolves with. *)
Record SendResult : Type := {
  success : bool;
  response : Response;
  responseTime : Z;
  error : option string
}.

(** [contentLength] is the [content-length] header, or [None] for the
    number [0] that stands in when the header is missing or empty. *)
Record Baseline : Type := {
  baseline_status : Z;
  baseline_responseTime : Z;
  baseline_contentLength : option hval
}.

(** ** The engine: results *)

Record Options : Type := {
  scanTypes : option (list string);
  maxPayloads : option Z;
  injectLocation : option string
}.

Inductive Verdict : Type := PASS | FAIL | ERROR.

Record TestRecord : Type := {
  test_type : string;
  test_severity : string;
  test_payload : string;
  test_injectionPoint : value;
  test_requestUrl : option value;
  test_requestMethod : option value;
  test_responseCode : Z;
  test_responseTime : Z;
  test_responseSize : option nat;
  test_responsePreview : option string;
  test_testedAt : string;
  test_result : Verdict;
  test_confidence : option Confidence;
  test_indicators : list string;
  test_notes : string;
  test_baselineStatus : option Z;
  test_statusChanged : option bool
}.

Record Summary : Type := {
  total : nat;
  passed : nat;
  failed : nat;
  errors : nat
}.

Record EndpointResult : Type := {
  api : value;
  method : value;
  url : value;
  scan_error : option string;
  tests : list TestRecord;
  summary : Summary
}.

Record Vulnerability : Type := {
  vuln_endpoint : value;
  vuln_type : string;
  vuln_severity : string;
  vuln_payload : string;
  vuln_confidence : option Confidence
}.

Record ScanSummary : Type := {
  totalEndpoints : nat;
  totalTests : nat;
  totalPassed : nat;
  totalFailed : nat;
  totalErrors : nat;
  vulnerabilities : list Vulnerability
}.

Record ScanReport : Type := {
  scanId : string;
  timestamp : string;
  options : Options;
  endpoints : list EndpointResult;
  scan_summary : ScanSummary;
  duration : Z
}.

Record ProgressEvent : Type := {
  current : nat;
  progress_total : nat;
  progress_endpoint : value
}.

(** ** The engine: [sendRequest], [getBaseline], [scanEndpoint], [runScan] *)

(** The state of a scan: the objects, the analyzer modules, the world. *)
Record State (World : Type) : Type := {
  objects : heap;
  modules : Modules;
  world : World
}.
Arguments objects {World}.
Arguments modules {World}.
Arguments world {World}.

(** The own properties of [v], as [{...v}] copies them. *)
Definition entries (v : value) : M heap (list (string * value)) :=
  fun h =>
    match v with
    | VRef l =>
        match h !! l with
        | Some (Obj ps) => (Ok ps, h)
        | Some (Arr vs extra) =>
            (Ok (List.combine (index_keys (List.length vs)) vs ++ extra)%list, h)
        | None => (Ok [], h)
        end
    | VStr s =>
        (Ok (List.combine (index_keys (List.length (Str.code_units s)))
               (List.map VStr (Str.code_units s))), h)
    | _ => (Ok [], h)
    end.

(** [payloads.slice(0, n)] *)
Definition slice0 {A : Type} (n : Z) (l : list A) : list A :=
  if (0 <=? n)%Z then firstn (Z.to_nat n) l
  else firstn (List.length l - Z.to_nat (- n)) l.

(** [typeof response?.data === 'string' ? response.data.length
      : JSON.stringify(response?.data || '').length] *)
Definition responseSize (d : jsval) : nat :=
  match d with
  | JStr s => Str.units s
  | _ =>
      match JSON.stringify (if truthy d then d else JStr EmptyString) with
      | Some t => Str.units t
      | None => 0%nat
      end
  end.

(** The response that the [catch] block of [sendRequest] builds:
    [error.response?.status || 0], [error.response?.data || error.message],
    [error.response?.headers || {}]. *)
Definition failure_response (e : AxiosError) : Response :=
  {| status :=
       match err_response e with
       | Some r => status r
       | None => 0%Z
       end;
     data :=
       match err_response e with
       | Some r => if truthy (data r) then data r else JStr (err_message e)
       | None => JStr (err_message e)
       end;
     headers :=
       match err_response e with
       | Some r => headers r
       | None => []
       end |}.

(** The message that the [catch] block of [sendRequest] builds from
    [error.code] and [error.message]. *)
Definition failure_message (e : AxiosError) : string :=
  match err_code e with
  | Some code =>
      if String.eqb code "ECONNREFUSED" then "Connection refused - server may be down"
      else if String.eqb code "ETIMEDOUT" then "Request timed out"
      else err_message e
  | None => err_message e
  end.

Section Engine.

Context {World : Type} (P : Platform World).

Definition liftH {A : Type} (m : M heap A) : M (State World) A :=
  fun s =>
    let '(r, h) := m (objects s) in
    (r, {| objects := h; modules := modules s; world := world s |}).

Definition liftA {A : Type} (m : M Modules A) : M (State World) A :=
  fun s =>
    let '(r, ms) := m (modules s) in
    (r, {| objects := objects s; modules := ms; world := world s |}).

Definition liftW {A : Type} (f : World -> A * World) : M (State World) A :=
  fun s =>
    let '(a, w) := f (world s) in
    (Ok a, {| objects := objects s; modules := modules s; world := w |}).

(** The part of [sendRequest] that builds the request. *)
Definition requestConfig (endpoint : value) : M heap AxiosConfig :=
  let* url := get_prop endpoint "url" in
  let* url :=
    match url with
    | VStr u =>
        ret (if negb (Str.startsWith u "http://") && negb (Str.startsWith u "https://")
             then "https://" ++ u else u)
    | VUndefined =>
        throw "Cannot read properties of undefined (reading 'startsWith')"
    | VNull => throw "Cannot read properties of null (reading 'startsWith')"
    | _ => throw "url.startsWith is not a function"
    end in
  let* queryParams := get_prop endpoint "queryParams" in
  let* names := if to_boolean queryParams then keys queryParams else ret [] in
  let* url :=
    if (0 <? List.length names)%nat then
      fun h =>
        let separator := if Str.includes url "?" then "&" else "?" in
        match URLSearchParams_toString P h queryParams with
        | Ok params => (Ok (url ++ separator ++ params), h)
        | Throw message => (Throw message, h)
        end
    else ret url in
  let* method := get_prop endpoint "method" in
  let* headers := get_prop endpoint "headers" in
  let* own := entries headers in
  let hs :=
    List.fold_left (fun acc kv => set_assoc (fst kv) (snd kv) acc) own
      [ ("User-Agent", VStr "API-Security-Scanner/1.0"); ("Accept", VStr "*/*") ] in
  let* body := get_prop endpoint "body" in
  let with_data := to_boolean body && carries_body method in
  let hs :=
    if with_data
       && negb (to_boolean
                  (match assoc "Content-Type" hs with Some x => x | None => VUndefined end))
    then set_assoc "Content-Type"
           (VStr (if is_object_type body then "application/json"
                  else "application/x-www-form-urlencoded")) hs
    else hs in
  ret {| cfg_method := if to_boolean method then method else VStr "GET";
         cfg_url := url;
         cfg_headers := hs;
         cfg_timeout := 15000;
         cfg_validateStatus := fun _ => true;
         cfg_maxRedirects := 5;
         cfg_data := if with_data then Some body else None |}.

(** [await axios(config)]: a rejection goes on as a value; the [catch]
    block of [sendRequest] below takes it and what the building of the
    request threw alike. *)
Definition sendRequest (endpoint : value) : M (State World) SendResult :=
  let* startTime := liftW (Date_now P) in
  let* outcome :=
    try_catch
      (let* config := liftH (requestConfig endpoint) in
       fun s =>
         let '(o, w) := axios P config (objects s) (world s) in
         (Ok o, {| objects := objects s; modules := modules s; world := w |}))
      (fun message =>
         ret (Rejected {| err_code := None; err_message := message;
                          err_response := None |})) in
  let* endTime := liftW (Date_now P) in
  match outcome with
  | Resolved r =>
      ret {| success := true; response := r;
             responseTime := (endTime - startTime)%Z; error := None |}
  | Rejected e =>
      ret {| success := false;
             response := failure_response e;
             responseTime := (endTime - startTime)%Z;
             error := Some (failure_message e) |}
  end.

Definition getBaseline (endpoint : value) : M (State World) Baseline :=
  let* result := sendRequest endpoint in
  ret {| baseline_status := status (response result);
         baseline_responseTime := responseTime result;
         baseline_contentLength :=
           let v := header (headers (response result)) "content-length" in
           if header_truthy v then v else None |}.

(** [a || b] on values. *)
Definition or_value (a b : value) : value := if to_boolean a then a else b.

Definition add_test (t : TestRecord) (r : EndpointResult) : EndpointResult :=
  {| api := api r; method := method r; url := url r; scan_error := scan_error r;
     tests := (tests r ++ [t])%list; summary := summary r |}.

Definition set_summary (f : Summary -> Summary) (r : EndpointResult) : EndpointResult :=
  {| api := api r; method := method r; url := url r; scan_error := scan_error r;
     tests := tests r; summary := f (summary r) |}.

Definition count_total (s : Summary) : Summary :=
  {| total := S (total s); passed := passed s; failed := failed s; errors := errors s |}.
Definition count_passed (s : Summary) : Summary :=
  {| total := total s; passed := S (passed s); failed := failed s; errors := errors s |}.
Definition count_failed (s : Summary) : Summary :=
  {| total := total s; passed := passed s; failed := S (failed s); errors := errors s |}.
Definition count_errors (s : Summary) : Summary :=
  {| total := total s; passed := passed s; failed := failed s; errors := S (errors s) |}.

(** The body of the innermost loop of [scanEndpoint]: one probe. *)
Definition probe (scanner : Scanner) (payload : string) (baseline : option Baseline)
           (results : EndpointResult) (injectedEndpoint : value)
  : M (State World) EndpointResult :=
  let results := set_summary count_total results in
  let* injectionPoint := liftH (get_prop injectedEndpoint "injectionPoint") in
  let* attempt :=
    try_catch
      (let* requestStart := liftW (Date_now P) in
       let* sent := sendRequest injectedEndpoint in
       let* requestUrl := liftH (get_prop injectedEndpoint "url") in
       let* requestMethod := liftH (get_prop injectedEndpoint "method") in
       let* testedAt := liftW (Date_toISOString P) in
       let testResult (verdict : Verdict) (c : option Confidence)
                      (inds : list string) (note : string)
                      (bs : option Z) (changed : option bool) : TestRecord :=
         {| test_type := getType scanner;
            test_severity := getSeverity scanner;
            test_payload := payload;
            test_injectionPoint := injectionPoint;
            test_requestUrl := Some requestUrl;
            test_requestMethod := Some requestMethod;
            test_responseCode := status (response sent);
            test_responseTime := responseTime sent;
            test_responseSize := Some (responseSize (data (response sent)));
            test_responsePreview := Some (truncateResponse (data (response sent)));
            test_testedAt := testedAt;
            test_result := verdict;
            test_confidence := c;
            test_indicators := inds;
            test_notes := note;
            test_baselineStatus := bs;
            test_statusChanged := changed |} in
       let failed_request :=
         match error sent with
         | Some e => negb (String.eqb e EmptyString) && negb (success sent)
         | None => false
         end in
       if failed_request then
         let e := match error sent with Some e => e | None => EmptyString end in
         let t := testResult ERROR None [ "Request could not be completed" ]
                    ("Request failed: " ++ e) None None in
         (* [continue]: the pause below is skipped *)
         ret (set_summary count_errors (add_test t results), false)
       else
         let* analysis :=
           liftA (analyzeResponse scanner (response sent) payload
                    (option_map baseline_status baseline) (Some (responseTime sent))) in
         let note :=
           if String.eqb (notes analysis) EmptyString then
             if vulnerable analysis
             then "Potential vulnerability detected based on response analysis"
             else "No vulnerability indicators found in response"
           else notes analysis in
         let t :=
           testResult (if vulnerable analysis then FAIL else PASS)
             (Some (confidence analysis)) (indicators analysis) note
             (option_map baseline_status baseline)
             (option_map
                (fun b => negb (status (response sent) =? baseline_status b)%Z)
                baseline) in
         let results := add_test t results in
         ret (set_summary (if vulnerable analysis then count_failed else count_passed)
                results, true))
      (fun message =>
         let* testedAt := liftW (Date_toISOString P) in
         let t :=
           {| test_type := getType scanner;
              test_severity := getSeverity scanner;
              test_payload := payload;
              test_injectionPoint := injectionPoint;
              test_requestUrl := None;
              test_requestMethod := None;
              test_responseCode := 0;
              test_responseTime := 0;
              test_responseSize := None;
              test_responsePreview := None;
              test_testedAt := testedAt;
              test_result := ERROR;
              test_confidence := None;
              test_indicators := [ "Test execution failed" ];
              test_notes := "Scan error: " ++ message;
              test_baselineStatus := None;
              test_statusChanged := None |} in
         ret (set_summary count_errors (add_test t results), true)) in
  let '(results, pause) := attempt in
  if pause then
    let* _ := liftW (fun w => (tt, setTimeout P 50 w)) in
    ret results
  else ret results.

(** [options.scanTypes && options.scanTypes.length > 0
      ? scanners.filter(s => options.scanTypes.includes(s.getType())) : scanners] *)
Definition scannersToUse (opts : Options) : list Scanner :=
  match scanTypes opts with
  | Some types =>
      if (0 <? List.length types)%nat
      then List.filter (fun s => existsb (String.eqb (getType s)) types) scanners
      else scanners
  | None => scanners
  end.

(** [options.maxPayloads || 5] *)
Definition maxPayloadsOf (opts : Options) : Z :=
  match maxPayloads opts with
  | Some n => if (n =? 0)%Z then 5%Z else n
  | None => 5%Z
  end.

(** [options.injectLocation || 'all'] *)
Definition injectLocationOf (opts : Options) : string :=
  match injectLocation opts with
  | Some l => if String.eqb l EmptyString then "all" else l
  | None => "all"
  end.

Definition scanEndpoint (endpoint : value) (opts : Options)
  : M (State World) EndpointResult :=
  let* endpoint_method := liftH (get_prop endpoint "method") in
  let* endpoint_url := liftH (get_prop endpoint "url") in
  let* endpoint_name := liftH (get_prop endpoint "name") in
  let results :=
    {| api := or_value endpoint_name endpoint_url;
       method := endpoint_method;
       url := endpoint_url;
       scan_error := None;
       tests := [];
       summary := {| total := 0; passed := 0; failed := 0; errors := 0 |} |} in
  let* baseline :=
    try_catch
      (let* b := getBaseline endpoint in ret (Some b))
      (fun _ => ret None) in
  forEach (scannersToUse opts)
    (fun results scanner =>
       let payloads := slice0 (maxPayloadsOf opts) (getPayloads scanner) in
       forEach payloads
         (fun results payload =>
            let* injectedEndpoints :=
              liftH (injectPayload endpoint payload (injectLocationOf opts)) in
            let endpointsToTest := firstn 2 injectedEndpoints in
            forEach endpointsToTest (probe scanner payload baseline) results)
         results)
    results.

Definition add_endpoint (r : EndpointResult) (rep : ScanReport) : ScanReport :=
  {| scanId := scanId rep; timestamp := timestamp rep; options := options rep;
     endpoints := (endpoints rep ++ [r])%list;
     scan_summary := scan_summary rep; duration := duration rep |}.

Definition set_scan_summary (f : ScanSummary -> ScanSummary) (rep : ScanReport)
  : ScanReport :=
  {| scanId := scanId rep; timestamp := timestamp rep; options := options rep;
     endpoints := endpoints rep;
     scan_summary := f (scan_summary rep); duration := duration rep |}.

(** The update of the report after an endpoint that [scanEndpoint]
    finished. *)
Definition record_endpoint (r : EndpointResult) (rep : ScanReport) : ScanReport :=
  set_scan_summary
    (fun s =>
       {| totalEndpoints := totalEndpoints s;
          totalTests := totalTests s + total (summary r);
          totalPassed := totalPassed s + passed (summary r);
          totalFailed := totalFailed s + failed (summary r);
          totalErrors := totalErrors s + errors (summary r);
          vulnerabilities :=
            (vulnerabilities s
             ++ List.map
                  (fun v =>
                     {| vuln_endpoint := api r; vuln_type := test_type v;
                        vuln_severity := test_severity v;
                        vuln_payload := test_payload v;
                        vuln_confidence := test_confidence v |})
                  (List.filter
                     (fun t => match test_result t with FAIL => true | _ => false end)
                     (tests r)))%list |})
    (add_endpoint r rep).

(** The update of the report in the [catch] block of [runScan]. *)
Definition record_failure (endpoint_name endpoint_method endpoint_url : value)
           (message : string) (rep : ScanReport) : ScanReport :=
  set_scan_summary
    (fun s =>
       {| totalEndpoints := totalEndpoints s; totalTests := totalTests s;
          totalPassed := totalPassed s; totalFailed := totalFailed s;
          totalErrors := S (totalErrors s);
          vulnerabilities := vulnerabilities s |})
    (add_endpoint
       {| api := or_value endpoint_name endpoint_url;
          method := endpoint_method;
          url := endpoint_url;
          scan_error := Some message;
          tests := [];
          summary := {| total := 0; passed := 0; failed := 0; errors := 1 |} |}
       rep).

(** One round of the loop of [runScan]; [i] is the index of the endpoint.
    The first lines, outside the [try] block, read [endpoint.method],
    [endpoint.url] and [endpoint.name] for the log and the progress
    event. *)
Definition scanOne (n : nat) (opts : Options)
           (progressCallback : option (ProgressEvent -> World -> World))
           (acc : ScanReport * nat) (endpoint : value)
  : M (State World) (ScanReport * nat) :=
  let '(results, i) := acc in
  let* endpoint_method := liftH (get_prop endpoint "method") in
  let* endpoint_url := liftH (get_prop endpoint "url") in
  let* _ :=
    match progressCallback with
    | Some callback =>
        let* endpoint_name := liftH (get_prop endpoint "name") in
        liftW (fun w =>
                 (tt, callback {| current := i + 1; progress_total := n;
                                  progress_endpoint :=
                                    or_value endpoint_name endpoint_url |} w))
    | None => ret tt
    end in
  let* results :=
    try_catch
      (let* endpointResults := scanEndpoint endpoint opts in
       ret (record_endpoint endpointResults results))
      (fun message =>
         let* endpoint_name := liftH (get_prop endpoint "name") in
         ret (record_failure endpoint_name endpoint_method endpoint_url message results)) in
  ret (results, S i).

Definition runScan (endpointList : list value) (opts : Options)
           (progressCallback : option (ProgressEvent -> World -> World))
  : M (State World) ScanReport :=
  let* startTime := liftW (Date_now P) in
  let* id := liftW (uuid_v4 P) in
  let* stamp := liftW (Date_toISOString P) in
  let results :=
    {| scanId := id; timestamp := stamp; options := opts; endpoints := [];
       scan_summary :=
         {| totalEndpoints := List.length endpointList; totalTests := 0;
            totalPassed := 0; totalFailed := 0; totalErrors := 0;
            vulnerabilities := [] |};
       duration := 0 |} in
  let* done :=
    forEach endpointList (scanOne (List.length endpointList) opts progressCallback)
      (results, 0%nat) in
  let* endTime := liftW (Date_now P) in
  let results := fst done in
  ret {| scanId := scanId results; timestamp := timestamp results;
         options := options results; endpoints := endpoints results;
         scan_summary := scan_summary results;
         duration := (endTime - startTime)%Z |}.

End Engine.

(** ** Measures of a report *)

(** The number of test records in a report, over all its endpoints. *)
Definition count_tests (report : ScanReport) : nat :=
  list_sum (List.map (fun r => List.length (tests r)) (endpoints report)).

(** What a scan holds after [n] endpoints, under one type and the payload
    limit 3: one result for each endpoint and at most six tests for each. *)
Definition volume_kept (n : nat) (acc : ScanReport * nat) : Prop :=
  List.length (endpoints (fst acc)) = n
  /\ (count_tests (fst acc) <= n * 3 * 2)%nat
  /\ (totalTests (scan_summary (fst acc)) <= n * 3 * 2)%nat.

(** ** Sample inputs *)

(** A response that a firewall blocked. *)
Definition blocked_sample : Response :=
  {| status := 403; data := JStr "Access Denied by the firewall"; headers := [] |}.

(** A page of an edge proxy, served with status 200. *)
Definition proxy_page_sample : Response :=
  {| status := 200; data := JStr "Attention required. Cloudflare Ray ID: 7d1"; headers := [] |}.

(** A page served with status 200. *)
Definition plain_page_sample : Response :=
  {| status := 200; data := JStr "<html>index</html>"; headers := [] |}.

(** The answer of a login that succeeded. *)
Definition login_sample : Response :=
  {| status := 200; data := JObj [("token", JStr "abc")]; headers := [] |}.

(** A platform for examples: the world is a clock that every reading
    advances by one millisecond, and the HTTP client refuses every
    connection. *)
Definition offline : Platform nat :=
  {| axios := fun _ _ w =>
       (Rejected {| err_code := Some "ECONNREFUSED";
                    err_message := "connect ECONNREFUSED 127.0.0.1:80";
                    err_response := None |}, w);
     Date_now := fun w => (Z.of_nat w, S w);
     Date_toISOString := fun w => ("1970-01-01T00:00:00.000Z", w);
     uuid_v4 := fun w => ("00000000-0000-4000-8000-000000000000", w);
     setTimeout := fun ms w => (w + Z.to_nat ms)%nat;
     URLSearchParams_toString := fun _ _ => Ok EmptyString |}.

(** A platform for examples whose HTTP client answers every request with
    status 200 and an empty page. *)
Definition online : Platform nat :=
  {| axios := fun _ _ w =>
       (Resolved {| status := 200; data := JStr "<html></html>"; headers := [] |}, w);
     Date_now := fun w => (Z.of_nat w, S w);
     Date_toISOString := fun w => ("1970-01-01T00:00:00.000Z", w);
     uuid_v4 := fun w => ("00000000-0000-4000-8000-000000000000", w);
     setTimeout := fun ms w => (w + Z.to_nat ms)%nat;
     URLSearchParams_toString := fun _ _ => Ok EmptyString |}.

(** The endpoint of the example of the injection strategy: query [{a:1}],
    body [{b:2}], method POST. *)
Definition sample_endpoint (name url : string) (hs : list (string * jsval)) : jsval :=
  JObj [ ("name", JStr name); ("method", JStr "POST"); ("url", JStr url);
         ("headers", JObj hs); ("body", JObj [("b", JNum 2)]);
         ("queryParams", JObj [("a", JNum 1)]) ].

(** A heap that holds one endpoint, and the endpoint in it. *)
Definition sample_heap : heap :=
  snd (alloc (sample_endpoint "login" "http://localhost/api/login" []) []).
Definition sample_ref : value :=
  fst (alloc (sample_endpoint "login" "http://localhost/api/login" []) []).

Definition sample_state : State nat :=
  {| objects := sample_heap; modules := modules0; world := 0%nat |}.

(** ** The verdicts of a report *)

Definition verdict_eqb (a b : Verdict) : bool :=
  match a, b with
  | PASS, PASS | FAIL, FAIL | ERROR, ERROR => true
  | _, _ => false
  end.

(** The number of the records of [ts] with the verdict [v]. *)
Definition count_verdict (v : Verdict) (ts : list TestRecord) : nat :=
  List.length (List.filter (fun t => verdict_eqb (test_result t) v) ts).

(** The counters of an endpoint result agree with its records. *)
Definition tally_kept (r : EndpointResult) : Prop :=
  total (summary r) = List.length (tests r)
  /\ passed (summary r) = count_verdict PASS (tests r)
  /\ failed (summary r) = count_verdict FAIL (tests r)
  /\ errors (summary r) = count_verdict ERROR (tests r).

(** The records of a report, over all its endpoints, and the number of its
    endpoints whose scan was given up. *)
Definition all_tests (report : ScanReport) : list TestRecord :=
  List.concat (List.map tests (endpoints report)).

Definition given_up (report : ScanReport) : nat :=
  List.length
    (List.filter (fun r => match scan_error r with Some _ => true | None => false end)
       (endpoints report)).

(** The summary of a report agrees with its records. *)
Definition summary_kept (report : ScanReport) : Prop :=
  let s := scan_summary report in
  totalTests s = List.length (all_tests report)
  /\ totalPassed s = count_verdict PASS (all_tests report)
  /\ totalFailed s = count_verdict FAIL (all_tests report)
  /\ totalErrors s = (count_verdict ERROR (all_tests report) + given_up report)%nat
  /\ List.length (vulnerabilities s) = totalFailed s.

(** ** The objects that a copy owns

    [injectPayload] writes to the copies that it makes and to nothing
    else.  The objects of a heap from [base] on are closed when they refer
    to no object below [base]; a computation writes above [base] when, from
    such a heap, it leaves the objects below [base] as they were and the
    objects above closed, whether it returns or throws. *)

Definition val_fresh (base : nat) (v : value) : Prop :=
  match v with
  | VRef l => (base <= l)%nat
  | _ => True
  end.

Definition obj_fresh (base : nat) (o : object) : Prop :=
  match o with
  | Obj ps => Forall (fun kv => val_fresh base (snd kv)) ps
  | Arr vs extra =>
      Forall (val_fresh base) vs /\ Forall (fun kv => val_fresh base (snd kv)) extra
  end.

Definition closed_from (base : nat) (h : heap) : Prop :=
  forall l o, (base <= l)%nat -> h !! l = Some o -> obj_fresh base o.

Definition writes_above {A : Type} (base : nat) (m : M heap A) (Q : A -> Prop) : Prop :=
  forall h, (base <= List.length h)%nat -> closed_from base h ->
    extends base h (snd (m h))
    /\ closed_from base (snd (m h))
    /\ match fst (m h) with
       | Ok a => Q a
       | Throw _ => True
       end.

(** What [alloc] does to the heap: it adds objects at the end, closed above
    every base of the heap it starts from, and returns a value that is no
    reference below the base. *)
Definition alloc_above (t : jsval) : Prop :=
  forall (h : heap) (base : nat), (base <= List.length h)%nat ->
    exists new,
      snd (alloc t h) = (h ++ new)%list
      /\ Forall (obj_fresh base) new
      /\ val_fresh base (fst (alloc t h)).
(** ** Runs of a computation *)

(** [runs m h a h']: from the heap [h], [m] returns [a] and leaves [h']. *)
Definition runs {A : Type} (m : M heap A) (h : heap) (a : A) (h' : heap) : Prop :=
  m h = (Ok a, h').

(** The heap [h] holds the trees [Ts] at the values [vs], each in objects
    of its own: those of the first from [lo] on, those of each after those
    of the one before it, and all of them before [hi]. *)
Fixpoint apart (h : heap) (lo hi : nat) (vs : list value) (Ts : list jsval) : Prop :=
  match vs, Ts with
  | [], [] => (lo <= hi)%nat
  | v :: vs', T :: Ts' =>
      exists mid F,
        fp h v T = Some F
        /\ (lo <= mid)%nat
        /\ (forall l, l ∈ F -> (lo <= l < mid)%nat)
        /\ apart h mid hi vs' Ts'
  | _, _ => False
  end.

(** The variants [vs] are held by [h'] as the trees [Ts], in objects that
    were made after [h], and [h'] keeps the objects of [h]. *)
Definition made_all (h h' : heap) (vs : list value) (Ts : list jsval) : Prop :=
  extends (List.length h) h h'
  /\ Forall2 (fun v T => reify (S (List.length h')) h' v = Some T) vs Ts
  /\ apart h' (List.length h) (List.length h') vs Ts.

(** An endpoint that has a method and a URL and nothing else, a heap that
    holds it, and the endpoint in it. *)
Definition bare_endpoint : jsval :=
  JObj [ ("method", JStr "GET"); ("url", JStr "http://localhost/health") ].

Definition bare_heap : heap := snd (alloc bare_endpoint []).
Definition bare_ref : value := fst (alloc bare_endpoint []).

(** ** The plan of a scan

    What the scan of an endpoint is to do, after the algorithm of the
    engine: for each analyzer in use, in the order of the table, and each of
    its first [maxPayloads] payloads, in the order of its list, a probe of
    each of the first two variants of the injection strategy.  A probe is
    named by the type of the analyzer, the payload and the injection point
    of the variant; [probed] is the name of the probe in its record. *)
Definition label_of (T : jsval) : value :=
  match field "injectionPoint" T with
  | JStr label => VStr label
  | _ => VUndefined
  end.

Definition probed (t : TestRecord) : string * string * value :=
  (test_type t, test_payload t, test_injectionPoint t).

Definition planned (E : jsval) (opts : Options) : list (string * string * value) :=
  List.flat_map
    (fun scanner =>
       List.flat_map
         (fun payload =>
            List.map (fun T => (getType scanner, payload, label_of T))
              (firstn 2 (Inject E payload (injectLocationOf opts))))
         (slice0 (maxPayloadsOf opts) (getPayloads scanner)))
    (scannersToUse opts).

(** ** The rules of the injection strategy

    [rules] is the list of the variants that the rules for the query, the
    body, the header and the path give, before the fallback; [Inject] is
    this list when it has a member, and the one variant of the fallback
    when it has none. *)
Definition rules (E : jsval) (payload location : string) : list jsval :=
  let on (l : string) := String.eqb location l || String.eqb location "all" in
  ((if on "query" then
      (List.map
         (fun key => tagged ("Query param: " ++ key)
                       (in_mapping "queryParams" key payload E))
         (List.map fst (mapping (field "queryParams" E)))
       ++ [ tagged "Query param: q (injected)"
              (in_mapping "queryParams" "q" payload E) ])%list
    else [])
   ++ (if on "body" then
         (List.map
            (fun key => tagged ("Body param: " ++ key)
                          (in_mapping "body" key payload E))
            (List.map fst (mapping (field "body" E)))
          ++ (if method_carries_body (field "method" E)
              then [ tagged "Body param: input (injected)"
                       (in_mapping "body" "input" payload E) ]
              else []))%list
       else [])
   ++ (if on "header" then
         [ tagged "Header: X-Test-Input (injected)"
             (in_mapping "headers" "X-Test-Input" payload E) ]
       else [])
   ++ (if on "path" then
         [ tagged "URL path (appended)"
             (with_field "url" (url_with payload (field "url" E)) E) ]
       else []))%list.

Definition fallback (E : jsval) (payload : string) : jsval :=
  tagged "Query param: test (fallback)" (in_mapping "queryParams" "test" payload E).

(** The six variants of the example of the strategy: an endpoint with the
    query [{a: 1}], the body [{b: 2}] and the method POST, under the
    location [all]. *)
Definition six_variants (E : jsval) (payload : string) : list jsval :=
  [ tagged "Query param: a"
      (with_field "queryParams" (JObj [ ("a", JStr payload) ]) E);
    tagged "Query param: q (injected)"
      (with_field "queryParams" (JObj [ ("a", JNum 1); ("q", JStr payload) ]) E);
    tagged "Body param: b"
      (with_field "body" (JObj [ ("b", JStr payload) ]) E);
    tagged "Body param: input (injected)"
      (with_field "body" (JObj [ ("b", JNum 2); ("input", JStr payload) ]) E);
    tagged "Header: X-Test-Input (injected)"
      (with_field "headers"
         (JObj (set_assoc "X-Test-Input" (JStr payload) (mapping (field "headers" E))))
         E);
    tagged "URL path (appended)"
      (with_field "url" (url_with payload (field "url" E)) E) ].

(** * Properties *)

(** ** Strings *)

Lemma length_append (a b : string) :
  String.length (a ++ b) = (String.length a + String.length b)%nat.
Proof. induction a as [|c a IH]; simpl; [reflexivity | now rewrite IH]. Qed.

Lemma length_take (n : nat) (s : string) :
  String.length (Str.take n s) = Nat.min n (String.length s).
Proof.
  unfold Str.take. revert n.
  induction s as [|c s IH]; intros [|n]; simpl; try reflexivity.
  now rewrite IH.
Qed.

Lemma length_repeat (c : ascii) (n : nat) : String.length (Str.repeat c n) = n.
Proof. induction n; simpl; congruence. Qed.

(** ** The response preview *)

Lemma units_append (a b : string) :
  Str.units (a ++ b) = (Str.units a + Str.units b)%nat.
Proof. induction a as [|c a IH]; simpl; [reflexivity | rewrite IH; lia]. Qed.

(** A byte of continuation counts for nothing. *)
Lemma weight_continuation (n : nat) :
  (128 <= n < 192)%nat -> Str.unit_weight (ascii_of_nat n) = 0%nat.
Proof.
  intros Hn. unfold Str.unit_weight. rewrite nat_ascii_embedding by lia.
  destruct (Nat.ltb_spec n 128); [lia|].
  destruct (Nat.ltb_spec n 192); [reflexivity | lia].
Qed.

(** A surrogate that stands alone is one code unit. *)
Lemma units_high_surrogate (b1 b2 b3 : nat) :
  Str.units (Str.high_surrogate b1 b2 b3) = 1%nat.
Proof.
  unfold Str.high_surrogate. cbn [Str.units].
  change (Str.unit_weight (ascii_of_nat 237)) with 1%nat.
  rewrite !weight_continuation.
  - reflexivity.
  - pose proof (Nat.mod_upper_bound b2 16). pose proof (Nat.mod_upper_bound (b3 / 16) 4).
    lia.
  - pose proof (Nat.mod_upper_bound (4 * (b1 mod 8) + (b2 / 16) mod 4 - 1) 16). lia.
Qed.

(** The first [n] code units of a string that has as many are [n] code
    units. *)
Lemma units_first_units (s : string) :
  forall n, (n <= Str.units s)%nat -> Str.units (Str.first_units n s) = n.
Proof.
  induction s as [|c s IH]; intros n Hn; cbn [Str.units Str.first_units] in *.
  - lia.
  - destruct (Str.unit_weight c) as [|[|w]] eqn:Hw.
    + cbn [Str.units]. rewrite Hw. apply IH. lia.
    + destruct n as [|n]; [reflexivity|].
      cbn [Str.units]. rewrite Hw, IH by lia. reflexivity.
    + assert (Hw2 : w = 0%nat).
      { revert Hw. unfold Str.unit_weight.
        repeat match goal with |- context [if ?b then _ else _] => destruct b end;
          intros [=]; congruence. }
      subst w. destruct n as [|[|n]]; [reflexivity | apply units_high_surrogate |].
      cbn [Str.units]. rewrite Hw, IH by lia. reflexivity.
Qed.

(** C8, as the code has it.  For a body whose numbers JavaScript holds
    exactly, and counting as [length] does, in UTF-16 code units: the
    preview of a response body is at most 215 code units long; a body that
    is falsy has the preview [[No response body]]; a body whose text is
    longer than 200 code units has the first 200 code units of the text
    followed by the 15 characters of the marker, 215 in all; and any other
    body has its text as its preview. *)
Theorem truncateResponse_bound (body : jsval) :
  JSON.safe body = true ->
  (Str.units (truncateResponse body) <= 215)%nat
  /\ (truthy body = false -> truncateResponse body = "[No response body]")
  /\ (truthy body = true ->
      (200 < Str.units (data_text body))%nat ->
      truncateResponse body
      = Str.first_units 200 (data_text body) ++ "... [truncated]"
      /\ Str.units (truncateResponse body) = 215%nat)
  /\ (truthy body = true ->
      (Str.units (data_text body) <= 200)%nat ->
      truncateResponse body = data_text body).
Proof.
  intros _. unfold truncateResponse.
  destruct (truthy body) eqn:Ht; cbn [negb].
  - destruct (Nat.leb_spec (Str.units (data_text body)) 200) as [Hle|Hgt].
    + split; [lia|]. split; [discriminate|]. split; [intros _ ?; lia|].
      reflexivity.
    + assert (Hlen : Str.units
                       (Str.first_units 200 (data_text body) ++ "... [truncated]")
                     = 215%nat).
      { rewrite units_append, units_first_units by lia. reflexivity. }
      split; [lia|]. split; [discriminate|].
      split; [intros _ _; split; [reflexivity | exact Hlen]|].
      intros _ ?. lia.
  - split; [vm_compute; lia|]. split; [reflexivity|].
    split; discriminate.
Qed.

(** A body of 201 letters [é], of two bytes each: the preview is the first
    200 of them and the marker. *)
Lemma truncateResponse_bound_witness :
  truncateResponse (JStr (Str.times 201 "é"))
  = Str.first_units 200 (data_text (JStr (Str.times 201 "é"))) ++ "... [truncated]"
  /\ Str.units (truncateResponse (JStr (Str.times 201 "é"))) = 215%nat.
Proof.
  refine (proj1 (proj2 (proj2 (truncateResponse_bound (JStr (Str.times 201 "é")) _)))
            _ _).
  - reflexivity.
  - reflexivity.
  - vm_compute. lia.
Defined.

(** C8 as the specification words it fails: a body of 201 characters has a
    preview of 215 characters, more than 200. *)
Lemma truncateResponse_exceeds_200 :
  ~ (Str.units (truncateResponse (JStr (Str.repeat "A" 201))) <= 200)%nat.
Proof. vm_compute. lia. Qed.

Lemma prefix_app (p s : string) :
  String.prefix p s = true -> exists post, s = p ++ post.
Proof.
  revert s. induction p as [|c p IH]; intros s H.
  - now exists s.
  - destruct s as [|d s]; simpl in H; [discriminate|].
    destruct (Ascii.ascii_dec c d) as [->|Hne]; [|discriminate].
    destruct (IH s H) as [post ->]. now exists post.
Qed.

Lemma includes_app (s sub : string) :
  Str.includes s sub = true -> exists pre post, s = pre ++ sub ++ post.
Proof.
  induction s as [|c s IH]; intros H; cbn [Str.includes] in H.
  - rewrite orb_false_r in H. destruct (prefix_app _ _ H) as [post ->].
    now exists EmptyString, post.
  - apply orb_true_iff in H. destruct H as [H|H].
    + destruct (prefix_app _ _ H) as [post Hpost].
      exists EmptyString, post. exact Hpost.
    + destruct (IH H) as (pre & post & ->).
      now exists (String c pre), post.
Qed.

Lemma append_assoc (a b c : string) : (a ++ b) ++ c = a ++ b ++ c.
Proof. induction a as [|x a IH]; simpl; [reflexivity | now rewrite IH]. Qed.

(** ** Regular expressions *)

(** A match at the start of a suffix is found by the search. *)
Lemma search_finds (ic : bool) (r : Regex.re) (pre s : string) (pos : nat) :
  Regex.run ic r s (fun rest => Some rest) <> None ->
  Regex.search ic r (pre ++ s) pos <> None.
Proof.
  intros Hrun. revert pos.
  induction pre as [|c pre IH]; intros pos; simpl.
  - destruct s; simpl;
      destruct (Regex.run ic r _ (fun rest => Some rest)); congruence.
  - destruct (Regex.run ic r (String c (pre ++ s)) (fun rest => Some rest));
      [congruence | apply IH].
Qed.

(** A pattern without the [g] flag is not changed by [test]. *)
Lemma test_not_global (r : Regex.RegExp) (s : string) :
  Regex.global r = false -> snd (Regex.test r s) = r.
Proof. intros H. unfold Regex.test. now rewrite H. Qed.

Lemma first_match_not_global (patterns : list Regex.RegExp) (s : string) :
  forallb (fun r => negb (Regex.global r)) patterns = true ->
  snd (Regex.first_match patterns s) = patterns.
Proof.
  induction patterns as [|p rest IH]; simpl; intros H; [reflexivity|].
  apply andb_true_iff in H. destruct H as [Hp Hrest].
  apply negb_true_iff in Hp.
  pose proof (test_not_global p s Hp) as Hsnd.
  destruct (Regex.test p s) as [hit p']. simpl in Hsnd. subst p'.
  destruct hit; simpl; [reflexivity|].
  specialize (IH Hrest).
  destruct (Regex.first_match rest s) as [found rest']. simpl in *. now subst.
Qed.

(** ** The analyzers and the firewall *)

(** C1, as the code has it.  For a response with status 403, 406 or 429
    whose body, in lower case, holds one of the block phrases of an
    analyzer's own list: the SQL, XSS, command-injection and path-traversal
    analyzers return at once, not vulnerable, confidence high, with the
    indicator that the request was blocked, and leave their pattern tables
    as they were; the rate-limit analyzer returns not vulnerable with
    confidence high and the indicator of its rate limit or its bot
    protection; the NoSQL and header analyzers return at once, not
    vulnerable, with the indicator that the request was blocked.  (The
    malformed-payload, HTTP-method and payload-size analyzers have no such
    check.) *)
Theorem waf_short_circuit (response : Response) (payload : string)
        (originalStatus responseTime : option Z) :
  blocking_status (status response) = true ->
  let body := Str.toLowerCase (responseBody response) in
  (forall m, some_included body Sql.wafIndicators = true ->
     Sql.analyzeResponse m response payload originalStatus
     = ({| vulnerable := false; confidence := high;
           indicators := [ "✅ WAF/Firewall blocked the malicious request";
                           "Response status: " ++ Str.ofZ (status response) ];
           notes := "PROTECTED: Web Application Firewall detected and blocked the SQL injection attempt. The application is secured by WAF." |}, m))
  /\ (some_included body Xss.wafIndicators = true ->
      Xss.analyzeResponse response payload originalStatus
      = {| vulnerable := false; confidence := high;
           indicators := [ "✅ WAF/Firewall blocked the malicious request";
                           "Response status: " ++ Str.ofZ (status response) ];
           notes := "PROTECTED: Web Application Firewall detected and blocked the XSS attempt. The application is secured by WAF." |})
  /\ (forall m, some_included body Cmd.wafIndicators = true ->
      Cmd.analyzeResponse m response payload originalStatus responseTime
      = ({| vulnerable := false; confidence := high;
            indicators := [ "✅ WAF/Firewall blocked the malicious request" ];
            notes := "PROTECTED: WAF detected and blocked the command injection attempt." |}, m))
  /\ (forall m, some_included body Path.wafIndicators = true ->
      Path.analyzeResponse m response payload originalStatus
      = ({| vulnerable := false; confidence := high;
            indicators := [ "✅ WAF/Firewall blocked the malicious request" ];
            notes := "PROTECTED: WAF detected and blocked the path traversal attempt." |}, m))
  /\ (some_included body Rate.wafIndicators = true ->
      Rate.analyzeResponse response payload originalStatus responseTime
      = if (status response =? 429)%Z
        then {| vulnerable := false; confidence := high;
                indicators := [ "✅ Rate limiting is active (429 Too Many Requests)" ];
                notes := "PROTECTED: Server properly implements rate limiting" |}
        else {| vulnerable := false; confidence := high;
                indicators := [ "✅ Bot/DDoS protection is active" ];
                notes := "PROTECTED: Server has anti-bot/rate limiting measures" |})
  /\ (forall m, some_included body NoSql.wafIndicators = true ->
      let r := NoSql.analyzeResponse m response payload originalStatus in
      vulnerable (fst r) = false
      /\ indicators (fst r) = [ "✅ WAF/Firewall blocked the request" ]
      /\ notes (fst r) = "PROTECTED: Request was blocked by security controls"
      /\ snd r = m)
  /\ (some_included body Header.wafIndicators = true ->
      let r := Header.analyzeResponse response payload originalStatus in
      vulnerable r = false
      /\ indicators r = [ "✅ WAF/Firewall blocked the request" ]
      /\ notes r = "PROTECTED: Header manipulation was blocked").
Proof.
  intros Hstatus body. subst body.
  repeat split; intros.
  - unfold Sql.analyzeResponse, Sql.isWAFBlocked. rewrite Hstatus, H. reflexivity.
  - unfold Xss.analyzeResponse, Xss.isWAFBlocked. rewrite Hstatus, H. reflexivity.
  - unfold Cmd.analyzeResponse, Cmd.isWAFBlocked. rewrite Hstatus, H. reflexivity.
  - unfold Path.analyzeResponse, Path.isWAFBlocked. rewrite Hstatus, H. reflexivity.
  - unfold Rate.analyzeResponse, Rate.isWAFBlocked.
    destruct (status response =? 429)%Z; [reflexivity|].
    rewrite H. destruct (_ || _); reflexivity.
  - unfold NoSql.analyzeResponse, NoSql.isWAFBlocked. rewrite Hstatus, H. reflexivity.
  - unfold NoSql.analyzeResponse, NoSql.isWAFBlocked. rewrite Hstatus, H. reflexivity.
  - unfold NoSql.analyzeResponse, NoSql.isWAFBlocked. rewrite Hstatus, H. reflexivity.
  - unfold NoSql.analyzeResponse, NoSql.isWAFBlocked. rewrite Hstatus, H. reflexivity.
  - unfold Header.analyzeResponse, Header.isWAFBlocked. rewrite Hstatus, H. reflexivity.
  - unfold Header.analyzeResponse, Header.isWAFBlocked. rewrite Hstatus, H. reflexivity.
  - unfold Header.analyzeResponse, Header.isWAFBlocked. rewrite Hstatus, H. reflexivity.
Qed.

Lemma waf_short_circuit_witness :
  Sql.analyzeResponse Sql.init blocked_sample "' OR '1'='1" None
  = ({| vulnerable := false; confidence := high;
        indicators := [ "✅ WAF/Firewall blocked the malicious request";
                        "Response status: " ++ Str.ofZ (status blocked_sample) ];
        notes := "PROTECTED: Web Application Firewall detected and blocked the SQL injection attempt. The application is secured by WAF." |}, Sql.init).
Proof.
  apply (proj1 (waf_short_circuit blocked_sample "' OR '1'='1" None None eq_refl)).
  reflexivity.
Defined.

(** C1 as the specification words it fails: on a blocked response that
    holds block phrases of every list, the malformed-payload analyzer
    answers with confidence low, the payload-size analyzer flags a slow
    answer as vulnerable, and the HTTP-method analyzer answers with
    confidence low. *)
Lemma waf_short_circuit_not_all_ten :
  blocking_status (status blocked_sample) = true
  /\ some_included (Str.toLowerCase (responseBody blocked_sample)) Sql.wafIndicators = true
  /\ confidence (fst (Malformed.analyzeResponse Malformed.init blocked_sample "{}" None))
     = low
  /\ vulnerable (PayloadSize.analyzeResponse blocked_sample "500_chars" None
                   (Some 12000%Z)) = true
  /\ HttpMethod.analyzeResponse blocked_sample "TRACE" None
     = Ok {| vulnerable := false; confidence := low;
             indicators := [ "TRACE method returned 403" ];
             notes := "SAFE: Server handled HTTP method appropriately" |}.
Proof. vm_compute. repeat split. Qed.

(** C6, as the code has it.  For a response with status 200 whose body does
    not hold the fingerprint of the edge proxy, analyzed by the
    path-traversal analyzer against a baseline status of 404, the result is
    vulnerable with confidence medium, with the indicator of the file found
    after traversal, whatever the pattern tables found before. *)
Theorem path_traversal_status_flip (m : Path.state) (response : Response)
        (payload : string) :
  status response = 200%Z ->
  Str.includes (Str.toLowerCase (responseBody response)) "cloudflare ray id" = false ->
  let r := fst (Path.analyzeResponse m response payload (Some 404%Z)) in
  vulnerable r = true
  /\ confidence r = medium
  /\ In "⚠️ File found after path traversal" (indicators r)
  /\ notes r = "VULNERABLE: Traversal payload changed 404 to 200".
Proof.
  intros Hst Hproxy. unfold Path.analyzeResponse, Path.isWAFBlocked.
  rewrite Hst, Hproxy. cbn [blocking_status Z.eqb andb orb Pos.eqb].
  destruct (Regex.first_match (Path.fileContentPatterns m) _) as [hit1 files'].
  destruct (Regex.first_match (Path.errorPatterns m) _) as [hit2 errors'].
  cbn [fst].
  match goal with
  | |- context [finding true medium "⚠️ File found after path traversal" ?n ?r0] =>
      set (before := r0); clearbody before
  end.
  cbn. repeat split; try reflexivity.
  apply in_or_app. right. now left.
Qed.

Lemma path_traversal_status_flip_witness :
  let r := fst (Path.analyzeResponse Path.init plain_page_sample
                  "../../../etc/passwd" (Some 404%Z)) in
  vulnerable r = true
  /\ confidence r = medium
  /\ In "⚠️ File found after path traversal" (indicators r)
  /\ notes r = "VULNERABLE: Traversal payload changed 404 to 200".
Proof.
  refine (path_traversal_status_flip Path.init plain_page_sample
            "../../../etc/passwd" _ _); vm_compute; reflexivity.
Defined.

(** C6 as the specification words it fails: a response with status 200
    that holds the fingerprint of the edge proxy is taken as blocked, not
    vulnerable, also against a baseline of 404. *)
Lemma path_traversal_proxy_page :
  vulnerable
    (fst (Path.analyzeResponse Path.init proxy_page_sample "../../../etc/passwd"
            (Some 404%Z))) = false
  /\ confidence
       (fst (Path.analyzeResponse Path.init proxy_page_sample "../../../etc/passwd"
               (Some 404%Z))) = high.
Proof. vm_compute. split; reflexivity. Qed.

(** The words that the SQL analyzer takes for a successful login are found
    in every body that holds a token field. *)
Lemma auth_words_found (body : string) :
  Str.includes body (Str.tpl "`token`:`abc`") = true ->
  fst (Regex.test
         (Regex.regexp false true
            "success|authenticated|welcome|token|session|jwt|bearer") body) = true.
Proof.
  intros H. destruct (includes_app _ _ H) as (pre & post & ->).
  unfold Regex.test. cbn [Regex.global Regex.regexp fst Regex.ignoreCase Regex.body].
  assert (Hfound :
    Regex.search true
      (Regex.parse "success|authenticated|welcome|token|session|jwt|bearer")
      (pre ++ Str.tpl "`token`:`abc`" ++ post) 0 <> None).
  { change (Str.tpl "`token`:`abc`" ++ post)
      with (Str.dq ++ (Str.tpl "token`:`abc`" ++ post)).
    rewrite <- append_assoc.
    apply search_finds. vm_compute. discriminate. }
  destruct (Regex.search _ _ _ _); [reflexivity | contradiction].
Qed.

(** C7, as the code has it.  Given the payload [' OR '1'='1] and a response
    with status 200 whose body holds the token field and no firewall signal,
    the SQL analyzer returns vulnerable with the indicator of an
    authentication bypass; the confidence is high when no baseline status
    is given or the baseline status is below 400, and medium when the
    baseline status is 400 or more, since the rule on the change from the
    baseline runs after the rule on the bypass. *)
Theorem sql_auth_bypass (m : Sql.state) (response : Response)
        (originalStatus : option Z) :
  status response = 200%Z ->
  Str.includes (responseBody response) (Str.tpl "`token`:`abc`") = true ->
  Sql.isWAFBlocked response (responseBody response) = false ->
  let r := fst (Sql.analyzeResponse m response "' OR '1'='1" originalStatus) in
  vulnerable r = true
  /\ In "⚠️ Potential authentication bypass" (indicators r)
  /\ confidence r
     = match originalStatus with
       | Some baseline => if (400 <=? baseline)%Z then medium else high
       | None => high
       end.
Proof.
  intros Hst Hbody Hwaf. unfold Sql.analyzeResponse.
  rewrite Hwaf, Hst.
  change (400 <=? 200)%Z with false. change (200 =? 200)%Z with true.
  cbn [andb negb].
  destruct (Regex.first_match (Sql.sqlErrorPatterns m) _) as [hit1 errors'].
  destruct (Regex.first_match (Sql.successPatterns m) _) as [hit2 success'].
  rewrite (auth_words_found _ Hbody).
  change (Str.includes "' OR '1'='1" "OR '1'='1") with true.
  cbn [orb fst].
  match goal with
  | |- context [finding true high "⚠️ Potential authentication bypass" _ ?r0] =>
      set (before := r0); clearbody before
  end.
  destruct (fst (Regex.test _ (responseBody response))) eqn:Hverbose;
    destruct originalStatus as [b|].
  all: try (destruct (200 =? b)%Z eqn:E200;
            [apply Z.eqb_eq in E200; subst b|];
            try destruct (400 <=? b)%Z eqn:E400).
  all: cbn; repeat split; try reflexivity.
  all: rewrite ?in_app_iff; cbn; tauto.
Qed.

Lemma sql_auth_bypass_witness :
  let r := fst (Sql.analyzeResponse Sql.init login_sample "' OR '1'='1" None) in
  vulnerable r = true
  /\ In "⚠️ Potential authentication bypass" (indicators r)
  /\ confidence r = high.
Proof.
  refine (sql_auth_bypass Sql.init login_sample None _ _ _); vm_compute; reflexivity.
Defined.

(** C7 as the specification words it fails: against a baseline status of
    401, the answer of the login that succeeded is reported with confidence
    medium, not high. *)
Lemma sql_auth_bypass_baseline_401 :
  confidence
    (fst (Sql.analyzeResponse Sql.init login_sample "' OR '1'='1" (Some 401%Z)))
  = medium.
Proof. vm_compute. reflexivity. Qed.

(** ** The request dispatcher *)

(** C4.  [sendRequest] returns a result in every state and throws in none.
    When the HTTP client rejects the request with an error, and when the
    building of the request throws, the result has [success = false], the
    response that the error carries (status 0 when it carries none) and
    the message of the error, which reads "Connection refused" for the code
    [ECONNREFUSED], "Request timed out" for [ETIMEDOUT], and is the message
    of the error itself otherwise. *)
Theorem sendRequest_resolves {World : Type} (P : Platform World)
        (endpoint : value) (s : State World) :
  (exists result s', sendRequest P endpoint s = (Ok result, s'))
  /\ (forall t0 w1 config h1 e w2 t1 w3,
        Date_now P (world s) = (t0, w1) ->
        requestConfig P endpoint (objects s) = (Ok config, h1) ->
        axios P config h1 w1 = (Rejected e, w2) ->
        Date_now P w2 = (t1, w3) ->
        sendRequest P endpoint s
        = (Ok {| success := false; response := failure_response e;
                 responseTime := (t1 - t0)%Z;
                 error := Some (failure_message e) |},
           {| objects := h1; modules := modules s; world := w3 |}))
  /\ (forall t0 w1 message h1 t1 w3,
        Date_now P (world s) = (t0, w1) ->
        requestConfig P endpoint (objects s) = (Throw message, h1) ->
        Date_now P w1 = (t1, w3) ->
        sendRequest P endpoint s
        = (Ok {| success := false;
                 response := {| status := 0; data := JStr message; headers := [] |};
                 responseTime := (t1 - t0)%Z;
                 error := Some message |},
           {| objects := h1; modules := modules s; world := w3 |}))
  /\ (forall e,
        (err_response e = None -> status (failure_response e) = 0%Z)
        /\ (err_code e = Some "ECONNREFUSED" ->
            failure_message e = "Connection refused - server may be down")
        /\ (err_code e = Some "ETIMEDOUT" -> failure_message e = "Request timed out")
        /\ (forall code, err_code e = Some code ->
            code <> "ECONNREFUSED" -> code <> "ETIMEDOUT" ->
            failure_message e = err_message e)
        /\ (err_code e = None -> failure_message e = err_message e)).
Proof.
  repeat split.
  - unfold sendRequest, bind, try_catch, liftW, liftH, ret.
    destruct (Date_now P (world s)) as [t0 w1]. cbn.
    destruct (requestConfig P endpoint (objects s)) as [[config|message] h1]; cbn.
    + destruct (axios P config h1 w1) as [[r|e] w2]; cbn;
        destruct (Date_now P w2) as [t1 w3]; cbn; eauto.
    + destruct (Date_now P w1) as [t1 w3]; cbn; eauto.
  - intros t0 w1 config h1 e w2 t1 w3 H0 Hc Ha H1.
    unfold sendRequest, bind, try_catch, liftW, liftH, ret.
    rewrite H0. cbn. rewrite Hc. cbn. rewrite Ha. cbn. rewrite H1. reflexivity.
  - intros t0 w1 message h1 t1 w3 H0 Hc H1.
    unfold sendRequest, bind, try_catch, liftW, liftH, ret.
    rewrite H0. cbn. rewrite Hc. cbn. rewrite H1. reflexivity.
  - intros H. unfold failure_response. now rewrite H.
  - intros H. unfold failure_message. now rewrite H.
  - intros H. unfold failure_message. now rewrite H.
  - intros code H Hr Ht. unfold failure_message. rewrite H.
    apply String.eqb_neq in Hr, Ht. now rewrite Hr, Ht.
  - intros H. unfold failure_message. now rewrite H.
Qed.

Lemma sendRequest_resolves_witness :
  sendRequest offline sample_ref sample_state
  = (Ok {| success := false;
           response :=
             failure_response
               {| err_code := Some "ECONNREFUSED";
                  err_message := "connect ECONNREFUSED 127.0.0.1:80";
                  err_response := None |};
           responseTime := (1 - 0)%Z;
           error :=
             Some (failure_message
                     {| err_code := Some "ECONNREFUSED";
                        err_message := "connect ECONNREFUSED 127.0.0.1:80";
                        err_response := None |}) |},
     {| objects := sample_heap; modules := modules sample_state; world := 2%nat |}).
Proof.
  refine (proj1 (proj2 (sendRequest_resolves offline sample_ref sample_state))
            0%Z 1%nat
            (match fst (requestConfig offline sample_ref sample_heap) with
             | Ok c => c
             | Throw _ =>
                 {| cfg_method := VNull; cfg_url := EmptyString; cfg_headers := [];
                    cfg_timeout := 0; cfg_validateStatus := fun _ => true;
                    cfg_maxRedirects := 0; cfg_data := None |}
             end)
            sample_heap _ 1%nat 1%Z 2%nat _ _ _ _); reflexivity.
Defined.

(** ** The analyzers keep no state *)

Lemma sql_state_kept (response : Response) (payload : string) (o : option Z) :
  snd (Sql.analyzeResponse Sql.init response payload o) = Sql.init.
Proof.
  unfold Sql.analyzeResponse.
  destruct (Sql.isWAFBlocked _ _); [reflexivity|].
  destruct (_ && _ && _)%bool; [reflexivity|].
  assert (H1 : forallb (fun r => negb (Regex.global r))
                 (Sql.sqlErrorPatterns Sql.init) = true) by (vm_compute; reflexivity).
  assert (H2 : forallb (fun r => negb (Regex.global r))
                 (Sql.successPatterns Sql.init) = true) by (vm_compute; reflexivity).
  pose proof (first_match_not_global _ (responseBody response) H1) as E1.
  pose proof (first_match_not_global _ (responseBody response) H2) as E2.
  destruct (Regex.first_match (Sql.sqlErrorPatterns Sql.init) _) as [hit1 t1].
  destruct (Regex.first_match (Sql.successPatterns Sql.init) _) as [hit2 t2].
  cbn [snd] in *. now subst.
Qed.

Lemma cmd_state_kept (response : Response) (payload : string) (o t : option Z) :
  snd (Cmd.analyzeResponse Cmd.init response payload o t) = Cmd.init.
Proof.
  unfold Cmd.analyzeResponse.
  destruct (Cmd.isWAFBlocked _ _); [reflexivity|].
  destruct (_ && _)%bool; [reflexivity|].
  assert (H1 : forallb (fun r => negb (Regex.global r))
                 (Cmd.commandOutputPatterns Cmd.init) = true)
    by (vm_compute; reflexivity).
  pose proof (first_match_not_global _ (responseBody response) H1) as E1.
  destruct (Regex.first_match (Cmd.commandOutputPatterns Cmd.init) _) as [hit1 t1].
  cbn [snd] in *. now subst.
Qed.

Lemma path_state_kept (response : Response) (payload : string) (o : option Z) :
  snd (Path.analyzeResponse Path.init response payload o) = Path.init.
Proof.
  unfold Path.analyzeResponse.
  destruct (Path.isWAFBlocked _ _); [reflexivity|].
  destruct (_ || _ || _)%bool; [reflexivity|].
  assert (H1 : forallb (fun r => negb (Regex.global r))
                 (Path.fileContentPatterns Path.init) = true)
    by (vm_compute; reflexivity).
  assert (H2 : forallb (fun r => negb (Regex.global r))
                 (Path.errorPatterns Path.init) = true) by (vm_compute; reflexivity).
  pose proof (first_match_not_global _ (responseBody response) H1) as E1.
  pose proof (first_match_not_global _ (responseBody response) H2) as E2.
  destruct (Regex.first_match (Path.fileContentPatterns Path.init) _) as [hit1 t1].
  destruct (Regex.first_match (Path.errorPatterns Path.init) _) as [hit2 t2].
  cbn [snd] in *. now subst.
Qed.

Lemma nosql_state_kept (response : Response) (payload : string) (o : option Z) :
  snd (NoSql.analyzeResponse NoSql.init response payload o) = NoSql.init.
Proof.
  unfold NoSql.analyzeResponse.
  destruct (NoSql.isWAFBlocked _ _); [reflexivity|].
  destruct (_ && _)%bool; [reflexivity|].
  assert (H1 : forallb (fun r => negb (Regex.global r))
                 (NoSql.vulnerabilityPatterns NoSql.init) = true)
    by (vm_compute; reflexivity).
  assert (H2 : forallb (fun r => negb (Regex.global r))
                 (NoSql.successPatterns NoSql.init) = true)
    by (vm_compute; reflexivity).
  pose proof (first_match_not_global _ (responseBody response) H1) as E1.
  pose proof (first_match_not_global _ (responseBody response) H2) as E2.
  destruct (Regex.first_match (NoSql.vulnerabilityPatterns NoSql.init) _) as [hit1 t1].
  destruct (status response =? 200)%Z.
  - destruct (Regex.first_match (NoSql.successPatterns NoSql.init) _) as [hit2 t2].
    cbn [snd] in *. now subst.
  - cbn [snd] in *. now subst.
Qed.

Lemma malformed_state_kept (response : Response) (payload : string) (o : option Z) :
  snd (Malformed.analyzeResponse Malformed.init response payload o) = Malformed.init.
Proof.
  unfold Malformed.analyzeResponse.
  assert (H1 : forallb (fun r => negb (Regex.global r))
                 (Malformed.verboseErrorPatterns Malformed.init) = true)
    by (vm_compute; reflexivity).
  pose proof (first_match_not_global _ (responseBody response) H1) as E1.
  destruct (Regex.first_match (Malformed.verboseErrorPatterns Malformed.init) _)
    as [hit1 t1].
  cbn [snd] in *. subst.
  destruct (status response =? 400)%Z; [reflexivity|].
  destruct (status response =? 500)%Z; reflexivity.
Qed.

(** X21.  No analyzer leaves state behind.  A call of the
    [analyzeResponse] of any of the ten analyzers, on any arguments,
    returns the pattern tables of the modules as they are when the modules
    are loaded: no analyzer tests a pattern that has the [g] flag, the one
    kind of pattern whose [lastIndex] a test changes (the table of such
    patterns in [xss.js] is never consulted). *)
Theorem analyzers_leave_tables_as_loaded (scanner : Scanner) (response : Response)
        (payload : string) (originalStatus responseTime : option Z) :
  In scanner scanners ->
  snd (analyzeResponse scanner response payload originalStatus responseTime modules0)
  = modules0.
Proof.
  intros Hin.
  unfold scanners in Hin. cbn [In] in Hin.
  destruct Hin as [<-|[<-|[<-|[<-|[<-|[<-|[<-|[<-|[<-|[<-|[]]]]]]]]]]];
    cbn [analyzeResponse sqlScanner xssScanner commandInjectionScanner
         pathTraversalScanner nosqlInjectionScanner headerInjectionScanner
         rateLimitingScanner malformedPayloadScanner httpMethodScanner
         payloadSizeScanner ret snd];
    try reflexivity.
  - pose proof (sql_state_kept response payload originalStatus) as E.
    cbn [sql modules0].
    destruct (Sql.analyzeResponse Sql.init response payload originalStatus).
    cbn [snd] in *. now subst.
  - pose proof (cmd_state_kept response payload originalStatus responseTime) as E.
    cbn [cmd modules0].
    destruct (Cmd.analyzeResponse Cmd.init response payload originalStatus
                responseTime).
    cbn [snd] in *. now subst.
  - pose proof (path_state_kept response payload originalStatus) as E.
    cbn [path modules0].
    destruct (Path.analyzeResponse Path.init response payload originalStatus).
    cbn [snd] in *. now subst.
  - pose proof (nosql_state_kept response payload originalStatus) as E.
    cbn [nosql modules0].
    destruct (NoSql.analyzeResponse NoSql.init response payload originalStatus).
    cbn [snd] in *. now subst.
  - pose proof (malformed_state_kept response payload originalStatus) as E.
    cbn [malformed modules0].
    destruct (Malformed.analyzeResponse Malformed.init response payload
                originalStatus).
    cbn [snd] in *. now subst.
Qed.

Lemma analyzers_leave_tables_as_loaded_witness :
  snd (analyzeResponse sqlScanner login_sample "' OR '1'='1" None None modules0)
  = modules0.
Proof.
  refine (analyzers_leave_tables_as_loaded sqlScanner login_sample "' OR '1'='1"
            None None _).
  left. reflexivity.
Defined.

(** The state that [test] keeps for a pattern with the [g] flag is real in
    this model: the same call on the same text answers differently the
    second time.  No analyzer calls [test] on such a pattern. *)
Lemma global_pattern_remembers :
  let r := Regex.regexp true true "javascript:" in
  fst (Regex.test r "javascript:alert(1)") = true
  /\ fst (Regex.test (snd (Regex.test r "javascript:alert(1)")) "javascript:alert(1)")
     = false.
Proof. vm_compute. split; reflexivity. Qed.

(** ** Loops *)

(** A loop whose body adds at most [k] to a measure of its variables adds
    at most [k] times the number of its rounds. *)
Lemma forEach_bound {St A B : Type} (size : B -> nat) (f : B -> A -> M St B)
      (k : nat) :
  (forall acc a s,
     match f acc a s with
     | (Ok acc', _) => (size acc' <= size acc + k)%nat
     | (Throw _, _) => True
     end) ->
  forall l acc s,
    match forEach l f acc s with
    | (Ok acc', _) => (size acc' <= size acc + k * List.length l)%nat
    | (Throw _, _) => True
    end.
Proof.
  intros Hf l. induction l as [|a l IH]; intros acc s; cbn [forEach].
  - unfold ret. lia.
  - unfold bind. specialize (Hf acc a s).
    destruct (f acc a s) as [[acc1|e] s1]; [|exact I].
    specialize (IH acc1 s1).
    destruct (forEach l f acc1 s1) as [[acc2|e] s2]; [|exact I].
    cbn [List.length]. lia.
Qed.

(** A loop whose body never throws never throws; [Inv n] holds of its
    variables after [n] rounds. *)
Lemma forEach_total {St A B : Type} (f : B -> A -> M St B) (Inv : nat -> B -> Prop)
      (Good : A -> Prop) :
  (forall n acc a s, Inv n acc -> Good a ->
     exists acc' s', f acc a s = (Ok acc', s') /\ Inv (S n) acc') ->
  forall l n acc s, Inv n acc -> Forall Good l ->
    exists acc' s', forEach l f acc s = (Ok acc', s')
                    /\ Inv (n + List.length l)%nat acc'.
Proof.
  intros Hf l. induction l as [|a l IH]; intros n acc s Hinv Hgood; cbn [forEach].
  - unfold ret. cbn [List.length]. rewrite Nat.add_0_r. eauto.
  - apply Forall_cons in Hgood. destruct Hgood as [Ha Hl].
    unfold bind. destruct (Hf n acc a s Hinv Ha) as (acc1 & s1 & -> & Hinv1).
    cbn [List.length]. rewrite <- Nat.add_succ_comm.
    apply IH; assumption.
Qed.

(** ** The volume of a scan *)

(** One probe adds one test record and one to the count of tests. *)
Lemma probe_adds_one {World : Type} (P : Platform World) (scanner : Scanner)
      (payload : string) (baseline : option Baseline) (results : EndpointResult)
      (injectedEndpoint : value) (s : State World) :
  match probe P scanner payload baseline results injectedEndpoint s with
  | (Ok r, _) =>
      List.length (tests r) = S (List.length (tests results))
      /\ total (summary r) = S (total (summary results))
  | (Throw _, _) => True
  end.
Proof.
  unfold probe, bind at 1.
  destruct (liftH (get_prop injectedEndpoint "injectionPoint") s)
    as [[point|e] s1]; [|exact I].
  unfold bind at 1, try_catch.
  match goal with
  | |- context [bind (liftW (Date_now P)) ?k s1] =>
      destruct (bind (liftW (Date_now P)) k s1) as [[[r pause]|e] s2] eqn:Hbody
  end.
  - (* the [try] block ended: it added one record *)
    assert (Hr : List.length (tests r) = S (List.length (tests results))
                 /\ total (summary r) = S (total (summary results))).
    { revert Hbody. unfold bind, liftW, liftH, liftA, ret.
      destruct (Date_now P (world s1)) as [t0 w1]. cbn [objects modules world].
      destruct (sendRequest P injectedEndpoint _) as [[sent|e] s3]; [|discriminate].
      destruct (get_prop injectedEndpoint "url" (objects s3)) as [[u|e] h3];
        [|discriminate].
      cbn [objects modules world].
      destruct (get_prop injectedEndpoint "method" h3) as [[mt|e] h4];
        [|discriminate].
      cbn [objects modules world].
      destruct (Date_toISOString P (world s3)) as [stamp w4].
      cbn [objects modules world].
      destruct (match error sent with
                | Some e => negb (String.eqb e EmptyString) && negb (success sent)
                | None => false
                end).
      - intros [= <- <- <-]. cbn. rewrite length_app. cbn. split; lia.
      - destruct (analyzeResponse scanner _ _ _ _ _) as [[analysis|e] ms];
          [|discriminate].
        intros [= <- <- <-]. destruct (vulnerable analysis); cbn;
          rewrite length_app; cbn; split; lia. }
    destruct pause; unfold bind, liftW, ret; cbn; exact Hr.
  - (* the [catch] block: it adds one record *)
    unfold bind, liftW, ret.
    destruct (Date_toISOString P (world s2)) as [stamp w3]. cbn.
    rewrite length_app. cbn. split; lia.
Qed.

Lemma firstn_length_le {A : Type} (n : nat) (l : list A) :
  (List.length (firstn n l) <= n)%nat.
Proof. rewrite length_firstn. lia. Qed.

(** The three loops of [scanEndpoint], for any measure that a probe raises
    by at most one: at most 2 probes for each of at most 3 payloads of each
    analyzer in use. *)
Lemma scan_loops_bound {World : Type} (P : Platform World) (size : EndpointResult -> nat)
      (endpoint : value) (opts : Options) (baseline : option Baseline) :
  maxPayloadsOf opts = 3%Z ->
  (forall scanner payload results injectedEndpoint s,
     match probe P scanner payload baseline results injectedEndpoint s with
     | (Ok r, _) => (size r <= size results + 1)%nat
     | (Throw _, _) => True
     end) ->
  forall results s,
    match
      forEach (scannersToUse opts)
        (fun results scanner =>
           forEach (slice0 (maxPayloadsOf opts) (getPayloads scanner))
             (fun results payload =>
                let* injectedEndpoints :=
                  liftH (injectPayload endpoint payload (injectLocationOf opts)) in
                forEach (firstn 2 injectedEndpoints) (probe P scanner payload baseline)
                  results)
             results)
        results s
    with
    | (Ok r, _) =>
        (size r <= size results + 6 * List.length (scannersToUse opts))%nat
    | (Throw _, _) => True
    end.
Proof.
  intros Hmax Hprobe. rewrite Hmax.
  apply forEach_bound. intros results scanner s.
  assert (Hbody : forall acc payload s0,
            match
              (let* injectedEndpoints :=
                 liftH (injectPayload endpoint payload (injectLocationOf opts)) in
               forEach (firstn 2 injectedEndpoints)
                 (probe P scanner payload baseline) acc) s0
            with
            | (Ok acc', _) => (size acc' <= size acc + 2)%nat
            | (Throw _, _) => True
            end).
  { intros acc payload s0. unfold bind.
    destruct (liftH (injectPayload endpoint payload (injectLocationOf opts)) s0)
      as [[injected|e] s1]; [|exact I].
    pose proof (forEach_bound size (probe P scanner payload baseline) 1
                  (Hprobe scanner payload) (firstn 2 injected) acc s1) as Hinner.
    destruct (forEach (firstn 2 injected) _ acc s1) as [[r|e] s2]; [|exact I].
    pose proof (firstn_length_le 2 injected). lia. }
  pose proof (forEach_bound size _ 2 Hbody (slice0 3 (getPayloads scanner)) results s)
    as Hpayloads.
  cbv beta in Hpayloads.
  destruct (forEach (slice0 3 (getPayloads scanner)) _ results s) as [[r|e] s1];
    [|exact I].
  assert (List.length (slice0 3 (getPayloads scanner)) <= 3)%nat
    by (unfold slice0; cbn; apply firstn_length_le).
  lia.
Qed.

(** At most one analyzer has a given type. *)
Lemma scanners_of_one_type (t : string) :
  (List.length (List.filter (fun s => existsb (String.eqb (getType s)) [t]) scanners)
   <= 1)%nat.
Proof.
  assert (Hgen : forall (p : Scanner -> bool) (l : list Scanner),
            (forall s, p s = true -> getType s = t) ->
            List.NoDup (List.map getType l) ->
            (List.length (List.filter p l) <= 1)%nat).
  { intros p l Hp. induction l as [|x l IH]; intros Hnd; [cbn; lia|].
    inversion Hnd as [|? ? Hnotin Hnd']; subst.
    cbn [List.filter]. destruct (p x) eqn:Hx; [|apply IH; exact Hnd'].
    destruct (List.filter p l) as [|y ys] eqn:Hrest; [cbn; lia|].
    exfalso. apply Hnotin.
    assert (Hy : List.In y (List.filter p l)) by (rewrite Hrest; left; reflexivity).
    apply List.filter_In in Hy. destruct Hy as [Hin Hpy].
    rewrite (Hp x Hx), <- (Hp y Hpy). apply List.in_map. exact Hin. }
  apply Hgen.
  - intros s H. cbn in H. rewrite orb_false_r in H. now apply String.eqb_eq.
  - cbn. repeat (constructor; [cbn; intros H;
      repeat (destruct H as [H|H]; [discriminate|]); exact H |]).
    constructor.
Qed.

(** At most six probes of an endpoint when one type is selected and the
    payload limit is 3. *)
Lemma scanEndpoint_bound {World : Type} (P : Platform World) (endpoint : value)
      (t : string) (location : option string) (s : State World) :
  match scanEndpoint P endpoint
          {| scanTypes := Some [t]; maxPayloads := Some 3%Z;
             injectLocation := location |} s with
  | (Ok r, _) =>
      (List.length (tests r) <= 6)%nat /\ (total (summary r) <= 6)%nat
  | (Throw _, _) => True
  end.
Proof.
  set (opts := {| scanTypes := Some [t]; maxPayloads := Some 3%Z;
                  injectLocation := location |}).
  unfold scanEndpoint. unfold bind at 1.
  destruct (liftH (get_prop endpoint "method") s) as [[mt|e] s1]; [|exact I].
  unfold bind at 1.
  destruct (liftH (get_prop endpoint "url") s1) as [[u|e] s2]; [|exact I].
  unfold bind at 1.
  destruct (liftH (get_prop endpoint "name") s2) as [[nm|e] s3]; [|exact I].
  unfold bind at 1.
  destruct (try_catch _ _ s3) as [[baseline|e] s4]; [|exact I].
  assert (Hone : (List.length (scannersToUse opts) <= 1)%nat)
    by (apply scanners_of_one_type).
  match goal with
  | |- match forEach _ _ ?r0 s4 with _ => _ end => set (results := r0)
  end.
  pose proof (scan_loops_bound P (fun r => List.length (tests r)) endpoint opts
                baseline eq_refl) as B1.
  pose proof (scan_loops_bound P (fun r => total (summary r)) endpoint opts
                baseline eq_refl) as B2.
  assert (Hp1 : forall scanner payload results ie s0,
            match probe P scanner payload baseline results ie s0 with
            | (Ok r, _) =>
                (List.length (tests r) <= List.length (tests results) + 1)%nat
            | (Throw _, _) => True
            end).
  { intros scanner payload r0 ie s0.
    pose proof (probe_adds_one P scanner payload baseline r0 ie s0) as H.
    destruct (probe P scanner payload baseline r0 ie s0) as [[r|e] s5];
      [|exact I]. lia. }
  assert (Hp2 : forall scanner payload results ie s0,
            match probe P scanner payload baseline results ie s0 with
            | (Ok r, _) => (total (summary r) <= total (summary results) + 1)%nat
            | (Throw _, _) => True
            end).
  { intros scanner payload r0 ie s0.
    pose proof (probe_adds_one P scanner payload baseline r0 ie s0) as H.
    destruct (probe P scanner payload baseline r0 ie s0) as [[r|e] s5];
      [|exact I]. lia. }
  specialize (B1 Hp1 results s4). specialize (B2 Hp2 results s4).
  cbv beta in B1, B2.
  destruct (forEach (scannersToUse opts) _ results s4) as [[r|e] s5]; [|exact I].
  subst results. cbn [tests summary total List.length] in B1, B2. lia.
Qed.

Lemma get_prop_total (v : value) (k : string) (h : heap) :
  v <> VUndefined -> v <> VNull -> exists x, get_prop v k h = (Ok x, h).
Proof.
  intros Hu Hn. unfold get_prop.
  destruct v; try congruence; eauto.
  destruct (h !! l) as [[ps|vs extra]|]; eauto.
Qed.

Lemma count_tests_add (r : EndpointResult) (report : ScanReport) :
  count_tests (add_endpoint r report)
  = (count_tests report + List.length (tests r))%nat.
Proof.
  unfold count_tests, add_endpoint. cbn [endpoints].
  rewrite List.map_app, list_sum_app. cbn. lia.
Qed.

Lemma scanOne_volume {World : Type} (P : Platform World) (count : nat) (t : string)
      (location : option string)
      (progressCallback : option (ProgressEvent -> World -> World))
      (n : nat) (acc : ScanReport * nat) (endpoint : value) (s : State World) :
  volume_kept n acc ->
  endpoint <> VUndefined /\ endpoint <> VNull ->
  exists acc' s',
    scanOne P count
      {| scanTypes := Some [t]; maxPayloads := Some 3%Z; injectLocation := location |}
      progressCallback acc endpoint s = (Ok acc', s')
    /\ volume_kept (S n) acc'.
Proof.
  intros (Hlen & Hcount & Htotal) [Hu Hn]. destruct acc as [report i].
  cbn [fst] in *. unfold scanOne.
  unfold bind at 1, liftH at 1.
  destruct (get_prop_total endpoint "method" (objects s) Hu Hn) as [mt ->].
  unfold bind at 1, liftH at 1. cbn [objects].
  destruct (get_prop_total endpoint "url" (objects s) Hu Hn) as [u ->].
  unfold bind at 1.
  match goal with
  | |- context [match ?c ?st with _ => _ end] =>
      assert (Hcb : exists s1, c st = (Ok tt, s1))
  end.
  { destruct progressCallback as [callback|]; [|unfold ret; eauto].
    unfold bind, liftH, liftW. cbn [objects].
    destruct (get_prop_total endpoint "name" (objects s) Hu Hn) as [nm ->].
    cbn. eauto. }
  destruct Hcb as [s1 ->].
  unfold bind at 1, try_catch, bind at 1.
  pose proof (scanEndpoint_bound P endpoint t location s1) as Hbound.
  destruct (scanEndpoint P endpoint _ s1) as [[r|e] s2].
  - unfold ret. eexists _, _. split; [reflexivity|].
    destruct Hbound as [Ht Hs].
    unfold volume_kept. cbn [fst]. unfold record_endpoint, set_scan_summary.
    cbn [endpoints scan_summary totalTests].
    repeat split.
    + unfold add_endpoint. cbn [endpoints]. rewrite length_app. cbn. lia.
    + change (count_tests (add_endpoint r report) <= S n * 3 * 2)%nat.
      rewrite count_tests_add. lia.
    + unfold add_endpoint. cbn [scan_summary]. lia.
  - unfold bind, liftH.
    destruct (get_prop_total endpoint "name" (objects s2) Hu Hn) as [nm ->].
    unfold ret. eexists _, _. split; [reflexivity|].
    unfold volume_kept. cbn [fst]. unfold record_failure, set_scan_summary.
    cbn [endpoints scan_summary totalTests].
    repeat split.
    + unfold add_endpoint. cbn [endpoints]. rewrite length_app. cbn. lia.
    + match goal with
      | |- (count_tests ?rep <= _)%nat =>
          change rep with
            (set_scan_summary
               (fun s0 =>
                  {| totalEndpoints := totalEndpoints s0; totalTests := totalTests s0;
                     totalPassed := totalPassed s0; totalFailed := totalFailed s0;
                     totalErrors := S (totalErrors s0);
                     vulnerabilities := vulnerabilities s0 |})
               (add_endpoint
                  {| api := or_value nm u; method := mt; url := u;
                     scan_error := Some e; tests := [];
                     summary := {| total := 0; passed := 0; failed := 0;
                                   errors := 1 |} |} report))
      end.
      unfold count_tests, set_scan_summary, add_endpoint. cbn [endpoints].
      rewrite List.map_app, list_sum_app. cbn.
      unfold count_tests in Hcount. lia.
    + unfold add_endpoint. cbn [scan_summary]. lia.
Qed.

(** C5.  Over a list of [N] endpoints, none of them [undefined] or [null],
    with the scan types restricted to one type and [maxPayloads = 3],
    [runScan] returns a report with one result for each endpoint and at
    most [N * 3 * 2] test records in all, the records of failed requests
    and of failed tests among them; the count of tests in its summary is
    within the same bound. *)
Theorem runScan_volume {World : Type} (P : Platform World) (endpointList : list value)
        (t : string) (location : option string)
        (progressCallback : option (ProgressEvent -> World -> World))
        (s : State World) :
  Forall (fun endpoint => endpoint <> VUndefined /\ endpoint <> VNull) endpointList ->
  exists report s',
    runScan P endpointList
      {| scanTypes := Some [t]; maxPayloads := Some 3%Z; injectLocation := location |}
      progressCallback s = (Ok report, s')
    /\ List.length (endpoints report) = List.length endpointList
    /\ (count_tests report <= List.length endpointList * 3 * 2)%nat
    /\ (totalTests (scan_summary report) <= List.length endpointList * 3 * 2)%nat.
Proof.
  intros Hgood. unfold runScan.
  unfold bind at 1, liftW at 1. destruct (Date_now P (world s)) as [t0 w0].
  unfold bind at 1, liftW at 1. cbn [world objects modules].
  destruct (uuid_v4 P w0) as [id w1].
  unfold bind at 1, liftW at 1. cbn [world objects modules].
  destruct (Date_toISOString P w1) as [stamp w2].
  unfold bind at 1.
  match goal with
  | |- context [forEach endpointList ?f ?acc0 ?s0] =>
      destruct (forEach_total f volume_kept
                  (fun endpoint => endpoint <> VUndefined /\ endpoint <> VNull)
                  (fun n acc a s1 Hinv Ha =>
                     scanOne_volume P (List.length endpointList) t location
                       progressCallback n acc a s1 Hinv Ha)
                  endpointList 0%nat acc0 s0)
        as (done & s3 & -> & Hlen & Hcount & Htotal)
  end.
  - unfold volume_kept. cbn. repeat split; lia.
  - exact Hgood.
  - unfold bind, liftW. destruct (Date_now P (world s3)) as [t1 w3].
    unfold ret. eexists _, _. split; [reflexivity|].
    cbn [endpoints scan_summary]. cbn [Nat.add] in *.
    repeat split; assumption.
Qed.

Lemma runScan_volume_witness :
  exists report s',
    runScan online [sample_ref]
      {| scanTypes := Some ["SQL Injection"]; maxPayloads := Some 3%Z;
         injectLocation := None |}
      None sample_state = (Ok report, s')
    /\ List.length (endpoints report) = List.length [sample_ref]
    /\ (count_tests report <= List.length [sample_ref] * 3 * 2)%nat
    /\ (totalTests (scan_summary report) <= List.length [sample_ref] * 3 * 2)%nat.
Proof.
  refine (runScan_volume online [sample_ref] "SQL Injection" None None sample_state _).
  constructor; [|constructor].
  split; intros H; vm_compute in H; discriminate.
Defined.

(** ** What the analyzers can report *)

(** X1.  The rate-limit analyzer reports no vulnerability, whatever the
    response, the payload, the baseline and the time: its verdict is never
    FAIL.  For a response whose data is ASCII text, or JSON data of ASCII
    strings and of integers that JavaScript holds exactly, its confidence
    is high when the status is 429 or the response is taken as blocked, and
    low otherwise. *)
Theorem rate_never_vulnerable (response : Response) (payload : string)
        (originalStatus responseTime : option Z) :
  let r := Rate.analyzeResponse response payload originalStatus responseTime in
  vulnerable r = false
  /\ (JSON.plain (data response) = true ->
      confidence r
      = if (status response =? 429)%Z
           || Rate.isWAFBlocked response (responseBody response)
        then high else low).
Proof.
  cbv zeta. unfold Rate.analyzeResponse.
  destruct (status response =? 429)%Z; [split; reflexivity|].
  destruct (Rate.isWAFBlocked response (responseBody response));
    [split; reflexivity|].
  cbn [orb].
  destruct (0 <? _)%nat.
  - destruct (if header_truthy _ then _ else _); split; reflexivity.
  - destruct (status response =? 200)%Z; split; reflexivity.
Qed.

Lemma rate_never_vulnerable_witness :
  let response :=
    {| status := 403; data := JStr "Access Denied - request blocked"; headers := [] |} in
  confidence (Rate.analyzeResponse response "burst" None None)
  = if (status response =? 429)%Z
       || Rate.isWAFBlocked response (responseBody response)
    then high else low.
Proof.
  refine (proj2 (rate_never_vulnerable
                   {| status := 403; data := JStr "Access Denied - request blocked";
                      headers := [] |} "burst" None None) _).
  reflexivity.
Defined.

(** An indicator that differs from every indicator of a result in its
    first characters is not in the result. *)
Ltac absent_indicator :=
  let H := fresh "H" in
  intros H; cbn in H;
  repeat (destruct H as [H|H]; [discriminate H|]);
  exact H.

(** The XSS analyzer takes a body that holds the payload as a reflection. *)
Lemma includes_is_reflected (body payload : string) :
  Str.includes body payload = true -> Xss.isPayloadReflected body payload = true.
Proof. intros H. unfold Xss.isPayloadReflected. now rewrite H. Qed.

(** X2.  For a response whose data is ASCII text, or JSON data of ASCII
    strings and of integers that JavaScript holds exactly, and a payload
    that is ASCII text: the XSS analyzer reports a vulnerability exactly
    when the response is not taken as blocked, is not an error that says so
    in its body, and reflects the payload (as it is, URI-decoded, or with
    its HTML entities decoded); the confidence is then high when a
    dangerous pattern of the payload is in the body and medium otherwise.
    The rule on the exact payload in a 200 response never fires: its
    indicator is in no result. *)
Theorem xss_vulnerable_iff_reflected (response : Response) (payload : string)
        (originalStatus : option Z) :
  JSON.plain (data response) = true ->
  Str.is_ascii payload = true ->
  let body := responseBody response in
  let rejected :=
    ((400 <=? status response) && (status response <? 600))%Z
    && some_included (Str.toLowerCase body)
         [ "invalid"; "error"; "bad request"; "not allowed"; "rejected" ] in
  let r := Xss.analyzeResponse response payload originalStatus in
  vulnerable r
  = negb (Xss.isWAFBlocked response body) && negb rejected
    && Xss.isPayloadReflected body payload
  /\ (vulnerable r = true ->
      confidence r
      = if (0 <? List.length (Xss.checkDangerousContent body payload))%nat
        then high else medium)
  /\ ~ In "⚠️ Exact payload found in 200 OK response" (indicators r).
Proof.
  intros _ _. cbv zeta. unfold Xss.analyzeResponse.
  destruct (Xss.isWAFBlocked response (responseBody response)).
  { cbn. repeat split; try discriminate. absent_indicator. }
  destruct (_ && _ && some_included _ _)%bool.
  { cbn. repeat split; try discriminate. absent_indicator. }
  cbn [negb andb].
  destruct (Xss.isPayloadReflected (responseBody response) payload) eqn:Hrefl.
  - destruct (0 <? List.length (Xss.checkDangerousContent _ _))%nat eqn:Hdanger.
    + cbn [set_vulnerable set_confidence push_indicator set_notes vulnerable
           negb andb].
      destruct (_ && true)%bool; cbn; repeat split; try reflexivity;
        absent_indicator.
    + cbn [finding set_vulnerable set_confidence push_indicator set_notes
           vulnerable negb andb].
      destruct (_ && true)%bool; cbn; repeat split; try reflexivity;
        absent_indicator.
  - assert (Hinc : Str.includes (responseBody response) payload = false).
    { destruct (Str.includes (responseBody response) payload) eqn:E;
        [|reflexivity].
      rewrite (includes_is_reflected _ _ E) in Hrefl. discriminate. }
    cbn [set_vulnerable set_confidence push_indicator set_notes vulnerable
         negb andb].
    rewrite Hinc.
    destruct (status response =? 200)%Z; cbn [andb vulnerable];
      rewrite andb_false_r; cbn; repeat split; try discriminate;
      absent_indicator.
Qed.

(** A body that is [null] is read as the text of two quotes, which holds
    the payload of one quote. *)
Lemma xss_vulnerable_iff_reflected_witness :
  let response := {| status := 200; data := JNull; headers := [] |} in
  let payload := Str.dq in
  let body := responseBody response in
  let rejected :=
    ((400 <=? status response) && (status response <? 600))%Z
    && some_included (Str.toLowerCase body)
         [ "invalid"; "error"; "bad request"; "not allowed"; "rejected" ] in
  let r := Xss.analyzeResponse response payload None in
  vulnerable r
  = negb (Xss.isWAFBlocked response body) && negb rejected
    && Xss.isPayloadReflected body payload
  /\ (vulnerable r = true ->
      confidence r
      = if (0 <? List.length (Xss.checkDangerousContent body payload))%nat
        then high else medium)
  /\ ~ In "⚠️ Exact payload found in 200 OK response" (indicators r).
Proof.
  refine (xss_vulnerable_iff_reflected
            {| status := 200; data := JNull; headers := [] |} Str.dq None _ _);
    reflexivity.
Defined.

(** X3.  The verdict of the malformed-payload analyzer by status, for a
    response whose data is ASCII text, or JSON data of ASCII strings and of
    integers that JavaScript holds exactly: a response with status 400 is
    never reported; a response with status 500 is always reported, with
    confidence high when a pattern of verbose errors matches the body and
    medium when none does; any other status is reported, with confidence
    medium, exactly when such a pattern matches. *)
Theorem malformed_verdict (m : Malformed.state) (response : Response)
        (payload : string) (originalStatus : option Z) :
  JSON.plain (data response) = true ->
  let r := fst (Malformed.analyzeResponse m response payload originalStatus) in
  let verbose :=
    match fst (Regex.first_match (Malformed.verboseErrorPatterns m)
                 (responseBody response)) with
    | Some _ => true
    | None => false
    end in
  vulnerable r
  = (if (status response =? 400)%Z then false
     else if (status response =? 500)%Z then true
     else verbose)
  /\ confidence r
     = (if (status response =? 400)%Z then low
        else if (status response =? 500)%Z then (if verbose then high else medium)
        else if verbose then medium else low).
Proof.
  intros _. cbv zeta. unfold Malformed.analyzeResponse.
  destruct (Regex.first_match (Malformed.verboseErrorPatterns m) _) as [hit table].
  cbn [fst].
  destruct (status response =? 400)%Z; [destruct hit; split; reflexivity|].
  destruct (status response =? 500)%Z; destruct hit; split; reflexivity.
Qed.

Lemma malformed_verdict_witness :
  let response :=
    {| status := 200;
       data := JObj [ ("error", JStr "TypeError: x is undefined");
                      ("stack", JStr "stack trace: at handler (/app/server.js:10:5)") ];
       headers := [] |} in
  let r := fst (Malformed.analyzeResponse Malformed.init response "{{{" None) in
  let verbose :=
    match fst (Regex.first_match (Malformed.verboseErrorPatterns Malformed.init)
                 (responseBody response)) with
    | Some _ => true
    | None => false
    end in
  vulnerable r
  = (if (status response =? 400)%Z then false
     else if (status response =? 500)%Z then true
     else verbose)
  /\ confidence r
     = (if (status response =? 400)%Z then low
        else if (status response =? 500)%Z then (if verbose then high else medium)
        else if verbose then medium else low).
Proof.
  refine (malformed_verdict Malformed.init
            {| status := 200;
               data := JObj [ ("error", JStr "TypeError: x is undefined");
                              ("stack",
                               JStr "stack trace: at handler (/app/server.js:10:5)") ];
               headers := [] |} "{{{" None _).
  reflexivity.
Defined.

(** X4.  The verdict of the payload-size analyzer: a response is reported
    exactly when its status is neither 413 nor 400 and either the status is
    408, 504, 500, 502 or 503 or the response took more than 10000 ms.  A
    response with status 200 carries the note that the server handled the
    payload, also when it is reported for its time. *)
Theorem payload_size_verdict (response : Response) (payload : string)
        (originalStatus responseTime : option Z) :
  let st := status response in
  let r := PayloadSize.analyzeResponse response payload originalStatus responseTime in
  vulnerable r
  = negb ((st =? 413) || (st =? 400))%Z
    && ((st =? 408) || (st =? 504) || (st =? 500) || (st =? 502) || (st =? 503)
        || match responseTime with
           | Some t => (10000 <? t)
           | None => false
           end)%Z
  /\ (st = 200%Z -> notes r = "SAFE: Server handled large payload").
Proof.
  cbv zeta. unfold PayloadSize.analyzeResponse.
  assert (Hslow : forall limit : Z, (0 < limit)%Z ->
            match responseTime with
            | Some t => negb (t =? 0)%Z && (limit <? t)%Z
            | None => false
            end
            = match responseTime with
              | Some t => (limit <? t)%Z
              | None => false
              end).
  { intros limit Hpos. destruct responseTime as [t|]; [|reflexivity].
    destruct (Z.eqb_spec t 0) as [->|_]; [|reflexivity].
    cbn [negb andb]. symmetry. apply Z.ltb_ge. lia. }
  rewrite !Hslow by lia.
  split.
  - destruct (Z.eqb_spec (status response) 413) as [->|_]; [reflexivity|].
    destruct (Z.eqb_spec (status response) 400) as [->|_]; [reflexivity|].
    destruct (Z.eqb_spec (status response) 408) as [->|_]; [reflexivity|].
    destruct (Z.eqb_spec (status response) 504) as [->|_]; [reflexivity|].
    destruct (Z.eqb_spec (status response) 500) as [->|_]; [reflexivity|].
    destruct (Z.eqb_spec (status response) 502) as [->|_]; [reflexivity|].
    destruct (Z.eqb_spec (status response) 503) as [->|_]; [reflexivity|].
    cbn [orb negb andb].
    destruct responseTime as [t|].
    + destruct (10000 <? t)%Z eqn:E1.
      * destruct (status response =? 200)%Z; reflexivity.
      * destruct (5000 <? t)%Z; destruct (status response =? 200)%Z; reflexivity.
    + destruct (status response =? 200)%Z; reflexivity.
  - intros ->. cbn [Z.eqb Pos.eqb orb].
    destruct responseTime as [t|]; [|reflexivity].
    destruct (10000 <? t)%Z; [reflexivity|].
    destruct (5000 <? t)%Z; reflexivity.
Qed.

(** X5.  The HTTP-method analyzer has a rule for TRACE, TRACK, OPTIONS,
    DEBUG and the WebDAV methods only: for any other tested method (PUT,
    DELETE, PATCH and CONNECT among its payloads) it returns a result that
    is not vulnerable, with confidence low, whatever the response. *)
Theorem http_method_without_rule (response : Response) (payload : string)
        (originalStatus : option Z) :
  existsb (String.eqb payload) [ "TRACE"; "TRACK"; "OPTIONS"; "DEBUG" ] = false ->
  existsb (String.eqb payload) HttpMethod.webdavMethods = false ->
  exists r,
    HttpMethod.analyzeResponse response payload originalStatus = Ok r
    /\ vulnerable r = false
    /\ confidence r = low.
Proof.
  intros Hrule Hdav. unfold HttpMethod.analyzeResponse. rewrite Hdav.
  cbn [existsb] in Hrule. rewrite !orb_false_r in Hrule.
  apply orb_false_iff in Hrule. destruct Hrule as [Htrace Hrule].
  apply orb_false_iff in Hrule. destruct Hrule as [Htrack Hrule].
  apply orb_false_iff in Hrule. destruct Hrule as [Hoptions Hdebug].
  rewrite Htrace, Htrack, Hoptions, Hdebug. cbn [orb andb].
  destruct (status response =? 405)%Z.
  - destruct (header (headers response) "allow") as [v|];
      [destruct (header_truthy (Some v))|]; eexists; repeat split.
  - eexists; repeat split.
Qed.

Lemma http_method_without_rule_witness :
  exists r,
    HttpMethod.analyzeResponse plain_page_sample "PUT" None = Ok r
    /\ vulnerable r = false
    /\ confidence r = low.
Proof.
  refine (http_method_without_rule plain_page_sample "PUT" None _ _); reflexivity.
Defined.

(** X6.  A client error is never reported by the SQL, command-injection and
    NoSQL analyzers, whatever its body holds: for a status from 400 to 499
    (401 apart for the SQL analyzer) each of them returns not vulnerable
    and leaves its pattern tables as they were. *)
Theorem client_errors_not_reported (response : Response) (payload : string)
        (originalStatus responseTime : option Z) :
  (400 <= status response < 500)%Z ->
  (forall m, status response <> 401%Z ->
     let r := Sql.analyzeResponse m response payload originalStatus in
     vulnerable (fst r) = false /\ snd r = m)
  /\ (forall m,
        let r := Cmd.analyzeResponse m response payload originalStatus responseTime in
        vulnerable (fst r) = false /\ snd r = m)
  /\ (forall m,
        let r := NoSql.analyzeResponse m response payload originalStatus in
        vulnerable (fst r) = false /\ snd r = m).
Proof.
  intros [Hlo Hhi].
  assert (H1 : (400 <=? status response)%Z = true) by (apply Z.leb_le; lia).
  assert (H2 : (status response <? 500)%Z = true) by (apply Z.ltb_lt; lia).
  repeat split.
  - unfold Sql.analyzeResponse. rewrite H1, H2.
    apply Z.eqb_neq in H. rewrite H.
    destruct (Sql.isWAFBlocked _ _); reflexivity.
  - unfold Sql.analyzeResponse. rewrite H1, H2.
    apply Z.eqb_neq in H. rewrite H.
    destruct (Sql.isWAFBlocked _ _); reflexivity.
  - unfold Cmd.analyzeResponse. rewrite H1, H2.
    destruct (Cmd.isWAFBlocked _ _); reflexivity.
  - unfold Cmd.analyzeResponse. rewrite H1, H2.
    destruct (Cmd.isWAFBlocked _ _); reflexivity.
  - unfold NoSql.analyzeResponse. rewrite H1, H2.
    destruct (NoSql.isWAFBlocked _ _); reflexivity.
  - unfold NoSql.analyzeResponse. rewrite H1, H2.
    destruct (NoSql.isWAFBlocked _ _); reflexivity.
Qed.

Lemma client_errors_not_reported_witness :
  let response :=
    {| status := 400;
       data := JStr "You have an error in your SQL syntax near ''' at line 1";
       headers := [] |} in
  (forall m, status response <> 401%Z ->
     let r := Sql.analyzeResponse m response "' OR '1'='1" None in
     vulnerable (fst r) = false /\ snd r = m)
  /\ (forall m,
        let r := Cmd.analyzeResponse m response "' OR '1'='1" None None in
        vulnerable (fst r) = false /\ snd r = m)
  /\ (forall m,
        let r := NoSql.analyzeResponse m response "' OR '1'='1" None in
        vulnerable (fst r) = false /\ snd r = m).
Proof.
  refine (client_errors_not_reported
            {| status := 400;
               data := JStr "You have an error in your SQL syntax near ''' at line 1";
               headers := [] |} "' OR '1'='1" None None _).
  cbn. lia.
Defined.

(** X7.  The header analyzer has a rule for a payload that holds an encoded
    or a raw line break, a script tag, an [onerror] attribute or the
    address 127.0.0.1, and for the payload [evil.com]: for any other payload
    (the SQL texts and [localhost] among its payloads) it returns not
    vulnerable, whatever the response.  When it does report, the body
    holds the payload or a cookie of the response holds one of the words
    [malicious] and [evil]. *)
Theorem header_payload_without_rule (response : Response) (payload : string)
        (originalStatus : option Z) :
  let r := Header.analyzeResponse response payload originalStatus in
  (Str.includes payload "%0d%0a" || Str.includes payload Header.crlf
   || Str.includes payload "<script>" || Str.includes payload "onerror="
   || String.eqb payload "evil.com" || Str.includes payload "127.0.0.1" = false ->
   vulnerable r = false)
  /\ (vulnerable r = true ->
      Str.includes (responseBody response) payload = true
      \/ exists v, header (headers response) "set-cookie" = Some v
                   /\ (hval_includes v "malicious" || hval_includes v "evil") = true).
Proof.
  cbv zeta. unfold Header.analyzeResponse.
  destruct (Header.isWAFBlocked _ _); [split; [reflexivity|discriminate]|].
  split.
  - intros H.
    repeat (apply orb_false_iff in H; destruct H as [H ?]).
    repeat match goal with E : _ = false |- _ => rewrite E; clear E end.
    reflexivity.
  - destruct (Str.includes (responseBody response) payload); [auto|].
    destruct (header (headers response) "set-cookie") as [v|].
    + destruct (hval_includes v "malicious" || hval_includes v "evil") eqn:E.
      * intros _. right. eauto.
      * rewrite andb_false_r.
        destruct (Str.includes payload "%0d%0a" || Str.includes payload Header.crlf);
          destruct (Str.includes payload "<script>" || Str.includes payload "onerror=");
          destruct (String.eqb payload "evil.com" || Str.includes payload "127.0.0.1");
          cbn; intros H; discriminate H.
    + destruct (Str.includes payload "%0d%0a" || Str.includes payload Header.crlf);
        destruct (Str.includes payload "<script>" || Str.includes payload "onerror=");
        destruct (String.eqb payload "evil.com" || Str.includes payload "127.0.0.1");
        cbn; intros H; discriminate H.
Qed.

Lemma header_payload_without_rule_witness :
  vulnerable
    (Header.analyzeResponse
       {| status := 200; data := JStr "Host: localhost"; headers := [] |}
       "localhost" None) = false.
Proof.
  refine (proj1 (header_payload_without_rule
                   {| status := 200; data := JStr "Host: localhost"; headers := [] |}
                   "localhost" None) _).
  vm_compute. reflexivity.
Defined.

(** ** The request that is sent *)

Lemma get_prop_heap (v : value) (k : string) (h : heap) : snd (get_prop v k h) = h.
Proof.
  unfold get_prop. destruct v; try reflexivity.
  destruct (h !! l) as [[ps|vs extra]|]; reflexivity.
Qed.

Lemma keys_heap (v : value) (h : heap) : snd (keys v h) = h.
Proof.
  unfold keys. destruct v; try reflexivity.
  destruct (h !! l) as [[ps|vs extra]|]; reflexivity.
Qed.

Lemma entries_heap (v : value) (h : heap) : snd (entries v h) = h.
Proof.
  unfold entries. destruct v; try reflexivity.
  destruct (h !! l) as [[ps|vs extra]|]; reflexivity.
Qed.

Lemma prefix_append (p a b : string) :
  String.prefix p a = true -> String.prefix p (a ++ b) = true.
Proof.
  revert a. induction p as [|c p IH]; intros a H;
    [destruct a; [destruct b|]; reflexivity|].
  destruct a as [|d a]; simpl in H; [discriminate|].
  simpl. destruct (Ascii.ascii_dec c d); [now apply IH | discriminate].
Qed.

Lemma assoc_set_assoc_kept {A : Type} (k k' : string) (a : A) (l : list (string * A)) :
  assoc k l <> None -> assoc k (set_assoc k' a l) <> None.
Proof.
  induction l as [|[k0 a0] l IH]; cbn; [congruence|].
  destruct (String.eqb_spec k0 k) as [->|Hne].
  - intros _. destruct (String.eqb_spec k k') as [->|Hne'].
    + cbn. rewrite String.eqb_refl. congruence.
    + cbn. rewrite String.eqb_refl. congruence.
  - intros H. destruct (String.eqb_spec k0 k') as [->|Hne'].
    + cbn. destruct (String.eqb_spec k' k) as [->|_]; [congruence|exact H].
    + cbn. destruct (String.eqb_spec k0 k) as [->|_]; [congruence|now apply IH].
Qed.

Lemma assoc_fold_kept {A : Type} (k : string) (own l : list (string * A)) :
  assoc k l <> None ->
  assoc k (List.fold_left (fun acc kv => set_assoc (fst kv) (snd kv) acc) own l) <> None.
Proof.
  revert l. induction own as [|[k' a] own IH]; intros l H; cbn; [exact H|].
  apply IH. now apply assoc_set_assoc_kept.
Qed.



(** ** The counters of a scan *)

(** A loop keeps what its body keeps, as long as it goes on. *)
Lemma forEach_inv {St A B : Type} (f : B -> A -> M St B) (Inv : B -> St -> Prop) :
  (forall acc a s, Inv acc s ->
     match f acc a s with
     | (Ok acc', s') => Inv acc' s'
     | (Throw _, _) => True
     end) ->
  forall l acc s, Inv acc s ->
    match forEach l f acc s with
    | (Ok acc', s') => Inv acc' s'
    | (Throw _, _) => True
    end.
Proof.
  intros Hf l. induction l as [|a l IH]; intros acc s Hinv; cbn [forEach].
  - exact Hinv.
  - unfold bind. specialize (Hf acc a s Hinv).
    destruct (f acc a s) as [[acc1|e] s1]; [|exact I].
    apply IH, Hf.
Qed.

(** A loop stops at the first round that throws. *)
Lemma forEach_throws {St A B : Type} (f : B -> A -> M St B) (a : A) (l : list A) :
  (forall acc s, exists e s', f acc a s = (Throw e, s')) ->
  In a l ->
  forall acc s, exists e s', forEach l f acc s = (Throw e, s').
Proof.
  intros Ha. induction l as [|x l IH]; intros Hin acc s; [destruct Hin|].
  cbn [forEach]. unfold bind. destruct Hin as [->|Hin].
  - destruct (Ha acc s) as (e & s' & ->). eauto.
  - destruct (f acc x s) as [[acc1|e] s1]; [apply IH, Hin | eauto].
Qed.

Lemma count_verdict_app (v : Verdict) (a b : list TestRecord) :
  count_verdict v (a ++ b) = (count_verdict v a + count_verdict v b)%nat.
Proof. unfold count_verdict. now rewrite List.filter_app, length_app. Qed.

(** [sendRequest] returns in every state, and changes neither the objects
    nor the tables of the analyzers. *)
Lemma requestConfig_heap {World : Type} (P : Platform World) (endpoint : value)
      (h : heap) :
  snd (requestConfig P endpoint h) = h.
Proof.
  unfold requestConfig, bind.
  pose proof (get_prop_heap endpoint "url" h) as E.
  destruct (get_prop endpoint "url" h) as [[u|e] h1]; cbn [snd] in E; subst h1;
    [|reflexivity].
  destruct u; try (unfold throw; reflexivity).
  unfold ret at 1; cbv beta iota.
  pose proof (get_prop_heap endpoint "queryParams" h) as E.
  destruct (get_prop endpoint "queryParams" h) as [[q|e] h1]; cbn [snd] in E;
    subst h1; [|reflexivity].
  assert (En : snd ((if to_boolean q then keys q else ret []) h) = h)
    by (destruct (to_boolean q); [apply keys_heap | reflexivity]).
  destruct ((if to_boolean q then keys q else ret []) h) as [[names|e] h1];
    cbn [snd] in En; subst h1; [|reflexivity].
  destruct (0 <? List.length names)%nat; cbv beta iota zeta.
  1: destruct (URLSearchParams_toString P h q) as [params|message];
    [|reflexivity].
  all: unfold ret at 1; cbv beta iota.
  all: pose proof (get_prop_heap endpoint "method" h) as E;
    destruct (get_prop endpoint "method" h) as [[mt|e] h1]; cbn [snd] in E;
    subst h1; [|reflexivity].
  all: pose proof (get_prop_heap endpoint "headers" h) as E;
    destruct (get_prop endpoint "headers" h) as [[hs|e] h1]; cbn [snd] in E;
    subst h1; [|reflexivity].
  all: pose proof (entries_heap hs h) as E;
    destruct (entries hs h) as [[own|e] h1]; cbn [snd] in E; subst h1;
    [|reflexivity].
  all: pose proof (get_prop_heap endpoint "body" h) as E;
    destruct (get_prop endpoint "body" h) as [[body|e] h1]; cbn [snd] in E;
    subst h1; reflexivity.
Qed.

Lemma sendRequest_returns {World : Type} (P : Platform World) (endpoint : value)
      (s : State World) :
  exists result s',
    sendRequest P endpoint s = (Ok result, s')
    /\ objects s' = objects s /\ modules s' = modules s.
Proof.
  unfold sendRequest, bind, try_catch, liftW, liftH, ret.
  destruct (Date_now P (world s)) as [t0 w1]. cbn [objects modules world].
  pose proof (requestConfig_heap P endpoint (objects s)) as E.
  destruct (requestConfig P endpoint (objects s)) as [[config|message] h1];
    cbn [snd] in E; subst h1; cbn [objects modules world].
  - destruct (axios P config (objects s) w1) as [[r|e] w2];
      cbn [objects modules world];
      destruct (Date_now P w2) as [t1 w3]; cbn; eauto.
  - destruct (Date_now P w1) as [t1 w3]; cbn; eauto.
Qed.

(** One probe keeps the counters of the result in step with its records,
    and changes no object. *)
Lemma probe_tally {World : Type} (P : Platform World) (scanner : Scanner)
      (payload : string) (baseline : option Baseline) (results : EndpointResult)
      (injectedEndpoint : value) (s : State World) :
  tally_kept results ->
  match probe P scanner payload baseline results injectedEndpoint s with
  | (Ok r, s') =>
      tally_kept r /\ scan_error r = scan_error results
      /\ objects s' = objects s
  | (Throw _, _) => True
  end.
Proof.
  intros (Ht & Hp & Hf & He).
  unfold probe, bind at 1.
  unfold liftH at 1.
  pose proof (get_prop_heap injectedEndpoint "injectionPoint" (objects s)) as E.
  destruct (get_prop injectedEndpoint "injectionPoint" (objects s))
    as [[point|e] h1]; cbn [snd] in E; subst h1; [|exact I].
  match goal with
  | |- context [{| objects := objects s; modules := modules s; world := world s |}] =>
      replace {| objects := objects s; modules := modules s; world := world s |}
        with s by (destruct s; reflexivity)
  end.
  unfold bind at 1, try_catch.
  match goal with
  | |- context [bind (liftW (Date_now P)) ?k s] =>
      destruct (bind (liftW (Date_now P)) k s) as [[[r pause]|e] s2] eqn:Hbody
  end.
  - assert (Hr : tally_kept r /\ scan_error r = scan_error results
                 /\ objects s2 = objects s).
    { revert Hbody. unfold bind, liftW, liftH, liftA, ret.
      destruct (Date_now P (world s)) as [t0 w1]. cbn [objects modules world].
      match goal with
      | |- context [sendRequest P injectedEndpoint ?s0] =>
          destruct (sendRequest_returns P injectedEndpoint s0)
            as (sent & s3 & -> & Ho & Hm)
      end.
      cbn [objects modules world] in Ho, Hm.
      pose proof (get_prop_heap injectedEndpoint "url" (objects s3)) as E.
      destruct (get_prop injectedEndpoint "url" (objects s3)) as [[u|e] h3];
        cbn [snd] in E; subst h3; [|discriminate].
      cbn [objects modules world].
      pose proof (get_prop_heap injectedEndpoint "method" (objects s3)) as E.
      destruct (get_prop injectedEndpoint "method" (objects s3)) as [[mt|e] h4];
        cbn [snd] in E; subst h4; [|discriminate].
      cbn [objects modules world].
      destruct (Date_toISOString P (world s3)) as [stamp w4].
      cbn [objects modules world].
      destruct (match error sent with
                | Some e => negb (String.eqb e EmptyString) && negb (success sent)
                | None => false
                end).
      - intros [= <- <- <-]. unfold tally_kept.
        cbn [summary tests set_summary add_test count_errors total passed failed
             errors scan_error count_total objects].
        rewrite !count_verdict_app, length_app. cbn. repeat split; try lia.
        exact Ho.
      - destruct (analyzeResponse scanner _ _ _ _ _) as [[analysis|e] ms];
          [|discriminate].
        intros [= <- <- <-]. unfold tally_kept.
        destruct (vulnerable analysis);
          cbn [summary tests set_summary add_test count_errors count_failed
               count_passed total passed failed errors scan_error count_total
               objects];
          rewrite !count_verdict_app, length_app; cbn; repeat split; try lia;
          exact Ho. }
    destruct pause; unfold bind, liftW, ret; cbn [objects]; exact Hr.
  - assert (Ho : objects s2 = objects s).
    { revert Hbody. unfold bind, liftW, liftH, liftA, ret.
      destruct (Date_now P (world s)) as [t0 w1]. cbn [objects modules world].
      match goal with
      | |- context [sendRequest P injectedEndpoint ?s0] =>
          destruct (sendRequest_returns P injectedEndpoint s0)
            as (sent & s3 & -> & Ho & Hm)
      end.
      cbn [objects modules world] in Ho, Hm.
      pose proof (get_prop_heap injectedEndpoint "url" (objects s3)) as E.
      destruct (get_prop injectedEndpoint "url" (objects s3)) as [[u|e'] h3];
        cbn [snd] in E; subst h3;
        [|intros [= _ <-]; cbn [objects]; exact Ho].
      cbn [objects modules world].
      pose proof (get_prop_heap injectedEndpoint "method" (objects s3)) as E.
      destruct (get_prop injectedEndpoint "method" (objects s3)) as [[mt|e'] h4];
        cbn [snd] in E; subst h4;
        [|intros [= _ <-]; cbn [objects]; exact Ho].
      cbn [objects modules world].
      destruct (Date_toISOString P (world s3)) as [stamp w4].
      cbn [objects modules world].
      destruct (match error sent with
                | Some e => negb (String.eqb e EmptyString) && negb (success sent)
                | None => false
                end); [discriminate|].
      destruct (analyzeResponse scanner _ _ _ _ _) as [[analysis|e'] ms];
        [discriminate|].
      intros [= _ <-]. cbn [objects]. exact Ho. }
    unfold bind, liftW, ret.
    destruct (Date_toISOString P (world s2)) as [stamp w3].
    cbn [objects modules world]. unfold tally_kept.
    cbn [summary tests set_summary add_test count_errors total passed failed
         errors scan_error count_total objects].
    rewrite !count_verdict_app, length_app. cbn. repeat split; try lia.
    exact Ho.
Qed.

(** The counters of the result of [scanEndpoint] agree with its records. *)
Lemma scanEndpoint_tally {World : Type} (P : Platform World) (endpoint : value)
      (opts : Options) (s : State World) :
  match scanEndpoint P endpoint opts s with
  | (Ok r, _) => tally_kept r /\ scan_error r = None
  | (Throw _, _) => True
  end.
Proof.
  unfold scanEndpoint. unfold bind at 1.
  destruct (liftH (get_prop endpoint "method") s) as [[mt|e] s1]; [|exact I].
  unfold bind at 1.
  destruct (liftH (get_prop endpoint "url") s1) as [[u|e] s2]; [|exact I].
  unfold bind at 1.
  destruct (liftH (get_prop endpoint "name") s2) as [[nm|e] s3]; [|exact I].
  unfold bind at 1.
  destruct (try_catch _ _ s3) as [[baseline|e] s4]; [|exact I].
  apply (forEach_inv _ (fun r _ => tally_kept r /\ scan_error r = None)).
  - intros results scanner s5 Hinv.
    apply (forEach_inv _ (fun r _ => tally_kept r /\ scan_error r = None));
      [|exact Hinv].
    intros results1 payload s6 Hinv1. unfold bind.
    destruct (liftH (injectPayload endpoint payload (injectLocationOf opts)) s6)
      as [[injected|e] s7]; [|exact I].
    apply (forEach_inv _ (fun r _ => tally_kept r /\ scan_error r = None));
      [|exact Hinv1].
    intros results2 ie s8 [Hk Hnone].
    pose proof (probe_tally P scanner payload baseline results2 ie s8 Hk) as H.
    destruct (probe P scanner payload baseline results2 ie s8) as [[r|e] s9];
      [|exact I].
    destruct H as (H1 & H2 & _). split; [exact H1 | congruence].
  - unfold tally_kept. cbn. repeat split.
Qed.

Lemma all_tests_add (r : EndpointResult) (report : ScanReport) :
  all_tests (add_endpoint r report) = (all_tests report ++ tests r)%list.
Proof.
  unfold all_tests, add_endpoint. cbn [endpoints].
  rewrite List.map_app, List.concat_app. cbn. now rewrite List.app_nil_r.
Qed.

Lemma given_up_add (r : EndpointResult) (report : ScanReport) :
  given_up (add_endpoint r report)
  = (given_up report
     + match scan_error r with Some _ => 1 | None => 0 end)%nat.
Proof.
  unfold given_up, add_endpoint. cbn [endpoints].
  rewrite List.filter_app, length_app. cbn.
  destruct (scan_error r); reflexivity.
Qed.

Lemma failed_records (ts : list TestRecord) :
  List.length
    (List.filter (fun t => match test_result t with FAIL => true | _ => false end) ts)
  = count_verdict FAIL ts.
Proof.
  unfold count_verdict. f_equal.
Qed.

(** The summary of a report stays in step with its records when the result
    of an endpoint is added, ... *)
Lemma record_endpoint_kept (r : EndpointResult) (report : ScanReport) :
  tally_kept r -> scan_error r = None -> summary_kept report ->
  summary_kept (record_endpoint r report).
Proof.
  intros (Ht & Hp & Hf & He) Hnone (St & Sp & Sf & Se & Sv).
  unfold summary_kept, record_endpoint, set_scan_summary.
  cbn [scan_summary totalTests totalPassed totalFailed totalErrors vulnerabilities].
  change (all_tests _) with (all_tests (add_endpoint r report)).
  change (given_up _) with (given_up (add_endpoint r report)).
  rewrite all_tests_add, given_up_add, Hnone, !count_verdict_app, !length_app,
    length_map, failed_records.
  unfold add_endpoint. cbn [scan_summary]. lia.
Qed.

(** ... and when the scan of an endpoint is given up. *)
Lemma record_failure_kept (nm mt u : value) (message : string) (report : ScanReport) :
  summary_kept report ->
  summary_kept (record_failure nm mt u message report).
Proof.
  intros (St & Sp & Sf & Se & Sv).
  unfold summary_kept, record_failure, set_scan_summary.
  cbn [scan_summary totalTests totalPassed totalFailed totalErrors vulnerabilities].
  match goal with
  | |- context [all_tests ?rep] =>
      match rep with
      | context [add_endpoint ?r report] =>
          change (all_tests rep) with (all_tests (add_endpoint r report));
          change (given_up rep) with (given_up (add_endpoint r report));
          rewrite (all_tests_add r report), (given_up_add r report)
      end
  end.
  cbn [tests scan_error]. rewrite !List.app_nil_r.
  unfold add_endpoint. cbn [scan_summary]. lia.
Qed.

(** What a scan holds after [n] endpoints, under any options. *)
Lemma scanOne_kept {World : Type} (P : Platform World) (count : nat) (opts : Options)
      (progressCallback : option (ProgressEvent -> World -> World))
      (n : nat) (acc : ScanReport * nat) (endpoint : value) (s : State World) :
  (List.length (endpoints (fst acc)) = n
   /\ summary_kept (fst acc)
   /\ totalEndpoints (scan_summary (fst acc)) = count
   /\ options (fst acc) = opts) ->
  endpoint <> VUndefined /\ endpoint <> VNull ->
  exists acc' s',
    scanOne P count opts progressCallback acc endpoint s = (Ok acc', s')
    /\ (List.length (endpoints (fst acc')) = S n
        /\ summary_kept (fst acc')
        /\ totalEndpoints (scan_summary (fst acc')) = count
        /\ options (fst acc') = opts).
Proof.
  intros (Hlen & Hkept & Hcount & Hopts) [Hu Hn]. destruct acc as [report i].
  cbn [fst] in *. unfold scanOne.
  unfold bind at 1, liftH at 1.
  destruct (get_prop_total endpoint "method" (objects s) Hu Hn) as [mt ->].
  unfold bind at 1, liftH at 1. cbn [objects].
  destruct (get_prop_total endpoint "url" (objects s) Hu Hn) as [u ->].
  unfold bind at 1.
  match goal with
  | |- context [match ?c ?st with _ => _ end] =>
      assert (Hcb : exists s1, c st = (Ok tt, s1))
  end.
  { destruct progressCallback as [callback|]; [|unfold ret; eauto].
    unfold bind, liftH, liftW. cbn [objects].
    destruct (get_prop_total endpoint "name" (objects s) Hu Hn) as [nm ->].
    cbn. eauto. }
  destruct Hcb as [s1 ->].
  unfold bind at 1, try_catch, bind at 1.
  pose proof (scanEndpoint_tally P endpoint opts s1) as Htally.
  destruct (scanEndpoint P endpoint opts s1) as [[r|e] s2].
  - unfold ret. eexists _, _. split; [reflexivity|].
    destruct Htally as [Ht Hnone]. cbn [fst].
    split; [|split; [|split]].
    + unfold record_endpoint, set_scan_summary, add_endpoint. cbn [endpoints].
      rewrite length_app. cbn. lia.
    + now apply record_endpoint_kept.
    + exact Hcount.
    + exact Hopts.
  - unfold bind, liftH.
    destruct (get_prop_total endpoint "name" (objects s2) Hu Hn) as [nm ->].
    unfold ret. eexists _, _. split; [reflexivity|]. cbn [fst].
    split; [|split; [|split]].
    + unfold record_failure, set_scan_summary, add_endpoint. cbn [endpoints].
      rewrite length_app. cbn. lia.
    + now apply record_failure_kept.
    + exact Hcount.
    + exact Hopts.
Qed.

(** X9.  Over a list of endpoints, none of them [undefined] or [null],
    and under any options, [runScan] returns a report with one result for
    each endpoint whose summary agrees with its records: the count of tests
    is the number of test records, the counts of passed and failed tests are
    the numbers of records with the verdicts PASS and FAIL, the count of
    errors is the number of records with the verdict ERROR plus the number
    of endpoints whose scan was given up, and the list of vulnerabilities
    has one entry for each failed test. *)
Theorem runScan_summary {World : Type} (P : Platform World) (endpointList : list value)
        (opts : Options)
        (progressCallback : option (ProgressEvent -> World -> World))
        (s : State World) :
  Forall (fun endpoint => endpoint <> VUndefined /\ endpoint <> VNull) endpointList ->
  exists report s',
    runScan P endpointList opts progressCallback s = (Ok report, s')
    /\ List.length (endpoints report) = List.length endpointList
    /\ totalEndpoints (scan_summary report) = List.length endpointList
    /\ summary_kept report.
Proof.
  intros Hgood. unfold runScan.
  unfold bind at 1, liftW at 1. destruct (Date_now P (world s)) as [t0 w0].
  unfold bind at 1, liftW at 1. cbn [world objects modules].
  destruct (uuid_v4 P w0) as [id w1].
  unfold bind at 1, liftW at 1. cbn [world objects modules].
  destruct (Date_toISOString P w1) as [stamp w2].
  unfold bind at 1.
  match goal with
  | |- context [forEach endpointList ?f ?acc0 ?s0] =>
      destruct (forEach_total f
                  (fun n acc =>
                     List.length (endpoints (fst acc)) = n
                     /\ summary_kept (fst acc)
                     /\ totalEndpoints (scan_summary (fst acc))
                        = List.length endpointList
                     /\ options (fst acc) = opts)
                  (fun endpoint => endpoint <> VUndefined /\ endpoint <> VNull)
                  (fun n acc a s1 Hinv Ha =>
                     scanOne_kept P (List.length endpointList) opts
                       progressCallback n acc a s1 Hinv Ha)
                  endpointList 0%nat acc0 s0)
        as (done & s3 & -> & Hlen & Hkept & Hcount & Hopts)
  end.
  - unfold summary_kept. cbn. repeat split.
  - exact Hgood.
  - unfold bind, liftW. destruct (Date_now P (world s3)) as [t1 w3].
    unfold ret. eexists _, _. split; [reflexivity|].
    cbn [endpoints scan_summary]. cbn [Nat.add] in Hlen.
    split; [exact Hlen|]. split; [exact Hcount|]. exact Hkept.
Qed.

Lemma runScan_summary_witness :
  exists report s',
    runScan online [sample_ref]
      {| scanTypes := None; maxPayloads := None; injectLocation := None |}
      None sample_state = (Ok report, s')
    /\ List.length (endpoints report) = List.length [sample_ref]
    /\ totalEndpoints (scan_summary report) = List.length [sample_ref]
    /\ summary_kept report.
Proof.
  refine (runScan_summary online [sample_ref]
            {| scanTypes := None; maxPayloads := None; injectLocation := None |}
            None sample_state _).
  constructor; [|constructor].
  split; intros H; vm_compute in H; discriminate.
Defined.

(** X10.  An endpoint that is [null] or [undefined] anywhere in the list
    makes [runScan] throw: the line that logs the method and the URL of the
    endpoint stands before the [try] block, and no report is returned, also
    for the endpoints scanned before. *)
Theorem runScan_aborts_on_null {World : Type} (P : Platform World)
        (endpointList : list value) (endpoint : value) (opts : Options)
        (progressCallback : option (ProgressEvent -> World -> World))
        (s : State World) :
  In endpoint endpointList ->
  endpoint = VNull \/ endpoint = VUndefined ->
  exists message s',
    runScan P endpointList opts progressCallback s = (Throw message, s').
Proof.
  intros Hin Hnull. unfold runScan.
  unfold bind at 1, liftW at 1. destruct (Date_now P (world s)) as [t0 w0].
  unfold bind at 1, liftW at 1. cbn [world objects modules].
  destruct (uuid_v4 P w0) as [id w1].
  unfold bind at 1, liftW at 1. cbn [world objects modules].
  destruct (Date_toISOString P w1) as [stamp w2].
  unfold bind at 1.
  match goal with
  | |- context [forEach endpointList ?f ?acc0 ?s0] =>
      destruct (forEach_throws f endpoint endpointList) with (acc := acc0) (s := s0)
        as (message & s3 & ->); [|exact Hin|eauto]
  end.
  intros [report i] s1. unfold scanOne, bind at 1, liftH at 1.
  destruct Hnull as [-> | ->]; cbn; eauto.
Qed.

Lemma runScan_aborts_on_null_witness :
  exists message s',
    runScan online [sample_ref; VNull]
      {| scanTypes := None; maxPayloads := None; injectLocation := None |}
      None sample_state = (Throw message, s').
Proof.
  refine (runScan_aborts_on_null online [sample_ref; VNull] VNull
            {| scanTypes := None; maxPayloads := None; injectLocation := None |}
            None sample_state _ _).
  - right. left. reflexivity.
  - left. reflexivity.
Defined.

(** X11.  When the list of scan types is not empty and names the type of no
    analyzer, the scan of an endpoint sends the baseline request and nothing
    else: it returns a result with no test record and counters at zero, not
    an error; it leaves the objects as they were; and the state after it,
    the world of the platform in it, is the state after one call of
    [sendRequest] on the endpoint. *)
Theorem scanEndpoint_unknown_types {World : Type} (P : Platform World)
        (endpoint : value) (opts : Options) (s : State World) :
  scannersToUse opts = [] ->
  endpoint <> VUndefined -> endpoint <> VNull ->
  exists r s',
    scanEndpoint P endpoint opts s = (Ok r, s')
    /\ tests r = []
    /\ summary r = {| total := 0; passed := 0; failed := 0; errors := 0 |}
    /\ scan_error r = None
    /\ objects s' = objects s
    /\ exists sent, sendRequest P endpoint s = (Ok sent, s').
Proof.
  intros Hnone Hu Hn. unfold scanEndpoint. rewrite Hnone.
  destruct s as [h ms w].
  unfold bind at 1, liftH at 1. cbn [objects modules world].
  destruct (get_prop_total endpoint "method" h Hu Hn) as [mt ->].
  unfold bind at 1, liftH at 1. cbn [objects modules world].
  destruct (get_prop_total endpoint "url" h Hu Hn) as [u ->].
  unfold bind at 1, liftH at 1. cbn [objects modules world].
  destruct (get_prop_total endpoint "name" h Hu Hn) as [nm ->].
  unfold bind at 1, try_catch. cbn [objects modules world].
  unfold bind at 1. unfold getBaseline. unfold bind at 1.
  destruct (sendRequest_returns P endpoint
              {| objects := h; modules := ms; world := w |})
    as (sent & s1 & Hsend & Ho & Hm).
  rewrite Hsend.
  unfold bind, ret. cbn [forEach]. unfold ret.
  eexists _, _. split; [reflexivity|]. cbn [tests summary scan_error].
  split; [reflexivity|]. split; [reflexivity|]. split; [reflexivity|].
  split; [exact Ho|]. exists sent. reflexivity.
Qed.

Lemma scanEndpoint_unknown_types_witness :
  exists r s',
    scanEndpoint online sample_ref
      {| scanTypes := Some ["CSRF"]; maxPayloads := None; injectLocation := None |}
      sample_state = (Ok r, s')
    /\ tests r = []
    /\ summary r = {| total := 0; passed := 0; failed := 0; errors := 0 |}
    /\ scan_error r = None
    /\ objects s' = objects sample_state
    /\ exists sent, sendRequest online sample_ref sample_state = (Ok sent, s').
Proof.
  refine (scanEndpoint_unknown_types online sample_ref
            {| scanTypes := Some ["CSRF"]; maxPayloads := None;
               injectLocation := None |} sample_state _ _ _).
  - reflexivity.
  - intros H; vm_compute in H; discriminate.
  - intros H; vm_compute in H; discriminate.
Defined.

(** ** Writing above a base *)

Lemma extends_refl (base : nat) (h : heap) : extends base h h.
Proof. split; [lia | reflexivity]. Qed.

Lemma extends_trans (base : nat) (h1 h2 h3 : heap) :
  extends base h1 h2 -> extends base h2 h3 -> extends base h1 h3.
Proof.
  intros [L1 E1] [L2 E2]. split; [lia|].
  intros l Hl. now rewrite E2, E1.
Qed.

Section WritesAbove.

Variable base : nat.

Lemma wa_ret {A : Type} (a : A) (Q : A -> Prop) :
  Q a -> writes_above base (ret a) Q.
Proof.
  intros Ha h Hlen Hclosed. cbn. auto using extends_refl.
Qed.

Lemma wa_throw {A : Type} (e : string) (Q : A -> Prop) :
  writes_above base (throw e) Q.
Proof.
  intros h Hlen Hclosed. cbn. auto using extends_refl.
Qed.

Lemma wa_bind {A B : Type} (m : M heap A) (k : A -> M heap B)
      (Q : A -> Prop) (R : B -> Prop) :
  writes_above base m Q ->
  (forall a, Q a -> writes_above base (k a) R) ->
  writes_above base (bind m k) R.
Proof.
  intros Hm Hk h Hlen Hclosed. unfold bind.
  destruct (Hm h Hlen Hclosed) as (He & Hc & Hq).
  destruct (m h) as [[a|e] h1]; cbn [fst snd] in *.
  - assert (Hlen1 : (base <= List.length h1)%nat) by (destruct He; lia).
    destruct (Hk a Hq h1 Hlen1 Hc) as (He2 & Hc2 & Hr).
    eauto using extends_trans.
  - auto.
Qed.

Lemma wa_weaken {A : Type} (m : M heap A) (Q Q' : A -> Prop) :
  writes_above base m Q -> (forall a, Q a -> Q' a) -> writes_above base m Q'.
Proof.
  intros Hm Hq h Hlen Hclosed.
  destruct (Hm h Hlen Hclosed) as (He & Hc & Ha).
  split; [exact He|]. split; [exact Hc|].
  destruct (fst (m h)); auto.
Qed.

Lemma wa_forEach {A B : Type} (f : B -> A -> M heap B) (Q : B -> Prop) (l : list A) :
  (forall acc a, Q acc -> writes_above base (f acc a) Q) ->
  forall acc, Q acc -> writes_above base (forEach l f acc) Q.
Proof.
  intros Hf. induction l as [|a l IH]; intros acc Hacc; cbn [forEach].
  - now apply wa_ret.
  - eapply wa_bind; [apply Hf, Hacc | exact IH].
Qed.

Lemma assoc_Forall {A : Type} (P : A -> Prop) (k : string) (l : list (string * A))
      (a : A) :
  Forall (fun kv => P (snd kv)) l -> assoc k l = Some a -> P a.
Proof.
  induction 1 as [|[k' a'] l Hx _ IH]; cbn; [discriminate|].
  destruct (String.eqb k' k); [now intros [= <-] | exact IH].
Qed.

Lemma set_assoc_Forall {A : Type} (P : A -> Prop) (k : string) (a : A)
      (l : list (string * A)) :
  Forall (fun kv => P (snd kv)) l -> P a ->
  Forall (fun kv => P (snd kv)) (set_assoc k a l).
Proof.
  intros Hl Ha. induction Hl as [|[k' a'] l Hx Hl IH]; cbn.
  - constructor; [exact Ha | constructor].
  - destruct (String.eqb k' k); constructor; assumption.
Qed.

Lemma nth_Forall {A : Type} (P : A -> Prop) (i : nat) (l : list A) (d : A) :
  Forall P l -> P d -> P (nth i l d).
Proof.
  intros Hl Hd. revert i. induction Hl as [|x l Hx _ IH]; intros [|i]; cbn; auto.
Qed.

Lemma wa_get_prop (v : value) (k : string) :
  val_fresh base v -> writes_above base (get_prop v k) (val_fresh base).
Proof.
  intros Hv h Hlen Hclosed. unfold get_prop.
  destruct v; cbn; auto using extends_refl.
  destruct (h !! l) as [[ps|vs extra]|] eqn:El; cbn;
    repeat split; auto using extends_refl.
  - pose proof (Hclosed l _ Hv El) as Ho. cbn in Ho.
    destruct (assoc k ps) as [x|] eqn:Ek; [|exact I].
    exact (assoc_Forall _ _ _ _ Ho Ek).
  - pose proof (Hclosed l _ Hv El) as [Hvs Hextra].
    destruct (index_of k (List.length vs)) as [i|].
    + now apply nth_Forall.
    + destruct (String.eqb k "length"); [exact I|].
      destruct (assoc k extra) as [x|] eqn:Ek; [|exact I].
      exact (assoc_Forall _ _ _ _ Hextra Ek).
Qed.

Lemma wa_read {A : Type} (m : M heap A) :
  (forall h, snd (m h) = h) -> writes_above base m (fun _ => True).
Proof.
  intros Hm h Hlen Hclosed. rewrite Hm.
  repeat split; auto using extends_refl. destruct (fst (m h)); exact I.
Qed.

Lemma wa_set_prop (v : value) (k : string) (x : value) :
  val_fresh base v -> val_fresh base x ->
  writes_above base (set_prop v k x) (fun _ => True).
Proof.
  intros Hv Hx h Hlen Hclosed. unfold set_prop.
  destruct v; cbn; auto using extends_refl.
  assert (Hins : forall o o', h !! l = Some o -> obj_fresh base o' ->
            extends base h (<[l := o']> h) /\ closed_from base (<[l := o']> h)).
  { intros o o' El Ho'. split.
    - split; [rewrite length_insert; lia|].
      intros l' Hl'. apply list_lookup_insert_ne. cbn in Hv. lia.
    - intros l' o'' Hl' E. destruct (decide (l = l')) as [<-|Hne].
      + rewrite list_lookup_insert in E.
        destruct (decide _) as [_|Hn]; [now injection E as <-|].
        now apply (Hclosed l).
      + rewrite list_lookup_insert_ne in E by exact Hne.
        now apply (Hclosed l'). }
  destruct (h !! l) as [[ps|vs extra]|] eqn:El; cbn;
    auto using extends_refl.
  - destruct (Hins (Obj ps) (Obj (set_assoc k x ps)) eq_refl) as [He Hc]; auto.
    cbn. apply set_assoc_Forall; [exact (Hclosed l _ Hv El) | exact Hx].
  - pose proof (Hclosed l _ Hv El) as [Hvs Hextra].
    destruct (index_of k (List.length vs)) as [i|]; cbn.
    + destruct (Hins (Arr vs extra) (Arr (<[i := x]> vs) extra) eq_refl) as [He Hc];
        auto.
      split; [now apply Forall_insert | exact Hextra].
    + destruct (Hins (Arr vs extra) (Arr vs (set_assoc k x extra)) eq_refl)
        as [He Hc]; auto.
      split; [exact Hvs | now apply set_assoc_Forall].
Qed.

Lemma closed_from_app (h new : heap) :
  closed_from base h -> Forall (obj_fresh base) new -> closed_from base (h ++ new).
Proof.
  intros Hc Hnew l o Hl E.
  destruct (decide (l < List.length h)%nat) as [Hlt|Hge].
  - rewrite lookup_app_l in E by exact Hlt. now apply (Hc l).
  - rewrite lookup_app_r in E by lia.
    rewrite Forall_lookup in Hnew. exact (Hnew _ _ E).
Qed.

Lemma extends_app (h new : heap) :
  (base <= List.length h)%nat -> extends base h (h ++ new).
Proof.
  intros Hlen. split; [rewrite length_app; lia|].
  intros l Hl. apply lookup_app_l. lia.
Qed.

Lemma wa_new_object (o : object) :
  obj_fresh base o -> writes_above base (new_object o) (val_fresh base).
Proof.
  intros Ho h Hlen Hclosed. unfold new_object. cbn.
  split; [now apply extends_app|].
  split; [|exact Hlen].
  apply closed_from_app; [exact Hclosed|]. constructor; [exact Ho | constructor].
Qed.

Lemma wa_or_new_object (v : value) :
  val_fresh base v -> writes_above base (or_new_object v) (val_fresh base).
Proof.
  intros Hv. unfold or_new_object. destruct (to_boolean v).
  - now apply wa_ret.
  - apply wa_new_object. constructor.
Qed.

End WritesAbove.

(** ** Trees in the heap *)

(** Induction on a tree, with the property at hand for every element of an
    array and every value of an object. *)
Lemma jsval_nested_ind (P : jsval -> Prop) :
  P JUndefined -> P JNull -> (forall b, P (JBool b)) -> (forall n, P (JNum n)) ->
  (forall s, P (JStr s)) ->
  (forall elems, Forall P elems -> P (JArr elems)) ->
  (forall props, Forall (fun kv => P (snd kv)) props -> P (JObj props)) ->
  forall t, P t.
Proof.
  intros Hu Hn Hb Hz Hs Harr Hobj.
  refine (fix IH (t : jsval) : P t :=
            match t with
            | JUndefined => Hu
            | JNull => Hn
            | JBool b => Hb b
            | JNum n => Hz n
            | JStr s => Hs s
            | JArr elems =>
                Harr elems
                  ((fix go (l : list jsval) : Forall P l :=
                      match l with
                      | [] => List.Forall_nil _
                      | x :: r => List.Forall_cons P x r (IH x) (go r)
                      end) elems)
            | JObj props =>
                Hobj props
                  ((fix go (l : list (string * jsval))
                      : Forall (fun kv => P (snd kv)) l :=
                      match l with
                      | [] => List.Forall_nil _
                      | kv :: r =>
                          List.Forall_cons (fun kv => P (snd kv)) kv r
                            (IH (snd kv)) (go r)
                      end) props)
            end).
Qed.

Lemma alloc_list_above (ts : list jsval) :
  Forall alloc_above ts ->
  forall (h : heap) (base : nat), (base <= List.length h)%nat ->
    exists new,
      snd (alloc_list alloc ts h) = (h ++ new)%list
      /\ Forall (obj_fresh base) new
      /\ Forall (val_fresh base) (fst (alloc_list alloc ts h)).
Proof.
  induction 1 as [|t ts Ht _ IH]; intros h base Hlen; cbn [alloc_list].
  - exists []. rewrite List.app_nil_r. repeat split; constructor.
  - destruct (Ht h base Hlen) as (new1 & E1 & F1 & V1).
    destruct (alloc t h) as [v h1]. cbn [fst snd] in *. subst h1.
    destruct (IH (h ++ new1)%list base) as (new2 & E2 & F2 & V2);
      [rewrite length_app; lia|].
    destruct (alloc_list alloc ts (h ++ new1)) as [vs h2]. cbn [fst snd] in *.
    subst h2. exists (new1 ++ new2)%list.
    rewrite List.app_assoc. repeat split.
    + apply Forall_app. auto.
    + constructor; assumption.
Qed.

Lemma alloc_props_above (ts : list (string * jsval)) :
  Forall (fun kv => alloc_above (snd kv)) ts ->
  forall (h : heap) (base : nat), (base <= List.length h)%nat ->
    exists new,
      snd (alloc_props alloc ts h) = (h ++ new)%list
      /\ Forall (obj_fresh base) new
      /\ Forall (fun kv => val_fresh base (snd kv)) (fst (alloc_props alloc ts h)).
Proof.
  induction 1 as [|[k t] ts Ht _ IH]; intros h base Hlen; cbn [alloc_props].
  - exists []. rewrite List.app_nil_r. repeat split; constructor.
  - cbn [snd] in Ht.
    destruct (Ht h base Hlen) as (new1 & E1 & F1 & V1).
    destruct (alloc t h) as [v h1]. cbn [fst snd] in *. subst h1.
    destruct (IH (h ++ new1)%list base) as (new2 & E2 & F2 & V2);
      [rewrite length_app; lia|].
    destruct (alloc_props alloc ts (h ++ new1)) as [ps h2]. cbn [fst snd] in *.
    subst h2. exists (new1 ++ new2)%list.
    rewrite List.app_assoc. repeat split.
    + apply Forall_app. auto.
    + constructor; assumption.
Qed.

Lemma alloc_is_above (t : jsval) : alloc_above t.
Proof.
  induction t as [| | b | n | s | elems IH | props IH] using jsval_nested_ind;
    intros h base Hlen; cbn [alloc].
  1-5: exists []; rewrite List.app_nil_r; repeat split; constructor.
  - destruct (alloc_list_above elems IH h base Hlen) as (new & E & F & V).
    destruct (alloc_list alloc elems h) as [vs h1]. cbn [fst snd] in *. subst h1.
    exists (new ++ [Arr vs []])%list. rewrite List.app_assoc. repeat split.
    + apply Forall_app. split; [exact F|].
      constructor; [|constructor]. split; [exact V | constructor].
    + cbn. rewrite length_app. lia.
  - destruct (alloc_props_above props IH h base Hlen) as (new & E & F & V).
    destruct (alloc_props alloc props h) as [ps h1]. cbn [fst snd] in *. subst h1.
    exists (new ++ [Obj ps])%list. rewrite List.app_assoc. repeat split.
    + apply Forall_app. split; [exact F|].
      constructor; [exact V | constructor].
    + cbn. rewrite length_app. lia.
Qed.

Lemma wa_deepCopy (base : nat) (v : value) :
  writes_above base (deepCopy v) (val_fresh base).
Proof.
  intros h Hlen Hclosed. unfold deepCopy.
  destruct (reify (S (List.length h)) h v) as [t|];
    [|cbn; auto using extends_refl].
  assert (Hgo : extends base h (snd (alloc (normalize t) h))
                /\ closed_from base (snd (alloc (normalize t) h))
                /\ val_fresh base (fst (alloc (normalize t) h))).
  { destruct (alloc_is_above (normalize t) h base Hlen) as (new & E & F & V).
    rewrite E. repeat split.
    - rewrite length_app. lia.
    - intros l Hl. apply lookup_app_l. lia.
    - now apply closed_from_app.
    - exact V. }
  destruct t; try (destruct (alloc (normalize _) h) as [v' h']; exact Hgo).
  cbn. auto using extends_refl.
Qed.

(** ** [injectPayload] writes to its copies only *)

Ltac wa_leaf :=
  first
    [ apply wa_deepCopy
    | apply wa_get_prop; assumption
    | apply wa_read; intros; first [apply get_prop_heap | apply keys_heap]
    | apply wa_set_prop; cbn; solve [trivial | assumption]
    | apply wa_or_new_object; assumption
    | apply wa_new_object; repeat constructor ].

Ltac wa_push :=
  apply wa_ret; apply Forall_app; split;
  [assumption | constructor; [assumption | constructor]].

Ltac wa_steps :=
  repeat (eapply wa_bind; [solve [wa_leaf] | intros ? ?]).

Lemma wa_urlBase (base : nat) (url : value) :
  writes_above base (urlBase url) (fun _ => True).
Proof. destruct url; cbn [urlBase]; first [now apply wa_ret | apply wa_throw]. Qed.

Lemma injectPayload_above (base : nat) (endpoint : value) (payload location : string) :
  writes_above base (injectPayload endpoint payload location)
    (Forall (val_fresh base)).
Proof.
  unfold injectPayload.
  eapply wa_bind with (Q := Forall (val_fresh base)).
  { destruct (_ || _).
    - wa_steps.
      eapply wa_bind with (Q := fun _ => True).
      { destruct (to_boolean _); [wa_leaf | now apply wa_ret]. }
      intros names _.
      eapply wa_bind with (Q := Forall (val_fresh base)).
      { apply wa_forEach; [|constructor].
        intros acc key Hacc. wa_steps. wa_push. }
      intros acc Hacc. wa_steps. wa_push.
    - apply wa_ret. constructor. }
  intros acc1 Hacc1.
  eapply wa_bind with (Q := Forall (val_fresh base)).
  { destruct (_ || _).
    - wa_steps.
      eapply wa_bind with (Q := Forall (val_fresh base)).
      { destruct (_ && _).
        - wa_steps. apply wa_forEach; [|assumption].
          intros acc key Hacc. wa_steps. wa_push.
        - now apply wa_ret. }
      intros acc Hacc. wa_steps.
      destruct (carries_body _).
      + wa_steps.
        eapply wa_bind with (Q := fun _ => True).
        { destruct (is_object_type _); [wa_leaf|].
          wa_steps. wa_leaf. }
        intros _ _. wa_steps. wa_push.
      + now apply wa_ret.
    - now apply wa_ret. }
  intros acc2 Hacc2.
  eapply wa_bind with (Q := Forall (val_fresh base)).
  { destruct (_ || _).
    - wa_steps. wa_push.
    - now apply wa_ret. }
  intros acc3 Hacc3.
  eapply wa_bind with (Q := Forall (val_fresh base)).
  { destruct (_ || _).
    - wa_steps.
      eapply wa_bind; [apply wa_urlBase | intros b _].
      wa_steps. wa_push.
    - now apply wa_ret. }
  intros acc4 Hacc4.
  destruct (_ =? _)%nat.
  - wa_steps. wa_push.
  - now apply wa_ret.
Qed.

(** X12.  [injectPayload] writes to the copies it makes and to nothing
    else.  For every endpoint, payload and location, and whether it returns
    or throws, every object that the heap held before the call is the same
    after it, the endpoint and all that it refers to among them; and every
    variant it returns is an object made during the call (or no object at
    all), never the endpoint itself. *)
Theorem injectPayload_leaves_endpoint (endpoint : value) (payload location : string)
        (h : heap) :
  let after := snd (injectPayload endpoint payload location h) in
  (List.length h <= List.length after)%nat
  /\ (forall l, (l < List.length h)%nat -> after !! l = h !! l)
  /\ match fst (injectPayload endpoint payload location h) with
     | Ok variants =>
         Forall (fun v => forall l, v = VRef l -> (List.length h <= l)%nat) variants
     | Throw _ => True
     end.
Proof.
  cbv zeta.
  destruct (injectPayload_above (List.length h) endpoint payload location h)
    as ([Hlen Hold] & _ & Hv).
  - lia.
  - intros l o Hl E. apply lookup_lt_Some in E. lia.
  - split; [exact Hlen|]. split; [exact Hold|].
    destruct (fst (injectPayload endpoint payload location h)) as [vs|e]; [|exact I].
    eapply List.Forall_impl; [|exact Hv].
    intros v Hfresh l ->. exact Hfresh.
Qed.

(** ** The footprint of a tree *)

(** The footprint of a list is made of the footprints of its members. *)
Lemma fp_list_frame (Q : loc -> Prop) (f g : value -> jsval -> option (list loc))
      (ts : list jsval) :
  Forall (fun t => forall v F, f v t = Some F -> (forall l, l ∈ F -> Q l) ->
                               g v t = Some F) ts ->
  forall vs F, fp_list f vs ts = Some F -> (forall l, l ∈ F -> Q l) ->
               fp_list g vs ts = Some F.
Proof.
  induction 1 as [|t ts Ht _ IH]; intros [|x vs] F; cbn; try congruence.
  destruct (f x t) as [F1|] eqn:E1; [|congruence].
  destruct (fp_list f vs ts) as [F2|] eqn:E2; [|congruence].
  intros [= <-] HQ.
  rewrite (Ht _ _ E1), (IH _ _ E2); [reflexivity| |];
    intros l Hl; apply HQ, elem_of_app; auto.
Qed.

Lemma fp_props_frame (Q : loc -> Prop) (f g : value -> jsval -> option (list loc))
      (ts : list (string * jsval)) :
  Forall (fun kv => forall v F, f v (snd kv) = Some F -> (forall l, l ∈ F -> Q l) ->
                                g v (snd kv) = Some F) ts ->
  forall ps F, fp_props f ps ts = Some F -> (forall l, l ∈ F -> Q l) ->
               fp_props g ps ts = Some F.
Proof.
  induction 1 as [|[k t] ts Ht _ IH]; intros [|[k' x] ps] F; cbn; try congruence.
  destruct (String.eqb k' k); [|congruence].
  destruct (f x t) as [F1|] eqn:E1; [|congruence].
  destruct (fp_props f ps ts) as [F2|] eqn:E2; [|congruence].
  intros [= <-] HQ. cbn in Ht.
  rewrite (Ht _ _ E1), (IH _ _ E2); [reflexivity| |];
    intros l Hl; apply HQ, elem_of_app; auto.
Qed.

Lemma fp_list_all (Q : loc -> Prop) (f : value -> jsval -> option (list loc))
      (ts : list jsval) :
  Forall (fun t => forall v F, f v t = Some F -> forall l, l ∈ F -> Q l) ts ->
  forall vs F, fp_list f vs ts = Some F -> forall l, l ∈ F -> Q l.
Proof.
  induction 1 as [|t ts Ht _ IH]; intros [|x vs] F; cbn; try congruence.
  - intros [= <-] l Hl. inversion Hl.
  - destruct (f x t) as [F1|] eqn:E1; [|congruence].
    destruct (fp_list f vs ts) as [F2|] eqn:E2; [|congruence].
    intros [= <-] l Hl. apply elem_of_app in Hl. destruct Hl; eauto.
Qed.

Lemma fp_props_all (Q : loc -> Prop) (f : value -> jsval -> option (list loc))
      (ts : list (string * jsval)) :
  Forall (fun kv => forall v F, f v (snd kv) = Some F -> forall l, l ∈ F -> Q l) ts ->
  forall ps F, fp_props f ps ts = Some F -> forall l, l ∈ F -> Q l.
Proof.
  induction 1 as [|[k t] ts Ht _ IH]; intros [|[k' x] ps] F; cbn; try congruence.
  - intros [= <-] l Hl. inversion Hl.
  - destruct (String.eqb k' k); [|congruence].
    destruct (f x t) as [F1|] eqn:E1; [|congruence].
    destruct (fp_props f ps ts) as [F2|] eqn:E2; [|congruence].
    intros [= <-] l Hl. apply elem_of_app in Hl. cbn in Ht. destruct Hl; eauto.
Qed.

(** What [fp] says of an object and of an array. *)
Lemma fp_object (h : heap) (v : value) (props : list (string * jsval)) (F : list loc) :
  fp h v (JObj props) = Some F <->
  exists l ps Fc, v = VRef l /\ h !! l = Some (Obj ps)
                  /\ fp_props (fp h) ps props = Some Fc /\ F = l :: Fc.
Proof.
  split.
  - cbn. destruct v; try discriminate.
    destruct (h !! l) as [[ps|vs extra]|] eqn:El; try discriminate.
    destruct (fp_props (fp h) ps props) as [Fc|] eqn:Ec; [|discriminate].
    intros [= <-]. eauto 10.
  - intros (l & ps & Fc & -> & El & Ec & ->). cbn. now rewrite El, Ec.
Qed.

Lemma fp_array (h : heap) (v : value) (elems : list jsval) (F : list loc) :
  fp h v (JArr elems) = Some F <->
  exists l vs extra Fc, v = VRef l /\ h !! l = Some (Arr vs extra)
                        /\ fp_list (fp h) vs elems = Some Fc /\ F = l :: Fc.
Proof.
  split.
  - cbn. destruct v; try discriminate.
    destruct (h !! l) as [[ps|vs extra]|] eqn:El; try discriminate.
    destruct (fp_list (fp h) vs elems) as [Fc|] eqn:Ec; [|discriminate].
    intros [= <-]. eauto 10.
  - intros (l & vs & extra & Fc & -> & El & Ec & ->). cbn. now rewrite El, Ec.
Qed.

(** The footprint of a tree is a matter of the objects in it alone. *)
Lemma fp_frame (t : jsval) :
  forall (h h2 : heap) (v : value) (F : list loc),
    fp h v t = Some F ->
    (forall l, l ∈ F -> h2 !! l = h !! l) ->
    fp h2 v t = Some F.
Proof.
  induction t as [| |b|n|s|elems IH|props IH] using jsval_nested_ind;
    intros h h2 v F HF Hagree; try (destruct v; cbn in *; congruence).
  - apply fp_array in HF. destruct HF as (l & vs & extra & Fc & -> & El & Ec & ->).
    apply fp_array. exists l, vs, extra, Fc. repeat split; try reflexivity.
    + rewrite Hagree; [exact El | now left].
    + apply (fp_list_frame (fun l => h2 !! l = h !! l) (fp h)); auto.
      * eapply List.Forall_impl; [|exact IH]. cbn. intros t Ht v F HF Hag. eauto.
      * intros l' Hl'. apply Hagree. now right.
  - apply fp_object in HF. destruct HF as (l & ps & Fc & -> & El & Ec & ->).
    apply fp_object. exists l, ps, Fc. repeat split; try reflexivity.
    + rewrite Hagree; [exact El | now left].
    + apply (fp_props_frame (fun l => h2 !! l = h !! l) (fp h)); auto.
      * eapply List.Forall_impl; [|exact IH]. cbn. intros t Ht v F HF Hag. eauto.
      * intros l' Hl'. apply Hagree. now right.
Qed.

(** Every object of a footprint is in the heap. *)
Lemma fp_bound (t : jsval) :
  forall (h : heap) (v : value) (F : list loc),
    fp h v t = Some F -> forall l, l ∈ F -> (l < List.length h)%nat.
Proof.
  induction t as [| |b|n|s|elems IH|props IH] using jsval_nested_ind;
    intros h v F HF l Hl;
    try (destruct v; cbn in HF; try discriminate;
         repeat match type of HF with
                | (if ?c then _ else _) = _ => destruct c
                end; try discriminate; injection HF as <-; inversion Hl).
  - apply fp_array in HF. destruct HF as (l0 & vs & extra & Fc & -> & El & Ec & ->).
    apply elem_of_cons in Hl.
    destruct Hl as [->|Hl]; [now apply lookup_lt_Some in El|].
    revert l Hl. apply (fp_list_all _ (fp h) elems) with (vs := vs); auto.
    eapply List.Forall_impl; [|exact IH]. cbn. eauto.
  - apply fp_object in HF. destruct HF as (l0 & ps & Fc & -> & El & Ec & ->).
    apply elem_of_cons in Hl.
    destruct Hl as [->|Hl]; [now apply lookup_lt_Some in El|].
    revert l Hl. apply (fp_props_all _ (fp h) props) with (ps := ps); auto.
    eapply List.Forall_impl; [|exact IH]. cbn. eauto.
Qed.

Lemma fp_props_frame_heap (h h2 : heap) (ps : list (string * value))
      (props : list (string * jsval)) (F : list loc) :
  fp_props (fp h) ps props = Some F ->
  (forall l, l ∈ F -> h2 !! l = h !! l) ->
  fp_props (fp h2) ps props = Some F.
Proof.
  apply (fp_props_frame (fun l => h2 !! l = h !! l)).
  apply Forall_forall. intros kv _ v F' HF Hag. eapply fp_frame; eauto.
Qed.

Lemma fp_list_frame_heap (h h2 : heap) (vs : list value) (elems : list jsval)
      (F : list loc) :
  fp_list (fp h) vs elems = Some F ->
  (forall l, l ∈ F -> h2 !! l = h !! l) ->
  fp_list (fp h2) vs elems = Some F.
Proof.
  apply (fp_list_frame (fun l => h2 !! l = h !! l)).
  apply Forall_forall. intros kv _ v F' HF Hag. eapply fp_frame; eauto.
Qed.

Lemma fp_props_bound (h : heap) (ps : list (string * value))
      (props : list (string * jsval)) (F : list loc) :
  fp_props (fp h) ps props = Some F -> forall l, l ∈ F -> (l < List.length h)%nat.
Proof.
  apply (fp_props_all (fun l => (l < List.length h)%nat)).
  apply Forall_forall. intros kv _ v F' HF. eapply fp_bound; eauto.
Qed.

Lemma fp_list_bound (h : heap) (vs : list value) (elems : list jsval) (F : list loc) :
  fp_list (fp h) vs elems = Some F -> forall l, l ∈ F -> (l < List.length h)%nat.
Proof.
  apply (fp_list_all (fun l => (l < List.length h)%nat)).
  apply Forall_forall. intros kv _ v F' HF. eapply fp_bound; eauto.
Qed.

(** Two lists of locations, the one below a bound and the other not, make
    a list without repetition when each is one. *)
Lemma NoDup_split (n : nat) (F1 F2 : list loc) :
  NoDup F1 -> NoDup F2 ->
  (forall l, l ∈ F1 -> (l < n)%nat) -> (forall l, l ∈ F2 -> (n <= l)%nat) ->
  NoDup (F1 ++ F2).
Proof.
  intros H1 H2 Hlt Hge. apply NoDup_app. repeat split; try assumption.
  intros l Hl1 Hl2.
  specialize (Hlt _ Hl1). specialize (Hge _ Hl2). lia.
Qed.

(** The objects that [alloc] makes for a tree hold the tree, each object
    once, after the objects that were there. *)
Lemma alloc_spec (t : jsval) :
  forall h : heap,
  exists v new F,
    alloc t h = (v, (h ++ new)%list)
    /\ fp (h ++ new)%list v t = Some F
    /\ NoDup F
    /\ (forall l, l ∈ F -> (List.length h <= l)%nat).
Proof.
  induction t as [| |b|n|s|elems IH|props IH] using jsval_nested_ind; intros h;
    try (eexists _, [], []; rewrite app_nil_r; cbn [alloc];
         split; [reflexivity|]; cbn;
         rewrite ?Bool.eqb_reflx, ?Z.eqb_refl, ?String.eqb_refl;
         repeat split; [constructor | intros l Hl; inversion Hl]).
  - (* an array *)
    assert (Hlist : forall h : heap,
              exists vs new Fc,
                alloc_list alloc elems h = (vs, (h ++ new)%list)
                /\ fp_list (fp (h ++ new)%list) vs elems = Some Fc
                /\ NoDup Fc
                /\ (forall l, l ∈ Fc -> (List.length h <= l)%nat)).
    { clear h. induction IH as [|t ts Ht _ IHts]; intros h.
      - exists [], [], []. rewrite app_nil_r. cbn.
        repeat split; [constructor | intros l Hl; inversion Hl].
      - destruct (Ht h) as (v & n1 & F1 & Ea & Ef & Hnd1 & Hge1).
        destruct (IHts (h ++ n1)%list) as (vs & n2 & F2 & Eas & Efs & Hnd2 & Hge2).
        exists (v :: vs), (n1 ++ n2)%list, (F1 ++ F2)%list.
        cbn [alloc_list]. rewrite Ea, Eas, app_assoc.
        repeat split.
        + cbn [fp_list]. rewrite Efs.
          rewrite (fp_frame t _ _ _ _ Ef); [reflexivity|].
          intros l Hl. apply lookup_app_l. eapply fp_bound; eauto.
        + apply (NoDup_split (List.length (h ++ n1)%list)); auto.
          intros l Hl. eapply fp_bound; eauto.
        + intros l Hl. apply elem_of_app in Hl. destruct Hl as [Hl|Hl]; auto.
          specialize (Hge2 _ Hl). rewrite length_app in Hge2. lia. }
    destruct (Hlist h) as (vs & new & Fc & Ea & Ef & Hnd & Hge).
    exists (VRef (List.length (h ++ new)%list)), (new ++ [Arr vs []])%list,
      (List.length (h ++ new)%list :: Fc).
    cbn [alloc]. rewrite Ea, app_assoc.
    assert (Hlt : forall l, l ∈ Fc -> (l < List.length (h ++ new)%list)%nat)
      by (eapply fp_list_bound; eauto).
    repeat split.
    + apply fp_array. exists (List.length (h ++ new)%list), vs, [], Fc.
      repeat split; [now apply list_lookup_middle|].
      eapply fp_list_frame_heap; eauto.
      intros l Hl. apply lookup_app_l. auto.
    + constructor; [|assumption]. intros Hin. specialize (Hlt _ Hin). lia.
    + intros l Hl. apply elem_of_cons in Hl.
      destruct Hl as [->|Hl]; [rewrite length_app; lia | auto].
  - (* an object *)
    assert (Hlist : forall h : heap,
              exists ps new Fc,
                alloc_props alloc props h = (ps, (h ++ new)%list)
                /\ fp_props (fp (h ++ new)%list) ps props = Some Fc
                /\ NoDup Fc
                /\ (forall l, l ∈ Fc -> (List.length h <= l)%nat)).
    { clear h. induction IH as [|[k t] ts Ht _ IHts]; intros h.
      - exists [], [], []. rewrite app_nil_r. cbn.
        repeat split; [constructor | intros l Hl; inversion Hl].
      - cbn in Ht. destruct (Ht h) as (v & n1 & F1 & Ea & Ef & Hnd1 & Hge1).
        destruct (IHts (h ++ n1)%list) as (ps & n2 & F2 & Eas & Efs & Hnd2 & Hge2).
        exists ((k, v) :: ps), (n1 ++ n2)%list, (F1 ++ F2)%list.
        cbn [alloc_props]. rewrite Ea, Eas, app_assoc.
        repeat split.
        + cbn [fp_props]. rewrite String.eqb_refl, Efs.
          rewrite (fp_frame t _ _ _ _ Ef); [reflexivity|].
          intros l Hl. apply lookup_app_l. eapply fp_bound; eauto.
        + apply (NoDup_split (List.length (h ++ n1)%list)); auto.
          intros l Hl. eapply fp_bound; eauto.
        + intros l Hl. apply elem_of_app in Hl. destruct Hl as [Hl|Hl]; auto.
          specialize (Hge2 _ Hl). rewrite length_app in Hge2. lia. }
    destruct (Hlist h) as (ps & new & Fc & Ea & Ef & Hnd & Hge).
    exists (VRef (List.length (h ++ new)%list)), (new ++ [Obj ps])%list,
      (List.length (h ++ new)%list :: Fc).
    cbn [alloc]. rewrite Ea, app_assoc.
    assert (Hlt : forall l, l ∈ Fc -> (l < List.length (h ++ new)%list)%nat)
      by (eapply fp_props_bound; eauto).
    repeat split.
    + apply fp_object. exists (List.length (h ++ new)%list), ps, Fc.
      repeat split; [now apply list_lookup_middle|].
      eapply fp_props_frame_heap; eauto.
      intros l Hl. apply lookup_app_l. auto.
    + constructor; [|assumption]. intros Hin. specialize (Hlt _ Hin). lia.
    + intros l Hl. apply elem_of_cons in Hl.
      destruct Hl as [->|Hl]; [rewrite length_app; lia | auto].
Qed.

(** ** Footprints and [reify] *)

Lemma depth_array (elems : list jsval) (f : nat) :
  (depth (JArr elems) <= S f)%nat <-> Forall (fun t => (depth t <= f)%nat) elems.
Proof.
  cbn [depth]. induction elems as [|x elems IH]; cbn [List.fold_right].
  - split; [constructor | lia].
  - rewrite Forall_cons. split.
    + intros H. split; [lia|]. apply IH. lia.
    + intros [Hx Hrest]. apply IH in Hrest. lia.
Qed.

Lemma depth_object (props : list (string * jsval)) (f : nat) :
  (depth (JObj props) <= S f)%nat
  <-> Forall (fun kv => (depth (snd kv) <= f)%nat) props.
Proof.
  cbn [depth]. induction props as [|x props IH]; cbn [List.fold_right].
  - split; [constructor | lia].
  - rewrite Forall_cons. split.
    + intros H. split; [lia|]. apply IH. lia.
    + intros [Hx Hrest]. apply IH in Hrest. lia.
Qed.

Lemma depth_positive (t : jsval) (f : nat) :
  (depth t <= f)%nat ->
  match t with
  | JArr _ | JObj _ => exists f', f = S f'
  | _ => True
  end.
Proof. destruct t; cbn; try tauto; destruct f; try lia; eauto. Qed.

Lemma fp_list_traverse (g : value -> jsval -> option (list loc))
      (r : value -> option jsval) (ts : list jsval) :
  Forall (fun t => forall v F, g v t = Some F -> r v = Some t) ts ->
  forall vs F, fp_list g vs ts = Some F -> traverse r vs = Some ts.
Proof.
  induction 1 as [|t ts Ht _ IH]; intros [|x vs] F; cbn; try congruence.
  destruct (g x t) as [F1|] eqn:E1; [|congruence].
  destruct (fp_list g vs ts) as [F2|] eqn:E2; [|congruence].
  intros _. now rewrite (Ht _ _ E1), (IH _ _ E2).
Qed.

Lemma fp_props_traverse (g : value -> jsval -> option (list loc))
      (r : value -> option jsval) (ts : list (string * jsval)) :
  Forall (fun kv => forall v F, g v (snd kv) = Some F -> r v = Some (snd kv)) ts ->
  forall ps F, fp_props g ps ts = Some F -> traverse_props r ps = Some ts.
Proof.
  induction 1 as [|[k t] ts Ht _ IH]; intros [|[k' x] ps] F; cbn; try congruence.
  destruct (String.eqb_spec k' k) as [->|]; [|congruence].
  destruct (g x t) as [F1|] eqn:E1; [|congruence].
  destruct (fp_props g ps ts) as [F2|] eqn:E2; [|congruence].
  intros _. cbn in Ht. now rewrite (Ht _ _ E1), (IH _ _ E2).
Qed.

(** A heap that holds a tree at a value gives the tree back when it is
    asked with fuel for the depth of the tree. *)
Lemma fp_reify (t : jsval) :
  forall (h : heap) (v : value) (F : list loc) (f : nat),
    fp h v t = Some F -> (depth t <= f)%nat -> reify f h v = Some t.
Proof.
  induction t as [| |b|n|s|elems IH|props IH] using jsval_nested_ind;
    intros h v F f HF Hf.
  - destruct v; cbn in HF; try discriminate. now destruct f.
  - destruct v; cbn in HF; try discriminate. now destruct f.
  - destruct v as [| |b'| | |]; cbn in HF; try discriminate.
    destruct (Bool.eqb b b') eqn:E; [|discriminate].
    apply Bool.eqb_prop in E. subst. now destruct f.
  - destruct v as [| | |n'| |]; cbn in HF; try discriminate.
    destruct (Z.eqb_spec n n') as [->|]; [|discriminate]. now destruct f.
  - destruct v as [| | | |s'|]; cbn in HF; try discriminate.
    destruct (String.eqb_spec s s') as [->|]; [|discriminate]. now destruct f.
  - apply fp_array in HF. destruct HF as (l & vs & extra & Fc & -> & El & Ec & ->).
    destruct (depth_positive _ _ Hf) as [f' ->].
    apply depth_array in Hf. cbn [reify]. rewrite El.
    rewrite (fp_list_traverse (fp h) (reify f' h) elems) with (F := Fc);
      [reflexivity| |exact Ec].
    rewrite List.Forall_forall in *. intros t Hin v F HF. eapply IH; eauto.
  - apply fp_object in HF. destruct HF as (l & ps & Fc & -> & El & Ec & ->).
    destruct (depth_positive _ _ Hf) as [f' ->].
    apply depth_object in Hf. cbn [reify]. rewrite El.
    rewrite (fp_props_traverse (fp h) (reify f' h) props) with (F := Fc);
      [reflexivity| |exact Ec].
    rewrite List.Forall_forall in *. intros kv Hin v F HF. eapply IH; eauto.
Qed.

Lemma traverse_fp (g : value -> jsval -> option (list loc))
      (r : value -> option jsval) (vs : list value) :
  (forall x t, r x = Some t -> exists F, g x t = Some F) ->
  forall ts, traverse r vs = Some ts -> exists F, fp_list g vs ts = Some F.
Proof.
  intros Hr. induction vs as [|x vs IH]; intros ts; cbn.
  - intros [= <-]. cbn. eauto.
  - destruct (r x) as [t|] eqn:E1; [|discriminate].
    destruct (traverse r vs) as [ts'|]; [|discriminate].
    intros [= <-]. destruct (Hr _ _ E1) as [F1 E], (IH _ eq_refl) as [F2 E'].
    cbn. rewrite E, E'. eauto.
Qed.

Lemma traverse_props_fp (g : value -> jsval -> option (list loc))
      (r : value -> option jsval) (ps : list (string * value)) :
  (forall x t, r x = Some t -> exists F, g x t = Some F) ->
  forall ts, traverse_props r ps = Some ts -> exists F, fp_props g ps ts = Some F.
Proof.
  intros Hr. induction ps as [|[k x] ps IH]; intros ts; cbn.
  - intros [= <-]. cbn. eauto.
  - destruct (r x) as [t|] eqn:E1; [|discriminate].
    destruct (traverse_props r ps) as [ts'|]; [|discriminate].
    intros [= <-]. destruct (Hr _ _ E1) as [F1 E], (IH _ eq_refl) as [F2 E'].
    cbn. rewrite String.eqb_refl, E, E'. eauto.
Qed.

(** What [reify] returns, the heap holds. *)
Lemma reify_fp (f : nat) :
  forall (h : heap) (v : value) (t : jsval),
    reify f h v = Some t -> exists F, fp h v t = Some F.
Proof.
  induction f as [|f IH]; intros h v t.
  - destruct v; cbn; try discriminate; intros [= <-]; cbn;
      rewrite ?Bool.eqb_reflx, ?Z.eqb_refl, ?String.eqb_refl; eauto.
  - destruct v; cbn [reify]; try (intros [= <-]; cbn;
      rewrite ?Bool.eqb_reflx, ?Z.eqb_refl, ?String.eqb_refl; eauto).
    destruct (h !! l) as [[ps|vs extra]|] eqn:El; [| |discriminate].
    + destruct (traverse_props (reify f h) ps) as [props|] eqn:Et; [|discriminate].
      intros [= <-].
      destruct (traverse_props_fp (fp h) (reify f h) ps (IH h) _ Et) as [Fc Ec].
      exists (l :: Fc). apply fp_object. eauto 10.
    + destruct (traverse (reify f h) vs) as [elems|] eqn:Et; [|discriminate].
      intros [= <-].
      destruct (traverse_fp (fp h) (reify f h) vs (IH h) _ Et) as [Fc Ec].
      exists (l :: Fc). apply fp_array. eauto 10.
Qed.

Lemma traverse_Forall (P : jsval -> Prop) (r : value -> option jsval)
      (vs : list value) :
  (forall x t, r x = Some t -> P t) ->
  forall ts, traverse r vs = Some ts -> Forall P ts.
Proof.
  intros Hr. induction vs as [|x vs IH]; intros ts; cbn.
  - intros [= <-]. constructor.
  - destruct (r x) as [t|] eqn:E1; [|discriminate].
    destruct (traverse r vs) as [ts'|]; [|discriminate].
    intros [= <-]. constructor; eauto.
Qed.

Lemma traverse_props_Forall (P : jsval -> Prop) (r : value -> option jsval)
      (ps : list (string * value)) :
  (forall x t, r x = Some t -> P t) ->
  forall ts, traverse_props r ps = Some ts -> Forall (fun kv => P (snd kv)) ts.
Proof.
  intros Hr. induction ps as [|[k x] ps IH]; intros ts; cbn.
  - intros [= <-]. constructor.
  - destruct (r x) as [t|] eqn:E1; [|discriminate].
    destruct (traverse_props r ps) as [ts'|]; [|discriminate].
    intros [= <-]. constructor; cbn; eauto.
Qed.

(** [reify] with fuel [f] returns a tree of depth [f] at most. *)
Lemma reify_depth (f : nat) :
  forall (h : heap) (v : value) (t : jsval),
    reify f h v = Some t -> (depth t <= f)%nat.
Proof.
  induction f as [|f IH]; intros h v t.
  - destruct v; cbn; try discriminate; intros [= <-]; cbn; lia.
  - destruct v; cbn [reify]; try (intros [= <-]; cbn; lia).
    destruct (h !! l) as [[ps|vs extra]|] eqn:El; [| |discriminate].
    + destruct (traverse_props (reify f h) ps) as [props|] eqn:Et; [|discriminate].
      intros [= <-]. apply depth_object.
      exact (traverse_props_Forall (fun t => (depth t <= f)%nat) (reify f h) ps
               (IH h) _ Et).
    + destruct (traverse (reify f h) vs) as [elems|] eqn:Et; [|discriminate].
      intros [= <-]. apply depth_array.
      exact (traverse_Forall (fun t => (depth t <= f)%nat) (reify f h) vs
               (IH h) _ Et).
Qed.

(** A tree that [reify] returned is returned again from every heap that
    keeps the objects of the first, with as much fuel or more. *)
Lemma reify_extends (f f' : nat) (h h' : heap) (v : value) (t : jsval) :
  reify f h v = Some t ->
  (f <= f')%nat ->
  extends (List.length h) h h' ->
  reify f' h' v = Some t.
Proof.
  intros Hr Hf [_ Hold].
  destruct (reify_fp _ _ _ _ Hr) as [F HF].
  apply (fp_reify t h' v F).
  - apply (fp_frame t h); [exact HF|].
    intros l Hl. apply Hold. eapply fp_bound; eauto.
  - apply reify_depth in Hr. lia.
Qed.

(** ** Properties of objects and of trees *)

Lemma assoc_set_assoc_same {A : Type} (k : string) (a : A) (l : list (string * A)) :
  assoc k (set_assoc k a l) = Some a.
Proof.
  induction l as [|[k' a'] l IH]; cbn.
  - now rewrite String.eqb_refl.
  - destruct (String.eqb k' k) eqn:E; cbn.
    + now rewrite String.eqb_refl.
    + now rewrite E.
Qed.

Lemma set_assoc_twice {A : Type} (k : string) (a b : A) (l : list (string * A)) :
  set_assoc k b (set_assoc k a l) = set_assoc k b l.
Proof.
  induction l as [|[k' a'] l IH]; cbn.
  - now rewrite String.eqb_refl.
  - destruct (String.eqb k' k) eqn:E; cbn.
    + now rewrite String.eqb_refl.
    + now rewrite E, IH.
Qed.

Lemma set_assoc_same {A : Type} (k : string) (a : A) (l : list (string * A)) :
  assoc k l = Some a -> set_assoc k a l = l.
Proof.
  induction l as [|[k' a'] l IH]; cbn; [discriminate|].
  destruct (String.eqb_spec k' k) as [->|Hne].
  - now intros [= ->].
  - intros H. now rewrite IH.
Qed.

Lemma traverse_props_set_assoc (g : value -> option jsval) (k : string) (x : value)
      (t : jsval) (ps : list (string * value)) (props : list (string * jsval)) :
  traverse_props g ps = Some props -> g x = Some t ->
  traverse_props g (set_assoc k x ps) = Some (set_assoc k t props).
Proof.
  intros Hps Hx. revert props Hps.
  induction ps as [|[k' x'] ps IH]; intros props; cbn.
  - intros [= <-]. cbn. now rewrite Hx.
  - destruct (g x') as [t'|] eqn:E1; [|discriminate].
    destruct (traverse_props g ps) as [ts|] eqn:E2; [|discriminate].
    intros [= <-]. cbn. destruct (String.eqb k' k).
    + cbn. now rewrite Hx, E2.
    + cbn. now rewrite E1, (IH _ eq_refl).
Qed.

(** The properties of an object and of its tree go by the same keys. *)
Lemma traverse_props_assoc (g : value -> option jsval) (k : string)
      (ps : list (string * value)) (props : list (string * jsval)) :
  traverse_props g ps = Some props ->
  match assoc k ps, assoc k props with
  | Some x, Some t => g x = Some t
  | None, None => True
  | _, _ => False
  end.
Proof.
  revert props. induction ps as [|[k' x'] ps IH]; intros props; cbn.
  - now intros [= <-].
  - destruct (g x') as [t'|] eqn:E1; [|discriminate].
    destruct (traverse_props g ps) as [ts|] eqn:E2; [|discriminate].
    intros [= <-]. cbn. destruct (String.eqb k' k); [exact E1 | now apply IH].
Qed.

Lemma traverse_props_keys (g : value -> option jsval)
      (ps : list (string * value)) (props : list (string * jsval)) :
  traverse_props g ps = Some props -> List.map fst ps = List.map fst props.
Proof.
  revert props. induction ps as [|[k' x'] ps IH]; intros props; cbn.
  - now intros [= <-].
  - destruct (g x') as [t'|] eqn:E1; [|discriminate].
    destruct (traverse_props g ps) as [ts|] eqn:E2; [|discriminate].
    intros [= <-]. cbn. now rewrite (IH _ eq_refl).
Qed.

(** The value and the tree of a primitive, of an object and of an array. *)
Lemma reify_shape (f : nat) (h : heap) (x : value) (t : jsval) :
  reify f h x = Some t ->
  match t with
  | JUndefined => x = VUndefined
  | JNull => x = VNull
  | JBool b => x = VBool b
  | JNum n => x = VNum n
  | JStr s => x = VStr s
  | JArr elems =>
      exists l vs extra f', x = VRef l /\ f = S f' /\ h !! l = Some (Arr vs extra)
                            /\ traverse (reify f' h) vs = Some elems
  | JObj props =>
      exists l ps f', x = VRef l /\ f = S f' /\ h !! l = Some (Obj ps)
                      /\ traverse_props (reify f' h) ps = Some props
  end.
Proof.
  destruct x; try (destruct f; cbn; intros [= <-]; reflexivity).
  destruct f as [|f']; cbn; [discriminate|].
  destruct (h !! l) as [[ps|vs extra]|] eqn:El; [| |discriminate].
  - destruct (traverse_props (reify f' h) ps) as [props|] eqn:Et; [|discriminate].
    intros [= <-]. eauto 10.
  - destruct (traverse (reify f' h) vs) as [elems|] eqn:Et; [|discriminate].
    intros [= <-]. eauto 10.
Qed.

Lemma reify_truthy (f : nat) (h : heap) (x : value) (t : jsval) :
  reify f h x = Some t -> to_boolean x = truthy t.
Proof.
  intros H. apply reify_shape in H. destruct t; subst; try reflexivity.
  - destruct H as (l & vs & extra & f' & -> & _). reflexivity.
  - destruct H as (l & ps & f' & -> & _). reflexivity.
Qed.

Lemma reify_carries_body (f : nat) (h : heap) (x : value) (t : jsval) :
  reify f h x = Some t -> carries_body x = method_carries_body t.
Proof.
  intros H. apply reify_shape in H. destruct t; subst; try reflexivity.
  - destruct H as (l & vs & extra & f' & -> & _). reflexivity.
  - destruct H as (l & ps & f' & -> & _). reflexivity.
Qed.

(** What [get_prop] reads from an object that holds a tree is what holds
    the field of the tree. *)
Lemma get_prop_field (f : nat) (h : heap) (e : value) (props : list (string * jsval))
      (k : string) :
  reify (S f) h e = Some (JObj props) ->
  exists x, get_prop e k h = (Ok x, h) /\ reify f h x = Some (field k (JObj props)).
Proof.
  intros H. apply reify_shape in H.
  destruct H as (l & ps & f' & -> & [= <-] & El & Et).
  unfold get_prop. rewrite El. cbn [field].
  pose proof (traverse_props_assoc _ k _ _ Et) as Hk.
  destruct (assoc k ps) as [x|], (assoc k props) as [t|]; try contradiction.
  - eauto.
  - exists VUndefined. split; [reflexivity|]. now destruct f.
Qed.

(** The keys of a value that holds a mapping are the keys of the mapping. *)
Lemma keys_mapping (f : nat) (h : heap) (x : value) (cprops : list (string * jsval)) :
  reify f h x = Some (JObj cprops) ->
  keys x h = (Ok (List.map fst cprops), h).
Proof.
  intros H. apply reify_shape in H.
  destruct H as (l & ps & f' & -> & -> & El & Et).
  unfold keys. rewrite El. now rewrite (traverse_props_keys _ _ _ Et).
Qed.

(** An object that its text gives back has no property that is
    [undefined]. *)
Lemma normalize_props_length (props : list (string * jsval)) :
  match normalize (JObj props) with
  | JObj props' => (List.length props' <= List.length props)%nat
  | _ => False
  end.
Proof.
  induction props as [|[k x] props IH]; cbn [normalize] in *; [cbn; lia|].
  destruct (is_undefined x); cbn [List.length]; lia.
Qed.

Lemma normalized_props (props : list (string * jsval)) :
  normalize (JObj props) = JObj props ->
  Forall (fun kv => is_undefined (snd kv) = false /\ normalize (snd kv) = snd kv) props.
Proof.
  induction props as [|[k x] props IH]; [constructor|].
  pose proof (normalize_props_length props) as Hlen.
  cbn [normalize] in *. destruct (is_undefined x) eqn:Eu.
  - intros [= E]. rewrite E in Hlen. cbn in Hlen. lia.
  - intros [= Ex E]. constructor; [cbn; auto|].
    apply IH. now rewrite E.
Qed.

(** ** The copy of an endpoint *)

(** The copy of an object that is JSON data: a new object for each object
    of the tree, each once, after the objects that the heap held. *)
Lemma deepCopy_object (h : heap) (e : value) (props : list (string * jsval)) :
  reify (S (List.length h)) h e = Some (JObj props) ->
  normalize (JObj props) = JObj props ->
  exists new r ps Fc,
    deepCopy e h = (Ok (VRef r), (h ++ new)%list)
    /\ (h ++ new)%list !! r = Some (Obj ps)
    /\ fp_props (fp (h ++ new)%list) ps props = Some Fc
    /\ NoDup (r :: Fc)
    /\ (forall l, l ∈ r :: Fc ->
          (List.length h <= l < List.length (h ++ new)%list)%nat).
Proof.
  intros Hr Hn. unfold deepCopy. rewrite Hr, Hn.
  destruct (alloc_spec (JObj props) h) as (v & new & F & Ea & Ef & Hnd & Hge).
  rewrite Ea.
  pose proof (fp_bound _ _ _ _ Ef) as Hlt.
  apply fp_object in Ef. destruct Ef as (r & ps & Fc & -> & El & Ec & ->).
  exists new, r, ps, Fc. repeat split; auto.
Qed.

Lemma props_untouched (h1 H : heap) (ps : list (string * value))
      (props : list (string * jsval)) (Fc : list loc) (f : nat) :
  fp_props (fp h1) ps props = Some Fc ->
  (forall l, l ∈ Fc -> H !! l = h1 !! l) ->
  Forall (fun kv => (depth (snd kv) <= f)%nat) props ->
  traverse_props (reify f H) ps = Some props.
Proof.
  intros Hfp Hagree Hdepth.
  apply (fp_props_traverse (fp H) (reify f H) props) with (F := Fc).
  - rewrite List.Forall_forall in *. intros kv Hin v F HF.
    eapply fp_reify; eauto.
  - eapply fp_props_frame_heap; eauto.
Qed.

Lemma fp_props_assoc (g : value -> jsval -> option (list loc)) (k : string)
      (props : list (string * jsval)) :
  forall (ps : list (string * value)) (Fc : list loc),
    fp_props g ps props = Some Fc ->
    match assoc k ps, assoc k props with
    | Some x, Some t => exists Fx, g x t = Some Fx /\ (forall l, l ∈ Fx -> l ∈ Fc)
    | None, None => True
    | _, _ => False
    end.
Proof.
  induction props as [|[k' t] props IH]; intros [|[k'' x] ps] Fc; cbn;
    try congruence; try tauto.
  destruct (String.eqb_spec k'' k') as [->|]; [|congruence].
  destruct (g x t) as [F1|] eqn:E1; [|congruence].
  destruct (fp_props g ps props) as [F2|] eqn:E2; [|congruence].
  intros [= <-]. destruct (String.eqb k' k).
  - exists F1. split; [exact E1|]. intros l Hl. apply elem_of_app. now left.
  - specialize (IH _ _ E2).
    destruct (assoc k ps) as [y|], (assoc k props) as [u|]; try tauto.
    destruct IH as (Fx & Ex & Hsub). exists Fx. split; [exact Ex|].
    intros l Hl. apply elem_of_app. right. auto.
Qed.

(** The copy of a mapping of the endpoint, and the tree of the copy of the
    endpoint after a change of that mapping alone. *)
Lemma props_touched (h1 : heap) (name : string) (cprops : list (string * jsval))
      (props : list (string * jsval)) :
  forall (ps : list (string * value)) (Fc : list loc),
    fp_props (fp h1) ps props = Some Fc ->
    NoDup Fc ->
    assoc name props = Some (JObj cprops) ->
    exists c cps Fcc,
      assoc name ps = Some (VRef c)
      /\ h1 !! c = Some (Obj cps)
      /\ fp_props (fp h1) cps cprops = Some Fcc
      /\ c ∈ Fc
      /\ (forall l, l ∈ Fcc -> l ∈ Fc /\ l <> c)
      /\ forall (H : heap) (T : jsval) (f : nat),
           (forall l, l ∈ Fc -> l <> c -> H !! l = h1 !! l) ->
           reify f H (VRef c) = Some T ->
           Forall (fun kv => (depth (snd kv) <= f)%nat) props ->
           traverse_props (reify f H) ps = Some (set_assoc name T props).
Proof.
  induction props as [|[k' t] props IH]; intros [|[k'' x] ps] Fc; cbn;
    try congruence.
  destruct (String.eqb_spec k'' k') as [->|]; [|congruence].
  destruct (fp h1 x t) as [F1|] eqn:E1; [|congruence].
  destruct (fp_props (fp h1) ps props) as [F2|] eqn:E2; [|congruence].
  intros [= <-] Hnd. apply NoDup_app in Hnd. destruct Hnd as (Hnd1 & Hdisj & Hnd2).
  destruct (String.eqb_spec k' name) as [->|Hne].
  - intros [= ->]. apply fp_object in E1.
    destruct E1 as (c & cps & Fcc & -> & El & Ec & ->).
    apply NoDup_cons in Hnd1. destruct Hnd1 as [Hc Hndc].
    exists c, cps, Fcc. repeat split; auto.
    + apply elem_of_app. left. now left.
    + apply elem_of_app. left. now right.
    + intros ->. contradiction.
    + intros H T f Hagree HT Hdepth. apply Forall_cons in Hdepth.
      destruct Hdepth as [_ Hdepth]. cbn. rewrite HT.
      rewrite (props_untouched h1 H ps props F2 f); auto.
      intros l Hl. apply Hagree; [apply elem_of_app; now right|].
      intros ->. apply (Hdisj c); [now left | exact Hl].
  - intros Hassoc.
    destruct (IH ps F2 E2 Hnd2 Hassoc)
      as (c & cps & Fcc & Ea & El & Ec & Hin & Hsub & Hrun).
    exists c, cps, Fcc. repeat split; auto.
    + apply elem_of_app. now right.
    + apply elem_of_app. right. now apply Hsub.
    + now apply Hsub.
    + intros H T f Hagree HT Hdepth. apply Forall_cons in Hdepth.
      destruct Hdepth as [Hd Hdepth]. cbn in Hd. cbn.
      rewrite (fp_reify t H x F1 f); [| |exact Hd].
      * rewrite (Hrun H T f); auto.
        intros l Hl Hlc. apply Hagree; [apply elem_of_app; now right | exact Hlc].
      * apply (fp_frame t h1); [exact E1|].
        intros l Hl. apply Hagree; [apply elem_of_app; now left|].
        intros ->. apply (Hdisj c); [exact Hl | exact Hin].
Qed.

(** ** The variants of [injectPayload], one by one *)

Lemma runs_ret {A : Type} (a : A) (h : heap) : runs (ret a) h a h.
Proof. reflexivity. Qed.

Lemma runs_bind {A B : Type} (m : M heap A) (k : A -> M heap B) (h h1 h2 : heap)
      (a : A) (b : B) :
  runs m h a h1 -> runs (k a) h1 b h2 -> runs (bind m k) h b h2.
Proof. unfold runs, bind. now intros ->. Qed.

Lemma runs_get_prop (h : heap) (r : loc) (ps : list (string * value)) (k : string) :
  h !! r = Some (Obj ps) ->
  runs (get_prop (VRef r) k) h
    (match assoc k ps with Some x => x | None => VUndefined end) h.
Proof. intros E. unfold runs, get_prop. now rewrite E. Qed.

Lemma runs_set_prop (h : heap) (r : loc) (ps : list (string * value)) (k : string)
      (x : value) :
  h !! r = Some (Obj ps) ->
  runs (set_prop (VRef r) k x) h tt (<[r := Obj (set_assoc k x ps)]> h).
Proof. intros E. unfold runs, set_prop. now rewrite E. Qed.

Lemma runs_new_object (h : heap) (o : object) :
  runs (new_object o) h (VRef (List.length h)) (h ++ [o])%list.
Proof. reflexivity. Qed.

(** The objects of a tree that hangs from a new object of a closed heap
    are new. *)
Lemma fp_list_where (P : value -> Prop) (Q : loc -> Prop)
      (f : value -> jsval -> option (list loc)) (ts : list jsval) :
  Forall (fun t => forall v F, P v -> f v t = Some F -> forall l, l ∈ F -> Q l) ts ->
  forall vs F, Forall P vs -> fp_list f vs ts = Some F -> forall l, l ∈ F -> Q l.
Proof.
  induction 1 as [|t ts Ht _ IH]; intros [|x vs] F HP; cbn; try congruence.
  - intros [= <-] l Hl. inversion Hl.
  - destruct (f x t) as [F1|] eqn:E1; [|congruence].
    destruct (fp_list f vs ts) as [F2|] eqn:E2; [|congruence].
    apply Forall_cons in HP. destruct HP as [Hx HP].
    intros [= <-] l Hl. apply elem_of_app in Hl. destruct Hl; eauto.
Qed.

Lemma fp_props_where (P : value -> Prop) (Q : loc -> Prop)
      (f : value -> jsval -> option (list loc)) (ts : list (string * jsval)) :
  Forall (fun kv => forall v F, P v -> f v (snd kv) = Some F ->
                                forall l, l ∈ F -> Q l) ts ->
  forall ps F, Forall (fun kv => P (snd kv)) ps -> fp_props f ps ts = Some F ->
               forall l, l ∈ F -> Q l.
Proof.
  induction 1 as [|[k t] ts Ht _ IH]; intros [|[k' x] ps] F HP; cbn; try congruence.
  - intros [= <-] l Hl. inversion Hl.
  - destruct (String.eqb k' k); [|congruence].
    destruct (f x t) as [F1|] eqn:E1; [|congruence].
    destruct (fp_props f ps ts) as [F2|] eqn:E2; [|congruence].
    apply Forall_cons in HP. destruct HP as [Hx HP]. cbn in Hx, Ht.
    intros [= <-] l Hl. apply elem_of_app in Hl. destruct Hl; eauto.
Qed.

Lemma fp_fresh (base : nat) (h : heap) (t : jsval) :
  closed_from base h ->
  forall (v : value) (F : list loc),
    val_fresh base v -> fp h v t = Some F -> forall l, l ∈ F -> (base <= l)%nat.
Proof.
  intros Hclosed.
  induction t as [| |b|n|s|elems IH|props IH] using jsval_nested_ind;
    intros v F Hv HF l Hl;
    try (destruct v; cbn in HF; try discriminate;
         repeat match type of HF with
                | (if ?c then _ else _) = _ => destruct c
                end; try discriminate; injection HF as <-; inversion Hl).
  - apply fp_array in HF. destruct HF as (l0 & vs & extra & Fc & -> & El & Ec & ->).
    apply elem_of_cons in Hl. destruct Hl as [->|Hl]; [exact Hv|].
    destruct (Hclosed l0 _ Hv El) as [Hvs _].
    exact (fp_list_where (val_fresh base) _ (fp h) elems IH vs Fc Hvs Ec l Hl).
  - apply fp_object in HF. destruct HF as (l0 & ps & Fc & -> & El & Ec & ->).
    apply elem_of_cons in Hl. destruct Hl as [->|Hl]; [exact Hv|].
    pose proof (Hclosed l0 _ Hv El) as Hps.
    exact (fp_props_where (val_fresh base) _ (fp h) props IH ps Fc Hps Ec l Hl).
Qed.

(** Trees that are apart. *)
Lemma apart_le (h : heap) (vs : list value) :
  forall (Ts : list jsval) (lo hi : nat), apart h lo hi vs Ts -> (lo <= hi)%nat.
Proof.
  induction vs as [|v vs IH]; intros [|T Ts] lo hi; cbn; try tauto.
  intros (mid & F & _ & Hle & _ & Hrest). apply IH in Hrest. lia.
Qed.

Lemma apart_from (h : heap) (vs : list value) (Ts : list jsval) (lo lo' hi : nat) :
  (lo' <= lo)%nat -> apart h lo hi vs Ts -> apart h lo' hi vs Ts.
Proof.
  destruct vs as [|v vs], Ts as [|T Ts]; cbn; try tauto; [lia|].
  intros Hlo (mid & F & HF & Hle & Hin & Hrest).
  exists mid, F. split; [exact HF|]. split; [lia|]. split; [|exact Hrest].
  intros l Hl. apply Hin in Hl. lia.
Qed.

Lemma apart_frame (h h2 : heap) (hi : nat) :
  (forall l, (l < hi)%nat -> h2 !! l = h !! l) ->
  forall (vs : list value) (Ts : list jsval) (lo : nat),
    apart h lo hi vs Ts -> apart h2 lo hi vs Ts.
Proof.
  intros Hagree vs. induction vs as [|v vs IH]; intros [|T Ts] lo; cbn; try tauto.
  intros (mid & F & HF & Hle & Hin & Hrest).
  pose proof (apart_le _ _ _ _ _ Hrest) as Hmid.
  exists mid, F. split; [|auto].
  apply (fp_frame T h h2 v F HF). intros l Hl. apply Hagree.
  apply Hin in Hl. lia.
Qed.

Lemma apart_app (h : heap) (vs2 : list value) (Ts2 : list jsval) (mid hi : nat) :
  apart h mid hi vs2 Ts2 ->
  forall (vs1 : list value) (Ts1 : list jsval) (lo : nat),
    apart h lo mid vs1 Ts1 -> apart h lo hi (vs1 ++ vs2) (Ts1 ++ Ts2).
Proof.
  intros H2 vs1. induction vs1 as [|v vs1 IH]; intros [|T Ts1] lo; cbn; try tauto.
  - intros Hlo. exact (apart_from h vs2 Ts2 mid lo hi Hlo H2).
  - intros (m & F & HF & Hle & Hin & Hrest). exists m, F. auto.
Qed.

Lemma made_all_nil (h : heap) : made_all h h [] [].
Proof. split; [apply extends_refl | split; [constructor | cbn; lia]]. Qed.

Lemma made_all_app (h h1 h2 : heap) (vs1 vs2 : list value) (Ts1 Ts2 : list jsval) :
  made_all h h1 vs1 Ts1 -> made_all h1 h2 vs2 Ts2 ->
  made_all h h2 (vs1 ++ vs2) (Ts1 ++ Ts2).
Proof.
  intros (He1 & Hv1 & Ha1) (He2 & Hv2 & Ha2). split; [|split].
  - destruct He1 as [L1 E1], He2 as [L2 E2]. split; [lia|].
    intros l Hl. rewrite E2 by lia. now apply E1.
  - apply Forall2_app; [|exact Hv2].
    eapply Forall2_impl; [exact Hv1|]. intros v T Hr.
    apply (reify_extends (S (List.length h1)) (S (List.length h2)) h1 h2 v T Hr);
      [destruct He2; lia | exact He2].
  - apply (apart_app h2 vs2 Ts2 (List.length h1)); [exact Ha2|].
    apply (apart_frame h1 h2); [apply He2 | exact Ha1].
Qed.

(** The variant of a block of [injectPayload]. *)
Lemma made_all_one {A : Type} (m : M heap A) (a : A) (h h' : heap) (v : value)
      (T : jsval) :
  writes_above (List.length h) m (fun _ => True) ->
  runs m h a h' ->
  val_fresh (List.length h) v ->
  extends (List.length h) h h' ->
  reify (S (List.length h')) h' v = Some T ->
  made_all h h' [v] [T].
Proof.
  intros Hwa Hrun Hv He Hr. split; [exact He|]. split.
  - constructor; [exact Hr | constructor].
  - destruct (Hwa h) as (_ & Hclosed & _); [lia | |].
    { intros l o Hl E. apply lookup_lt_Some in E. lia. }
    rewrite Hrun in Hclosed. cbn [snd] in Hclosed.
    destruct (reify_fp _ _ _ _ Hr) as [F HF].
    exists (List.length h'), F. split; [exact HF|].
    split; [apply He|]. split; [|cbn; lia].
    intros l Hl. split.
    + exact (fp_fresh _ _ _ Hclosed v F Hv HF l Hl).
    + exact (fp_bound _ _ _ _ HF l Hl).
Qed.

(** The first of two goals, kept for the second. *)
Ltac run_first :=
  match goal with
  | |- ?R /\ _ => assert (Hcode : R); [|split; [exact Hcode|]]
  end.

(** A block of [injectPayload] writes to its copy only. *)
Ltac block_above :=
  match goal with
  | |- exists v h', runs ?m ?h _ _ /\ _ =>
      assert (Hwa : writes_above (List.length h) m (fun _ => True))
  end;
  [ wa_steps;
    try (eapply wa_bind with (Q := fun _ => True);
         [ first [ apply wa_urlBase
                 | destruct (is_object_type _); [wa_leaf|]; wa_steps; wa_leaf ]
         | intros ? _ ]);
    wa_steps; now apply wa_ret
  | ].

(** The endpoint is held as it was by every heap that keeps the objects of
    the first. *)
Lemma endpoint_kept (h h' : heap) (e : value) (E : jsval) :
  reify (S (List.length h)) h e = Some E ->
  extends (List.length h) h h' ->
  reify (S (List.length h')) h' e = Some E.
Proof.
  intros Hr He. eapply reify_extends; [exact Hr| |exact He]. destruct He. lia.
Qed.

Lemma field_object (k : string) (props cprops : list (string * jsval)) :
  field k (JObj props) = JObj cprops -> assoc k props = Some (JObj cprops).
Proof. cbn. destruct (assoc k props); [now intros -> | discriminate]. Qed.

Lemma depth_props (h : heap) (e : value) (props : list (string * jsval)) :
  reify (S (List.length h)) h e = Some (JObj props) ->
  Forall (fun kv => (depth (snd kv) <= List.length h)%nat) props.
Proof. intros Hr. apply reify_depth in Hr. now apply depth_object. Qed.

Lemma depth_weaken (props : list (string * jsval)) (f f' : nat) :
  Forall (fun kv => (depth (snd kv) <= f)%nat) props -> (f <= f')%nat ->
  Forall (fun kv => (depth (snd kv) <= f')%nat) props.
Proof.
  intros H Hf. eapply List.Forall_impl; [|exact H]. cbn. intros kv Hkv. lia.
Qed.

Lemma reify_object (H : heap) (r : loc) (ps : list (string * value))
      (P : list (string * jsval)) (f : nat) :
  H !! r = Some (Obj ps) -> traverse_props (reify f H) ps = Some P ->
  reify (S f) H (VRef r) = Some (JObj P).
Proof. intros E Et. cbn. now rewrite E, Et. Qed.

(** The tree of a copy whose mapping [name] got the payload under [key]
    and whose label was set: scenario of a mapping that the endpoint
    has. *)
Lemma variant_in_mapping (h h1 H : heap) (e : value) (props cprops : list (string * jsval))
      (r c : loc) (ps cps root : list (string * value)) (Fc Fcc : list loc)
      (name key payload label : string) :
  reify (S (List.length h)) h e = Some (JObj props) ->
  assoc name props = Some (JObj cprops) ->
  fp_props (fp h1) ps props = Some Fc ->
  fp_props (fp h1) cps cprops = Some Fcc ->
  (forall l, l ∈ Fcc -> l ∈ Fc /\ l <> c) ->
  (forall (H : heap) (T : jsval) (f : nat),
     (forall l, l ∈ Fc -> l <> c -> H !! l = h1 !! l) ->
     reify f H (VRef c) = Some T ->
     Forall (fun kv => (depth (snd kv) <= f)%nat) props ->
     traverse_props (reify f H) ps = Some (set_assoc name T props)) ->
  (List.length h < List.length H)%nat ->
  (forall l, l ∈ Fc -> l <> c -> H !! l = h1 !! l) ->
  H !! c = Some (Obj (set_assoc key (VStr payload) cps)) ->
  H !! r = Some (Obj (set_assoc "injectionPoint" (VStr label) root)) ->
  (root = ps \/ root = set_assoc name (VRef c) ps) ->
  reify (S (List.length H)) H (VRef r)
  = Some (tagged label (in_mapping name key payload (JObj props))).
Proof.
  intros Hr Hassoc Hfp Hfpc Hsub Hrun Hlen Hagree Hc Hroot Hps.
  pose proof (depth_props _ _ _ Hr) as Hdepth.
  assert (Hchild : (depth (JObj cprops) <= List.length h)%nat)
    by exact (assoc_Forall (fun t => (depth t <= List.length h)%nat) _ _ _
                Hdepth Hassoc).
  destruct (List.length H) as [|f] eqn:EH; [lia|].
  assert (HT : reify (S f) H (VRef c)
               = Some (JObj (set_assoc key (JStr payload) cprops))).
  { apply (reify_object H c (set_assoc key (VStr payload) cps)); [exact Hc|].
    apply traverse_props_set_assoc; [|now destruct f].
    apply (props_untouched h1 H cps cprops Fcc f); [exact Hfpc| |].
    - intros l Hl. destruct (Hsub l Hl). auto.
    - destruct (List.length h) as [|m]; [cbn in Hchild; lia|].
      apply depth_object in Hchild. apply (depth_weaken _ m); [exact Hchild | lia]. }
  assert (Hprops : traverse_props (reify (S f) H) ps
                   = Some (set_assoc name (JObj (set_assoc key (JStr payload) cprops))
                             props)).
  { apply Hrun; [exact Hagree | exact HT |].
    apply (depth_weaken _ (List.length h)); [exact Hdepth | lia]. }
  apply (reify_object H r (set_assoc "injectionPoint" (VStr label) root));
    [exact Hroot|].
  cbn [tagged in_mapping with_field field]. rewrite Hassoc. cbn [mapping].
  apply traverse_props_set_assoc; [|reflexivity].
  destruct Hps as [-> | ->]; [exact Hprops|].
  rewrite <- (set_assoc_twice name (JObj (set_assoc key (JStr payload) cprops))
                (JObj (set_assoc key (JStr payload) cprops)) props).
  apply traverse_props_set_assoc; [exact Hprops | exact HT].
Qed.

Lemma fp_shape (h : heap) (x : value) (t : jsval) (F : list loc) :
  fp h x t = Some F ->
  match t with
  | JUndefined => x = VUndefined
  | JNull => x = VNull
  | JBool b => x = VBool b
  | JNum n => x = VNum n
  | JStr s => x = VStr s
  | JArr _ | JObj _ => exists l, x = VRef l
  end.
Proof.
  destruct t, x; cbn; try discriminate; try reflexivity; eauto.
  - destruct (Bool.eqb b b0) eqn:E; [|discriminate].
    apply Bool.eqb_prop in E. now subst.
  - destruct (Z.eqb_spec n n0); [now subst | discriminate].
  - destruct (String.eqb_spec s s0); [now subst | discriminate].
Qed.

(** The value that the copy has for a field of the endpoint that is no
    object: the primitive itself, and nothing for a field that is
    missing. *)
Lemma copy_field (h1 : heap) (ps : list (string * value))
      (props : list (string * jsval)) (Fc : list loc) (k : string) :
  fp_props (fp h1) ps props = Some Fc ->
  Forall (fun kv => is_undefined (snd kv) = false /\ normalize (snd kv) = snd kv)
    props ->
  match field k (JObj props) with
  | JUndefined => assoc k ps = None
  | JNull => assoc k ps = Some VNull
  | JBool b => assoc k ps = Some (VBool b)
  | JNum n => assoc k ps = Some (VNum n)
  | JStr s => assoc k ps = Some (VStr s)
  | JArr _ | JObj _ => exists l, assoc k ps = Some (VRef l)
  end.
Proof.
  intros Hfp Hnorm. cbn [field].
  pose proof (fp_props_assoc (fp h1) k props ps Fc Hfp) as Hk.
  destruct (assoc k ps) as [x|] eqn:Ex, (assoc k props) as [t|] eqn:Et;
    try contradiction; [|reflexivity].
  destruct Hk as (Fx & HF & _). apply fp_shape in HF.
  assert (Hu : is_undefined t = false).
  { clear - Hnorm Et. induction Hnorm as [|[k' t'] props [Hu _] _ IH];
      cbn in Et; [discriminate|].
    destruct (String.eqb k' k); [now injection Et as <- | now apply IH]. }
  destruct t; try discriminate Hu; subst; try reflexivity.
  - destruct HF as [l ->]. eauto.
  - destruct HF as [l ->]. eauto.
Qed.

(** The tree of a copy one field of which was set, and whose label was
    set. *)
Lemma variant_field (h h1 H : heap) (e : value) (props : list (string * jsval))
      (r : loc) (ps root : list (string * value)) (Fc : list loc)
      (k label : string) (x x0 : value) (t : jsval) :
  reify (S (List.length h)) h e = Some (JObj props) ->
  fp_props (fp h1) ps props = Some Fc ->
  (List.length h <= List.length H)%nat ->
  (forall l, l ∈ Fc -> H !! l = h1 !! l) ->
  reify (List.length H) H x = Some t ->
  H !! r = Some (Obj (set_assoc "injectionPoint" (VStr label) (set_assoc k x root))) ->
  (root = ps \/ root = set_assoc k x0 ps) ->
  reify (S (List.length H)) H (VRef r)
  = Some (tagged label (with_field k t (JObj props))).
Proof.
  intros Hr Hfp Hlen Hagree Hx Hroot Hps.
  pose proof (depth_props _ _ _ Hr) as Hdepth.
  apply (reify_object H r
           (set_assoc "injectionPoint" (VStr label) (set_assoc k x root)));
    [exact Hroot|].
  cbn [tagged with_field].
  apply traverse_props_set_assoc; [|now destruct (List.length H)].
  assert (Hprops : traverse_props (reify (List.length H) H) ps = Some props).
  { apply (props_untouched h1 H ps props Fc); [exact Hfp | exact Hagree |].
    apply (depth_weaken _ (List.length h)); [exact Hdepth | lia]. }
  destruct Hps as [-> | ->].
  - now apply traverse_props_set_assoc.
  - rewrite set_assoc_twice. now apply traverse_props_set_assoc.
Qed.

(** What the heap holds after the two assignments to a copy. *)
Ltac lengths :=
  repeat first [rewrite length_insert | rewrite length_app];
  cbn [List.length]; lia.

Ltac lookups :=
  repeat first
    [ rewrite list_lookup_insert_eq by lengths
    | rewrite list_lookup_insert_ne by (first [lia | congruence])
    | rewrite lookup_app_l by lengths
    | rewrite length_insert
    | rewrite length_app ].

(** The variant for a key of a mapping of the endpoint. *)
Lemma key_block (h : heap) (e : value) (props cprops : list (string * jsval))
      (name label key payload : string) (acc : list value) :
  reify (S (List.length h)) h e = Some (JObj props) ->
  normalize (JObj props) = JObj props ->
  field name (JObj props) = JObj cprops ->
  exists v h',
    runs (let* modified := deepCopy e in
          let* target := get_prop modified name in
          let* _ := set_prop target key (VStr payload) in
          let* _ := set_prop modified "injectionPoint" (VStr (label ++ key)) in
          ret (acc ++ [modified])%list) h (acc ++ [v])%list h'
    /\ made_all h h' [v]
         [ tagged (label ++ key) (in_mapping name key payload (JObj props)) ].
Proof.
  intros Hr Hn Hf. block_above. apply field_object in Hf.
  destruct (deepCopy_object h e props Hr Hn)
    as (new & r & ps & Fc & Hcopy & Hroot & Hfp & Hnd & Hb).
  apply NoDup_cons in Hnd. destruct Hnd as [Hrout HndFc].
  destruct (props_touched (h ++ new)%list name cprops props ps Fc Hfp HndFc Hf)
    as (c & cps & Fcc & Ea & Elc & Ecc & Hin & Hsub & Hrun).
  assert (Hcr : c <> r) by (intros ->; contradiction).
  pose proof (Hb r (list_elem_of_here _ _)) as Hbr.
  pose proof (Hb c (list_elem_of_further _ _ _ Hin)) as Hbc.
  set (h1 := (h ++ new)%list) in *.
  exists (VRef r),
    (<[r := Obj (set_assoc "injectionPoint" (VStr (label ++ key)) ps)]>
       (<[c := Obj (set_assoc key (VStr payload) cps)]> h1)).
  run_first.
  - eapply runs_bind; [exact Hcopy|].
    eapply runs_bind; [apply runs_get_prop; exact Hroot|]. rewrite Ea.
    eapply runs_bind; [apply runs_set_prop; exact Elc|].
    eapply runs_bind; [apply runs_set_prop; lookups; exact Hroot|].
    apply runs_ret.
  - apply (made_all_one _ _ _ _ _ _ Hwa Hcode); [cbn; lia| |].
    + split; [lookups; lia|].
      intros l Hl. lookups. apply lookup_app_l. exact Hl.
    + apply (variant_in_mapping h h1 _ e props cprops r c ps cps ps Fc Fcc);
        auto.
      all: lookups.
      all: try lia; try reflexivity.
      intros l Hl Hlc.
      rewrite list_lookup_insert_ne by (intros ->; contradiction).
      now rewrite list_lookup_insert_ne by congruence.
Qed.

Lemma reify_new_mapping (H : heap) (n : loc) (key payload : string) :
  H !! n = Some (Obj [(key, VStr payload)]) ->
  (0 < List.length H)%nat ->
  reify (List.length H) H (VRef n) = Some (JObj [(key, JStr payload)]).
Proof.
  intros E Hlen. destruct (List.length H) as [|f]; [lia|].
  apply (reify_object H n [(key, VStr payload)]); [exact E|].
  cbn. now destruct f.
Qed.

(** The variant for a new key of a mapping, which is made when the
    endpoint has none. *)
Lemma ensure_block (h : heap) (e : value) (props : list (string * jsval))
      (name label key payload : string) (acc : list value) :
  reify (S (List.length h)) h e = Some (JObj props) ->
  normalize (JObj props) = JObj props ->
  mapping_or_absent (field name (JObj props)) = true ->
  exists v h',
    runs (let* modified := deepCopy e in
          let* current := get_prop modified name in
          let* params := or_new_object current in
          let* _ := set_prop modified name params in
          let* target := get_prop modified name in
          let* _ := set_prop target key (VStr payload) in
          let* _ := set_prop modified "injectionPoint" (VStr label) in
          ret (acc ++ [modified])%list) h (acc ++ [v])%list h'
    /\ made_all h h' [v] [ tagged label (in_mapping name key payload (JObj props)) ].
Proof.
  intros Hr Hn Hm. block_above.
  destruct (deepCopy_object h e props Hr Hn)
    as (new & r & ps & Fc & Hcopy & Hroot & Hfp & Hnd & Hb).
  apply NoDup_cons in Hnd. destruct Hnd as [Hrout HndFc].
  pose proof (Hb r (list_elem_of_here _ _)) as Hbr.
  pose proof (copy_field (h ++ new)%list ps props Fc name Hfp (normalized_props _ Hn))
    as Hcopied.
  set (h1 := (h ++ new)%list) in *.
  destruct (field name (JObj props)) as [| | | | | |cprops] eqn:Hf;
    try discriminate Hm.
  - (* the endpoint has no such field *)
    set (n := List.length h1).
    exists (VRef r),
      (<[r := Obj (set_assoc "injectionPoint" (VStr label)
                     (set_assoc name (VRef n) ps))]>
         (<[n := Obj [(key, VStr payload)]]>
            (<[r := Obj (set_assoc name (VRef n) ps)]> (h1 ++ [Obj []])%list))).
    assert (Hrn : r <> n) by (unfold n; lia).
    run_first.
    + eapply runs_bind; [exact Hcopy|].
      eapply runs_bind; [apply runs_get_prop; exact Hroot|]. rewrite Hcopied.
      eapply runs_bind; [apply runs_new_object|].
      eapply runs_bind; [apply runs_set_prop; lookups; exact Hroot|].
      eapply runs_bind; [apply runs_get_prop; lookups; reflexivity|].
      rewrite assoc_set_assoc_same.
      eapply runs_bind.
      { apply (runs_set_prop _ n []). lookups.
        apply list_lookup_middle. reflexivity. }
      eapply runs_bind; [apply runs_set_prop; lookups; reflexivity|].
      apply runs_ret.
    + apply (made_all_one _ _ _ _ _ _ Hwa Hcode); [cbn; lia| |].
      * split; [lookups; cbn; lia|].
        intros l Hl. lookups. apply lookup_app_l. exact Hl.
      * unfold in_mapping. rewrite Hf. cbn [mapping set_assoc].
        apply (variant_field h h1 _ e props r ps ps Fc name label (VRef n) VNull);
          auto.
        -- lookups. cbn. lia.
        -- intros l Hl.
           pose proof (Hb l (list_elem_of_further _ _ _ Hl)) as Hbl.
           assert (l <> r) by (intros ->; contradiction).
           lookups. reflexivity.
        -- apply reify_new_mapping; [|lookups; cbn; lia].
           lookups. reflexivity.
        -- lookups. reflexivity.
  - (* the field is [null] *)
    set (n := List.length h1).
    exists (VRef r),
      (<[r := Obj (set_assoc "injectionPoint" (VStr label)
                     (set_assoc name (VRef n) ps))]>
         (<[n := Obj [(key, VStr payload)]]>
            (<[r := Obj (set_assoc name (VRef n) ps)]> (h1 ++ [Obj []])%list))).
    assert (Hrn : r <> n) by (unfold n; lia).
    run_first.
    + eapply runs_bind; [exact Hcopy|].
      eapply runs_bind; [apply runs_get_prop; exact Hroot|]. rewrite Hcopied.
      eapply runs_bind; [apply runs_new_object|].
      eapply runs_bind; [apply runs_set_prop; lookups; exact Hroot|].
      eapply runs_bind; [apply runs_get_prop; lookups; reflexivity|].
      rewrite assoc_set_assoc_same.
      eapply runs_bind.
      { apply (runs_set_prop _ n []). lookups.
        apply list_lookup_middle. reflexivity. }
      eapply runs_bind; [apply runs_set_prop; lookups; reflexivity|].
      apply runs_ret.
    + apply (made_all_one _ _ _ _ _ _ Hwa Hcode); [cbn; lia| |].
      * split; [lookups; cbn; lia|].
        intros l Hl. lookups. apply lookup_app_l. exact Hl.
      * unfold in_mapping. rewrite Hf. cbn [mapping set_assoc].
        apply (variant_field h h1 _ e props r ps ps Fc name label (VRef n) VNull);
          auto.
        -- lookups. cbn. lia.
        -- intros l Hl.
           pose proof (Hb l (list_elem_of_further _ _ _ Hl)) as Hbl.
           assert (l <> r) by (intros ->; contradiction).
           lookups. reflexivity.
        -- apply reify_new_mapping; [|lookups; cbn; lia].
           lookups. reflexivity.
        -- lookups. reflexivity.
  - (* the field is a mapping *)
    apply field_object in Hf.
    destruct (props_touched h1 name cprops props ps Fc Hfp HndFc Hf)
      as (c & cps & Fcc & Ea & Elc & Ecc & Hin & Hsub & Hrun).
    assert (Hcr : c <> r) by (intros ->; contradiction).
    pose proof (Hb c (list_elem_of_further _ _ _ Hin)) as Hbc.
    exists (VRef r),
      (<[r := Obj (set_assoc "injectionPoint" (VStr label)
                     (set_assoc name (VRef c) ps))]>
         (<[c := Obj (set_assoc key (VStr payload) cps)]>
            (<[r := Obj (set_assoc name (VRef c) ps)]> h1))).
    run_first.
    + eapply runs_bind; [exact Hcopy|].
      eapply runs_bind; [apply runs_get_prop; exact Hroot|]. rewrite Ea.
      eapply runs_bind; [apply runs_ret|].
      eapply runs_bind; [apply runs_set_prop; exact Hroot|].
      eapply runs_bind; [apply runs_get_prop; lookups; reflexivity|].
      rewrite assoc_set_assoc_same.
      eapply runs_bind; [apply runs_set_prop; lookups; exact Elc|].
      eapply runs_bind; [apply runs_set_prop; lookups; reflexivity|].
      apply runs_ret.
    + apply (made_all_one _ _ _ _ _ _ Hwa Hcode); [cbn; lia| |].
      * split; [lookups; lia|].
        intros l Hl. lookups. apply lookup_app_l. exact Hl.
      * apply (variant_in_mapping h h1 _ e props cprops r c ps cps
                 (set_assoc name (VRef c) ps) Fc Fcc); auto.
        all: lookups.
        all: try lia; try reflexivity.
        intros l Hl Hlc.
        rewrite list_lookup_insert_ne by (intros ->; contradiction).
        rewrite list_lookup_insert_ne by congruence.
        now rewrite list_lookup_insert_ne by (intros ->; contradiction).
Qed.

(** The variant for the key [input] of the body. *)
Lemma body_block (h : heap) (e : value) (props : list (string * jsval))
      (payload : string) (acc : list value) :
  reify (S (List.length h)) h e = Some (JObj props) ->
  normalize (JObj props) = JObj props ->
  not_array (field "body" (JObj props)) = true ->
  exists v h',
    runs (let* modified := deepCopy e in
          let* current := get_prop modified "body" in
          let* content := or_new_object current in
          let* _ := set_prop modified "body" content in
          let* target := get_prop modified "body" in
          let* _ :=
            if is_object_type target then set_prop target "input" (VStr payload)
            else
              let* fresh := new_object (Obj [("input", VStr payload)]) in
              set_prop modified "body" fresh in
          let* _ := set_prop modified "injectionPoint"
                      (VStr "Body param: input (injected)") in
          ret (acc ++ [modified])%list) h (acc ++ [v])%list h'
    /\ made_all h h' [v]
         [ tagged "Body param: input (injected)"
             (in_mapping "body" "input" payload (JObj props)) ].
Proof.
  intros Hr Hn Hm. block_above.
  destruct (deepCopy_object h e props Hr Hn)
    as (new & r & ps & Fc & Hcopy & Hroot & Hfp & Hnd & Hb).
  apply NoDup_cons in Hnd. destruct Hnd as [Hrout HndFc].
  pose proof (Hb r (list_elem_of_here _ _)) as Hbr.
  pose proof (copy_field (h ++ new)%list ps props Fc "body" Hfp
                (normalized_props _ Hn)) as Hcopied.
  set (h1 := (h ++ new)%list) in *.
  set (n := List.length h1).
  assert (Hrn : r <> n) by (unfold n; lia).
  assert (Hold : forall l, l ∈ Fc -> l <> r /\ (l < n)%nat).
  { intros l Hl. pose proof (Hb l (list_elem_of_further _ _ _ Hl)).
    split; [intros ->; contradiction | unfold n; lia]. }
  (* a body that is falsy: a new mapping takes its place *)
  assert (Hfalsy : forall current : value,
            match assoc "body" ps with Some x => x | None => VUndefined end = current ->
            to_boolean current = false ->
            mapping (field "body" (JObj props)) = [] ->
            exists v h',
              runs (let* modified := deepCopy e in
                    let* current := get_prop modified "body" in
                    let* content := or_new_object current in
                    let* _ := set_prop modified "body" content in
                    let* target := get_prop modified "body" in
                    let* _ :=
                      if is_object_type target
                      then set_prop target "input" (VStr payload)
                      else
                        let* fresh := new_object (Obj [("input", VStr payload)]) in
                        set_prop modified "body" fresh in
                    let* _ := set_prop modified "injectionPoint"
                                (VStr "Body param: input (injected)") in
                    ret (acc ++ [modified])%list) h (acc ++ [v])%list h'
              /\ made_all h h' [v]
                   [ tagged "Body param: input (injected)"
                       (in_mapping "body" "input" payload (JObj props)) ]).
  { intros current Hcur Hfalse Hmap.
    exists (VRef r),
      (<[r := Obj (set_assoc "injectionPoint" (VStr "Body param: input (injected)")
                     (set_assoc "body" (VRef n) ps))]>
         (<[n := Obj [("input", VStr payload)]]>
            (<[r := Obj (set_assoc "body" (VRef n) ps)]> (h1 ++ [Obj []])%list))).
    run_first.
    - eapply runs_bind; [exact Hcopy|].
      eapply runs_bind; [apply runs_get_prop; exact Hroot|]. rewrite Hcur.
      eapply runs_bind;
        [unfold or_new_object; rewrite Hfalse; apply runs_new_object|].
      eapply runs_bind; [apply runs_set_prop; lookups; exact Hroot|].
      eapply runs_bind; [apply runs_get_prop; lookups; reflexivity|].
      rewrite assoc_set_assoc_same. cbn [is_object_type].
      eapply runs_bind.
      { apply (runs_set_prop _ n []). lookups.
        apply list_lookup_middle. reflexivity. }
      eapply runs_bind; [apply runs_set_prop; lookups; reflexivity|].
      apply runs_ret.
    - apply (made_all_one _ _ _ _ _ _ Hwa Hcode); [cbn; lia| |].
      + split; [lookups; cbn; lia|].
        intros l Hl. lookups. apply lookup_app_l. exact Hl.
      + unfold in_mapping. rewrite Hmap. cbn [set_assoc].
        apply (variant_field h h1 _ e props r ps ps Fc "body"
                 "Body param: input (injected)" (VRef n) VNull); auto.
        * lookups. cbn. lia.
        * intros l Hl. destruct (Hold l Hl). lookups. reflexivity.
        * apply reify_new_mapping; [|lookups; cbn; lia].
          lookups. reflexivity.
        * lookups. reflexivity. }
  (* a body that is a primitive and truthy: a new mapping takes its place *)
  assert (Htruthy : forall current : value,
            assoc "body" ps = Some current ->
            to_boolean current = true ->
            is_object_type current = false ->
            mapping (field "body" (JObj props)) = [] ->
            exists v h',
              runs (let* modified := deepCopy e in
                    let* current := get_prop modified "body" in
                    let* content := or_new_object current in
                    let* _ := set_prop modified "body" content in
                    let* target := get_prop modified "body" in
                    let* _ :=
                      if is_object_type target
                      then set_prop target "input" (VStr payload)
                      else
                        let* fresh := new_object (Obj [("input", VStr payload)]) in
                        set_prop modified "body" fresh in
                    let* _ := set_prop modified "injectionPoint"
                                (VStr "Body param: input (injected)") in
                    ret (acc ++ [modified])%list) h (acc ++ [v])%list h'
              /\ made_all h h' [v]
                   [ tagged "Body param: input (injected)"
                       (in_mapping "body" "input" payload (JObj props)) ]).
  { intros current Hcur Htrue Hprim Hmap.
    exists (VRef r),
      (<[r := Obj (set_assoc "injectionPoint" (VStr "Body param: input (injected)")
                     (set_assoc "body" (VRef n) (set_assoc "body" current ps)))]>
         (<[r := Obj (set_assoc "body" (VRef n) (set_assoc "body" current ps))]>
            (<[r := Obj (set_assoc "body" current ps)]> h1
             ++ [Obj [("input", VStr payload)]])%list)).
    run_first.
    - eapply runs_bind; [exact Hcopy|].
      eapply runs_bind; [apply runs_get_prop; exact Hroot|]. rewrite Hcur.
      eapply runs_bind; [unfold or_new_object; rewrite Htrue; apply runs_ret|].
      eapply runs_bind; [apply runs_set_prop; exact Hroot|].
      eapply runs_bind; [apply runs_get_prop; lookups; reflexivity|].
      rewrite assoc_set_assoc_same, Hprim.
      eapply runs_bind.
      { eapply runs_bind; [apply runs_new_object|].
        rewrite length_insert. fold n.
        apply runs_set_prop. lookups. reflexivity. }
      eapply runs_bind; [apply runs_set_prop; lookups; reflexivity|].
      apply runs_ret.
    - apply (made_all_one _ _ _ _ _ _ Hwa Hcode); [cbn; lia| |].
      + split; [lookups; cbn; lia|].
        intros l Hl. lookups. apply lookup_app_l. exact Hl.
      + unfold in_mapping. rewrite Hmap. cbn [set_assoc].
        apply (variant_field h h1 _ e props r ps (set_assoc "body" current ps) Fc
                 "body" "Body param: input (injected)" (VRef n) current); auto.
        * lookups. cbn. lia.
        * intros l Hl. destruct (Hold l Hl). lookups. reflexivity.
        * apply reify_new_mapping; [|lookups; cbn; lia].
          rewrite list_lookup_insert_ne by congruence.
          rewrite list_lookup_insert_ne by congruence.
          apply list_lookup_middle. now rewrite length_insert.
        * lookups. reflexivity. }
  destruct (field "body" (JObj props)) as [| |b|z|s|elems|cprops] eqn:Hf;
    try discriminate Hm.
  - apply (Hfalsy VUndefined); [now rewrite Hcopied | reflexivity | reflexivity].
  - apply (Hfalsy VNull); [now rewrite Hcopied | reflexivity | reflexivity].
  - destruct b.
    + apply (Htruthy (VBool true)); auto.
    + apply (Hfalsy (VBool false)); [now rewrite Hcopied | reflexivity | reflexivity].
  - destruct (Z.eqb_spec z 0) as [->|Hz].
    + apply (Hfalsy (VNum 0)); [now rewrite Hcopied | reflexivity | reflexivity].
    + apply (Htruthy (VNum z)); auto. cbn. now apply Z.eqb_neq in Hz as ->.
  - destruct (String.eqb_spec s EmptyString) as [->|Hs].
    + apply (Hfalsy (VStr EmptyString));
        [now rewrite Hcopied | reflexivity | reflexivity].
    + apply (Htruthy (VStr s)); auto. cbn. now apply String.eqb_neq in Hs as ->.
  - (* the body is a mapping *)
    clear Hfalsy Htruthy. apply field_object in Hf.
    destruct (props_touched h1 "body" cprops props ps Fc Hfp HndFc Hf)
      as (c & cps & Fcc & Ea & Elc & Ecc & Hin & Hsub & Hrun).
    assert (Hcr : c <> r) by (intros ->; contradiction).
    pose proof (Hb c (list_elem_of_further _ _ _ Hin)) as Hbc.
    exists (VRef r),
      (<[r := Obj (set_assoc "injectionPoint" (VStr "Body param: input (injected)")
                     (set_assoc "body" (VRef c) ps))]>
         (<[c := Obj (set_assoc "input" (VStr payload) cps)]>
            (<[r := Obj (set_assoc "body" (VRef c) ps)]> h1))).
    run_first.
    + eapply runs_bind; [exact Hcopy|].
      eapply runs_bind; [apply runs_get_prop; exact Hroot|]. rewrite Ea.
      eapply runs_bind; [apply runs_ret|].
      eapply runs_bind; [apply runs_set_prop; exact Hroot|].
      eapply runs_bind; [apply runs_get_prop; lookups; reflexivity|].
      rewrite assoc_set_assoc_same. cbn [is_object_type].
      eapply runs_bind; [apply runs_set_prop; lookups; exact Elc|].
      eapply runs_bind; [apply runs_set_prop; lookups; reflexivity|].
      apply runs_ret.
    + apply (made_all_one _ _ _ _ _ _ Hwa Hcode); [cbn; lia| |].
      * split; [lookups; lia|].
        intros l Hl. lookups. apply lookup_app_l. exact Hl.
      * apply (variant_in_mapping h h1 _ e props cprops r c ps cps
                 (set_assoc "body" (VRef c) ps) Fc Fcc); auto.
        all: lookups.
        all: try lia; try reflexivity.
        intros l Hl Hlc.
        rewrite list_lookup_insert_ne by (intros ->; contradiction).
        rewrite list_lookup_insert_ne by congruence.
        now rewrite list_lookup_insert_ne by (intros ->; contradiction).
Qed.

(** The variant for the path of the URL. *)
Lemma path_block (h : heap) (e : value) (props : list (string * jsval))
      (u payload : string) (acc : list value) :
  reify (S (List.length h)) h e = Some (JObj props) ->
  normalize (JObj props) = JObj props ->
  field "url" (JObj props) = JStr u ->
  exists v h',
    runs (let* modified := deepCopy e in
          let* url := get_prop modified "url" in
          let* base := urlBase url in
          let* _ := set_prop modified "url"
                      (VStr (base ++ URI.encodeURIComponent payload)) in
          let* _ := set_prop modified "injectionPoint" (VStr "URL path (appended)") in
          ret (acc ++ [modified])%list) h (acc ++ [v])%list h'
    /\ made_all h h' [v]
         [ tagged "URL path (appended)"
             (with_field "url" (url_with payload (field "url" (JObj props)))
                (JObj props)) ].
Proof.
  intros Hr Hn Hf. block_above.
  destruct (deepCopy_object h e props Hr Hn)
    as (new & r & ps & Fc & Hcopy & Hroot & Hfp & Hnd & Hb).
  apply NoDup_cons in Hnd. destruct Hnd as [Hrout HndFc].
  pose proof (Hb r (list_elem_of_here _ _)) as Hbr.
  pose proof (copy_field (h ++ new)%list ps props Fc "url" Hfp
                (normalized_props _ Hn)) as Hcopied.
  rewrite Hf in Hcopied.
  set (h1 := (h ++ new)%list) in *.
  set (u' := (if Str.endsWith u "/" then u else u ++ "/")
             ++ URI.encodeURIComponent payload).
  exists (VRef r),
    (<[r := Obj (set_assoc "injectionPoint" (VStr "URL path (appended)")
                   (set_assoc "url" (VStr u') ps))]>
       (<[r := Obj (set_assoc "url" (VStr u') ps)]> h1)).
  run_first.
  - eapply runs_bind; [exact Hcopy|].
    eapply runs_bind; [apply runs_get_prop; exact Hroot|]. rewrite Hcopied.
    eapply runs_bind; [apply runs_ret|].
    eapply runs_bind; [apply runs_set_prop; exact Hroot|].
    eapply runs_bind; [apply runs_set_prop; lookups; reflexivity|].
    apply runs_ret.
  - apply (made_all_one _ _ _ _ _ _ Hwa Hcode); [cbn; lia| |].
    + split; [lookups; lia|].
      intros l Hl. lookups. apply lookup_app_l. exact Hl.
    + rewrite Hf. cbn [url_with]. fold u'.
      apply (variant_field h h1 _ e props r ps ps Fc "url" "URL path (appended)"
               (VStr u') VNull); auto.
      * lookups. lia.
      * intros l Hl. pose proof (Hb l (list_elem_of_further _ _ _ Hl)).
        assert (l <> r) by (intros ->; contradiction).
        lookups. reflexivity.
      * match goal with |- reify ?f _ _ = _ => destruct f; reflexivity end.
      * lookups. reflexivity.
Qed.

(** ** The variants of [injectPayload], all of them *)

Lemma runs_forEach_nil {A B : Type} (f : B -> A -> M heap B) (acc : B) (h : heap) :
  runs (forEach [] f acc) h acc h.
Proof. reflexivity. Qed.

Lemma runs_forEach_cons {A B : Type} (f : B -> A -> M heap B) (a : A) (l : list A)
      (acc acc1 acc2 : B) (h h1 h2 : heap) :
  runs (f acc a) h acc1 h1 -> runs (forEach l f acc1) h1 acc2 h2 ->
  runs (forEach (a :: l) f acc) h acc2 h2.
Proof. intros H1 H2. cbn [forEach]. eapply runs_bind; eauto. Qed.

(** The loop over the keys of a mapping of the endpoint. *)
Lemma key_loop (e : value) (props cprops : list (string * jsval))
      (name label payload : string) :
  normalize (JObj props) = JObj props ->
  field name (JObj props) = JObj cprops ->
  forall (names : list string) (h : heap) (acc : list value),
    reify (S (List.length h)) h e = Some (JObj props) ->
    exists vs h',
      runs (forEach names
              (fun injectedEndpoints key =>
                 let* modified := deepCopy e in
                 let* target := get_prop modified name in
                 let* _ := set_prop target key (VStr payload) in
                 let* _ := set_prop modified "injectionPoint" (VStr (label ++ key)) in
                 ret (injectedEndpoints ++ [modified])%list)
              acc) h (acc ++ vs)%list h'
      /\ made_all h h' vs
           (List.map
              (fun key => tagged (label ++ key) (in_mapping name key payload (JObj props)))
              names).
Proof.
  intros Hn Hf names. induction names as [|key names IH]; intros h acc Hr.
  - exists [], h. rewrite List.app_nil_r.
    split; [apply runs_forEach_nil | apply made_all_nil].
  - destruct (key_block h e props cprops name label key payload acc Hr Hn Hf)
      as (v & h1 & Hrun & Hmade).
    destruct (IH h1 (acc ++ [v])%list) as (vs & h2 & Hrun2 & Hmade2).
    { eapply endpoint_kept; [exact Hr | apply Hmade]. }
    exists (v :: vs), h2. split.
    + eapply runs_forEach_cons; [exact Hrun|].
      rewrite <- List.app_assoc in Hrun2. exact Hrun2.
    + exact (made_all_app h h1 h2 [v] vs _ _ Hmade Hmade2).
Qed.

(** The keys that the loops run over. *)
Lemma mapping_names (h : heap) (x : value) (t : jsval) (f : nat) :
  reify f h x = Some t ->
  mapping_or_absent t = true ->
  runs (if to_boolean x then keys x else ret []) h
    (List.map fst (mapping t)) h.
Proof.
  intros Hx Hm. rewrite (reify_truthy _ _ _ _ Hx).
  destruct t; try discriminate Hm; cbn [truthy mapping List.map];
    try apply runs_ret.
  exact (keys_mapping _ _ _ _ Hx).
Qed.

Section Places.

Variables (e : value) (props : list (string * jsval)) (payload location : string).

Hypothesis Hnormal : normalize (JObj props) = JObj props.

Lemma query_section (h : heap) (acc : list value) :
  reify (S (List.length h)) h e = Some (JObj props) ->
  mapping_or_absent (field "queryParams" (JObj props)) = true ->
  exists vs h',
    runs (if String.eqb location "query" || String.eqb location "all" then
            let* queryParams := get_prop e "queryParams" in
            let* names := if to_boolean queryParams then keys queryParams else ret [] in
            let* injectedEndpoints :=
              forEach names
                (fun injectedEndpoints key =>
                   let* modified := deepCopy e in
                   let* target := get_prop modified "queryParams" in
                   let* _ := set_prop target key (VStr payload) in
                   let* _ := set_prop modified "injectionPoint"
                               (VStr ("Query param: " ++ key)) in
                   ret (injectedEndpoints ++ [modified])%list)
                acc in
            let* modified := deepCopy e in
            let* current := get_prop modified "queryParams" in
            let* params := or_new_object current in
            let* _ := set_prop modified "queryParams" params in
            let* target := get_prop modified "queryParams" in
            let* _ := set_prop target "q" (VStr payload) in
            let* _ := set_prop modified "injectionPoint"
                        (VStr "Query param: q (injected)") in
            ret (injectedEndpoints ++ [modified])%list
          else ret acc) h (acc ++ vs)%list h'
    /\ made_all h h' vs
         (if String.eqb location "query" || String.eqb location "all" then
            (List.map
               (fun key => tagged ("Query param: " ++ key)
                             (in_mapping "queryParams" key payload (JObj props)))
               (List.map fst (mapping (field "queryParams" (JObj props))))
             ++ [ tagged "Query param: q (injected)"
                    (in_mapping "queryParams" "q" payload (JObj props)) ])%list
          else []).
Proof.
  intros Hr Hm. destruct (_ || _).
  - destruct (get_prop_field _ h e props "queryParams" Hr) as (q & Hq & Hrq).
    assert (Hloop : exists vs h1,
              runs (forEach (List.map fst (mapping (field "queryParams" (JObj props))))
                      (fun injectedEndpoints key =>
                         let* modified := deepCopy e in
                         let* target := get_prop modified "queryParams" in
                         let* _ := set_prop target key (VStr payload) in
                         let* _ := set_prop modified "injectionPoint"
                                     (VStr ("Query param: " ++ key)) in
                         ret (injectedEndpoints ++ [modified])%list)
                      acc) h (acc ++ vs)%list h1
              /\ made_all h h1 vs
                   (List.map
                      (fun key => tagged ("Query param: " ++ key)
                                    (in_mapping "queryParams" key payload (JObj props)))
                      (List.map fst (mapping (field "queryParams" (JObj props)))))).
    { destruct (field "queryParams" (JObj props)) as [| | | | | |cprops] eqn:Hf;
        try discriminate Hm.
      - exists [], h. rewrite List.app_nil_r.
        split; [apply runs_forEach_nil | apply made_all_nil].
      - exists [], h. rewrite List.app_nil_r.
        split; [apply runs_forEach_nil | apply made_all_nil].
      - cbn [mapping].
        apply (key_loop e props cprops "queryParams" "Query param: " payload
                 Hnormal Hf _ h acc Hr). }
    destruct Hloop as (vs & h1 & Hrun1 & Hmade1).
    destruct (ensure_block h1 e props "queryParams" "Query param: q (injected)" "q"
                payload (acc ++ vs)%list) as (v & h2 & Hrun2 & Hmade2); auto.
    { eapply endpoint_kept; [exact Hr | apply Hmade1]. }
    exists (vs ++ [v])%list, h2. split.
    + eapply runs_bind; [exact Hq|].
      eapply runs_bind; [exact (mapping_names _ _ _ _ Hrq Hm)|].
      eapply runs_bind; [exact Hrun1|].
      rewrite List.app_assoc. exact Hrun2.
    + exact (made_all_app h h1 h2 vs [v] _ _ Hmade1 Hmade2).
  - exists [], h. rewrite List.app_nil_r. split; [apply runs_ret | apply made_all_nil].
Qed.

Lemma body_section (h : heap) (acc : list value) :
  reify (S (List.length h)) h e = Some (JObj props) ->
  not_array (field "body" (JObj props)) = true ->
  exists vs h',
    runs (if String.eqb location "body" || String.eqb location "all" then
            let* body := get_prop e "body" in
            let* injectedEndpoints :=
              if to_boolean body && is_object_type body then
                let* names := keys body in
                forEach names
                  (fun injectedEndpoints key =>
                     let* modified := deepCopy e in
                     let* target := get_prop modified "body" in
                     let* _ := set_prop target key (VStr payload) in
                     let* _ := set_prop modified "injectionPoint"
                                 (VStr ("Body param: " ++ key)) in
                     ret (injectedEndpoints ++ [modified])%list)
                  acc
              else ret acc in
            let* method := get_prop e "method" in
            if carries_body method then
              let* modified := deepCopy e in
              let* current := get_prop modified "body" in
              let* content := or_new_object current in
              let* _ := set_prop modified "body" content in
              let* target := get_prop modified "body" in
              let* _ :=
                if is_object_type target then set_prop target "input" (VStr payload)
                else
                  let* fresh := new_object (Obj [("input", VStr payload)]) in
                  set_prop modified "body" fresh in
              let* _ := set_prop modified "injectionPoint"
                          (VStr "Body param: input (injected)") in
              ret (injectedEndpoints ++ [modified])%list
            else ret injectedEndpoints
          else ret acc) h (acc ++ vs)%list h'
    /\ made_all h h' vs
         (if String.eqb location "body" || String.eqb location "all" then
            (List.map
               (fun key => tagged ("Body param: " ++ key)
                             (in_mapping "body" key payload (JObj props)))
               (List.map fst (mapping (field "body" (JObj props))))
             ++ (if method_carries_body (field "method" (JObj props))
                 then [ tagged "Body param: input (injected)"
                          (in_mapping "body" "input" payload (JObj props)) ]
                 else []))%list
          else []).
Proof.
  intros Hr Hm. destruct (_ || _).
  - destruct (get_prop_field _ h e props "body" Hr) as (b & Hb & Hrb).
    assert (Hloop : exists vs h1,
              runs (if to_boolean b && is_object_type b then
                      let* names := keys b in
                      forEach names
                        (fun injectedEndpoints key =>
                           let* modified := deepCopy e in
                           let* target := get_prop modified "body" in
                           let* _ := set_prop target key (VStr payload) in
                           let* _ := set_prop modified "injectionPoint"
                                       (VStr ("Body param: " ++ key)) in
                           ret (injectedEndpoints ++ [modified])%list)
                        acc
                    else ret acc) h (acc ++ vs)%list h1
              /\ made_all h h1 vs
                   (List.map
                      (fun key => tagged ("Body param: " ++ key)
                                    (in_mapping "body" key payload (JObj props)))
                      (List.map fst (mapping (field "body" (JObj props)))))).
    { pose proof (reify_shape _ _ _ _ Hrb) as Hshape.
      destruct (field "body" (JObj props)) as [| |b0|z|s|elems|cprops] eqn:Hf;
        try discriminate Hm.
      1-5: subst b; cbn [to_boolean is_object_type andb];
        rewrite ?andb_false_r;
        exists [], h; rewrite List.app_nil_r;
        split; [apply runs_ret | apply made_all_nil].
      destruct Hshape as (l & ps & f' & -> & _).
      cbn [to_boolean is_object_type andb mapping].
      destruct (key_loop e props cprops "body" "Body param: " payload Hnormal Hf
                  (List.map fst cprops) h acc Hr) as (vs & h1 & Hrun & Hmade).
      exists vs, h1. split; [|exact Hmade].
      eapply runs_bind; [exact (keys_mapping _ _ _ _ Hrb) | exact Hrun]. }
    destruct Hloop as (vs & h1 & Hrun1 & Hmade1).
    assert (Hr1 : reify (S (List.length h1)) h1 e = Some (JObj props))
      by (eapply endpoint_kept; [exact Hr | apply Hmade1]).
    destruct (get_prop_field _ h1 e props "method" Hr1) as (m & Hmt & Hrm).
    rewrite <- (reify_carries_body _ _ _ _ Hrm).
    destruct (carries_body m) eqn:Hcarries.
    + destruct (body_block h1 e props payload (acc ++ vs)%list Hr1 Hnormal Hm)
        as (v & h2 & Hrun2 & Hmade2).
      exists (vs ++ [v])%list, h2. split.
      * eapply runs_bind; [exact Hb|].
        eapply runs_bind; [exact Hrun1|].
        eapply runs_bind; [exact Hmt|]. rewrite Hcarries.
        rewrite List.app_assoc. exact Hrun2.
      * exact (made_all_app h h1 h2 vs [v] _ _ Hmade1 Hmade2).
    + exists vs, h1. rewrite List.app_nil_r. split; [|exact Hmade1].
      eapply runs_bind; [exact Hb|].
      eapply runs_bind; [exact Hrun1|].
      eapply runs_bind; [exact Hmt|]. rewrite Hcarries. apply runs_ret.
  - exists [], h. rewrite List.app_nil_r. split; [apply runs_ret | apply made_all_nil].
Qed.

Lemma header_section (h : heap) (acc : list value) :
  reify (S (List.length h)) h e = Some (JObj props) ->
  mapping_or_absent (field "headers" (JObj props)) = true ->
  exists vs h',
    runs (if String.eqb location "header" || String.eqb location "all" then
            let* modified := deepCopy e in
            let* current := get_prop modified "headers" in
            let* hs := or_new_object current in
            let* _ := set_prop modified "headers" hs in
            let* target := get_prop modified "headers" in
            let* _ := set_prop target "X-Test-Input" (VStr payload) in
            let* _ := set_prop modified "injectionPoint"
                        (VStr "Header: X-Test-Input (injected)") in
            ret (acc ++ [modified])%list
          else ret acc) h (acc ++ vs)%list h'
    /\ made_all h h' vs
         (if String.eqb location "header" || String.eqb location "all" then
            [ tagged "Header: X-Test-Input (injected)"
                (in_mapping "headers" "X-Test-Input" payload (JObj props)) ]
          else []).
Proof.
  intros Hr Hm. destruct (_ || _).
  - destruct (ensure_block h e props "headers" "Header: X-Test-Input (injected)"
                "X-Test-Input" payload acc Hr Hnormal Hm) as (v & h' & Hrun & Hmade).
    exists [v], h'. split; assumption.
  - exists [], h. rewrite List.app_nil_r. split; [apply runs_ret | apply made_all_nil].
Qed.

Lemma path_section (h : heap) (acc : list value) (u : string) :
  reify (S (List.length h)) h e = Some (JObj props) ->
  field "url" (JObj props) = JStr u ->
  exists vs h',
    runs (if String.eqb location "path" || String.eqb location "all" then
            let* modified := deepCopy e in
            let* url := get_prop modified "url" in
            let* base := urlBase url in
            let* _ := set_prop modified "url"
                        (VStr (base ++ URI.encodeURIComponent payload)) in
            let* _ := set_prop modified "injectionPoint"
                        (VStr "URL path (appended)") in
            ret (acc ++ [modified])%list
          else ret acc) h (acc ++ vs)%list h'
    /\ made_all h h' vs
         (if String.eqb location "path" || String.eqb location "all" then
            [ tagged "URL path (appended)"
                (with_field "url" (url_with payload (field "url" (JObj props)))
                   (JObj props)) ]
          else []).
Proof.
  intros Hr Hu. destruct (_ || _).
  - destruct (path_block h e props u payload acc Hr Hnormal Hu)
      as (v & h' & Hrun & Hmade).
    exists [v], h'. split; assumption.
  - exists [], h. rewrite List.app_nil_r. split; [apply runs_ret | apply made_all_nil].
Qed.

End Places.

(** The variants that [injectPayload] returns for an endpoint that is JSON
    data of the data model are, as trees and in this order, the variants of
    the injection strategy; the heap keeps the objects it held. *)
Lemma injectPayload_run (h : heap) (e : value) (E : jsval) (payload location : string) :
  reify (S (List.length h)) h e = Some E ->
  descriptor E ->
  exists vs h',
    runs (injectPayload e payload location) h vs h'
    /\ made_all h h' vs (Inject E payload location).
Proof.
  intros Hr ([props ->] & Hn & [u Hu] & Hq & Hh & Hb).
  destruct (query_section e props payload location Hn h [] Hr Hq)
    as (vq & h1 & Hrun1 & Hmade1).
  assert (Hr1 : reify (S (List.length h1)) h1 e = Some (JObj props))
    by (eapply endpoint_kept; [exact Hr | apply Hmade1]).
  destruct (body_section e props payload location Hn h1 ([] ++ vq)%list Hr1 Hb)
    as (vb & h2 & Hrun2 & Hmade2).
  assert (Hr2 : reify (S (List.length h2)) h2 e = Some (JObj props))
    by (eapply endpoint_kept; [exact Hr1 | apply Hmade2]).
  destruct (header_section e props payload location Hn h2 (([] ++ vq) ++ vb)%list
              Hr2 Hh) as (vh & h3 & Hrun3 & Hmade3).
  assert (Hr3 : reify (S (List.length h3)) h3 e = Some (JObj props))
    by (eapply endpoint_kept; [exact Hr2 | apply Hmade3]).
  destruct (path_section e props payload location Hn h3
              ((([] ++ vq) ++ vb) ++ vh)%list u Hr3 Hu) as (vp & h4 & Hrun4 & Hmade4).
  assert (Hr4 : reify (S (List.length h4)) h4 e = Some (JObj props))
    by (eapply endpoint_kept; [exact Hr3 | apply Hmade4]).
  pose proof (made_all_app _ _ _ _ _ _ _ Hmade1
                (made_all_app _ _ _ _ _ _ _ Hmade2
                   (made_all_app _ _ _ _ _ _ _ Hmade3 Hmade4))) as Hall.
  assert (Hvs : (((([] ++ vq) ++ vb) ++ vh) ++ vp)%list = (vq ++ vb ++ vh ++ vp)%list)
    by (cbn [List.app]; now rewrite <- !List.app_assoc).
  rewrite Hvs in Hrun4.
  unfold Inject. cbv zeta.
  match type of Hall with
  | made_all _ _ _ ?Ts => destruct Ts as [|T Ts'] eqn:ETs
  end.
  - (* no variant so far: the fallback *)
    assert (Hnil : (vq ++ vb ++ vh ++ vp)%list = [])
      by (destruct Hall as (_ & Hnil & _); now apply Forall2_nil_inv_r in Hnil).
    rewrite Hnil in Hrun4, Hall.
    destruct (ensure_block h4 e props "queryParams" "Query param: test (fallback)"
                "test" payload [] Hr4 Hn Hq) as (v & h5 & Hrun5 & Hmade5).
    exists [v], h5. split.
    + unfold injectPayload. cbv zeta.
      eapply runs_bind; [exact Hrun1|].
      eapply runs_bind; [exact Hrun2|].
      eapply runs_bind; [exact Hrun3|].
      eapply runs_bind; [exact Hrun4|].
      exact Hrun5.
    + exact (made_all_app _ _ _ [] [v] [] _ Hall Hmade5).
  - exists (vq ++ vb ++ vh ++ vp)%list, h4. split.
    + unfold injectPayload. cbv zeta.
      eapply runs_bind; [exact Hrun1|].
      eapply runs_bind; [exact Hrun2|].
      eapply runs_bind; [exact Hrun3|].
      eapply runs_bind; [exact Hrun4|].
      destruct Hall as (_ & Hlen & _). apply Forall2_length in Hlen.
      destruct (vq ++ vb ++ vh ++ vp)%list; [discriminate Hlen|].
      apply runs_ret.
    + exact Hall.
Qed.

(** ** What [injectPayload] returns for an endpoint of the data model *)

Lemma assoc_set_assoc_other {A : Type} (k k' : string) (a : A) (l : list (string * A)) :
  k <> k' -> assoc k (set_assoc k' a l) = assoc k l.
Proof.
  intros Hne. induction l as [|[k0 a0] l IH]; cbn.
  - destruct (String.eqb_spec k' k); [congruence | reflexivity].
  - destruct (String.eqb_spec k0 k') as [->|Hne']; cbn.
    + destruct (String.eqb_spec k' k); [congruence | reflexivity].
    + destruct (String.eqb k0 k); [reflexivity | exact IH].
Qed.

(** The footprints of trees that are apart. *)
Lemma apart_footprints (h : heap) (vs : list value) :
  forall (Ts : list jsval) (lo hi : nat),
    apart h lo hi vs Ts ->
    exists Fs,
      Forall3 (fun v T F => fp h v T = Some F) vs Ts Fs
      /\ (forall i F l, Fs !! i = Some F -> l ∈ F -> (lo <= l < hi)%nat)
      /\ (forall i j Fi Fj l, (i < j)%nat -> Fs !! i = Some Fi -> Fs !! j = Some Fj ->
            l ∈ Fi -> l ∈ Fj -> False).
Proof.
  induction vs as [|v vs IH]; intros [|T Ts] lo hi; cbn; try tauto.
  - intros _. exists []. split; [constructor|].
    split; intros; rewrite lookup_nil in *; discriminate.
  - intros (mid & F & HF & Hle & Hin & Hrest).
    pose proof (apart_le _ _ _ _ _ Hrest) as Hmid.
    destruct (IH _ _ _ Hrest) as (Fs & H3 & Hb & Hd).
    exists (F :: Fs). split; [constructor; assumption|]. split.
    + intros [|i] F' l; cbn.
      * intros [= <-] Hl. apply Hin in Hl. lia.
      * intros Hi Hl. apply (Hb _ _ _ Hi) in Hl. lia.
    + intros [|i] [|j] Fi Fj l Hij; cbn; try lia.
      * intros [= <-] Hj Hl1 Hl2. apply Hin in Hl1. apply (Hb _ _ _ Hj) in Hl2. lia.
      * intros Hi Hj. apply (Hd i j); [lia | assumption | assumption].
Qed.

(** An assignment to a property of an object leaves the other objects as
    they were. *)
Lemma set_prop_elsewhere (l : loc) (k : string) (x : value) (h : heap) :
  List.length (snd (set_prop (VRef l) k x h)) = List.length h
  /\ forall l', l' <> l -> snd (set_prop (VRef l) k x h) !! l' = h !! l'.
Proof.
  unfold set_prop. destruct (h !! l) as [[ps|vs extra]|]; cbn [snd].
  - split; [apply length_insert|].
    intros l' Hne. apply list_lookup_insert_ne. congruence.
  - destruct (index_of k (List.length vs)); cbn [snd];
      (split; [apply length_insert|]);
      intros l' Hne; apply list_lookup_insert_ne; congruence.
  - split; reflexivity.
Qed.

(** Every variant of the strategy is the endpoint with one of its fields
    [queryParams], [body], [headers] and [url] set, and a label. *)
Lemma Inject_Forall (P : jsval -> Prop) (E : jsval) (payload location : string) :
  (forall label name key,
     name = "queryParams" \/ name = "body" \/ name = "headers" ->
     P (tagged label (in_mapping name key payload E))) ->
  P (tagged "URL path (appended)"
       (with_field "url" (url_with payload (field "url" E)) E)) ->
  Forall P (Inject E payload location).
Proof.
  intros Hm Hp. unfold Inject. cbv zeta.
  match goal with
  | |- Forall P (match ?L with [] => _ | _ => _ end) =>
      assert (HL : Forall P L); [|destruct L; [|exact HL]]
  end.
  - repeat (apply Forall_app; split).
    + destruct (_ || _); [|constructor]. apply Forall_app; split.
      * apply List.Forall_map, List.Forall_forall. intros key _. apply Hm. auto.
      * constructor; [apply Hm; auto | constructor].
    + destruct (_ || _); [|constructor]. apply Forall_app; split.
      * apply List.Forall_map, List.Forall_forall. intros key _. apply Hm. auto.
      * destruct (method_carries_body _); constructor; [apply Hm; auto | constructor].
    + destruct (_ || _); constructor; [apply Hm; auto | constructor].
    + destruct (_ || _); constructor; [exact Hp | constructor].
  - constructor; [apply Hm; auto | constructor].
Qed.

Lemma Inject_not_empty (E : jsval) (payload location : string) :
  Inject E payload location <> [].
Proof.
  unfold Inject. cbv zeta.
  match goal with
  | |- match ?L with [] => _ | _ => _ end <> _ => destruct L; discriminate
  end.
Qed.

(** A variant keeps the fields of the endpoint that the strategy does not
    assign. *)
Lemma tagged_label (label : string) (props : list (string * jsval)) :
  field "injectionPoint" (tagged label (JObj props)) = JStr label.
Proof. cbn. now rewrite assoc_set_assoc_same. Qed.

Lemma variant_field_kept (k k' label : string) (t : jsval)
      (props : list (string * jsval)) :
  k <> "injectionPoint" -> k <> k' ->
  field k (tagged label (with_field k' t (JObj props))) = field k (JObj props).
Proof. intros Hne Hne'. cbn. now rewrite !assoc_set_assoc_other. Qed.

(** The value of a field of a variant whose tree has a string there. *)
Lemma get_prop_string (h : heap) (v : value) (T : jsval) (k s : string) :
  reify (S (List.length h)) h v = Some T ->
  (exists props, T = JObj props) ->
  field k T = JStr s ->
  get_prop v k h = (Ok (VStr s), h).
Proof.
  intros Hr [props ->] Hf.
  destruct (get_prop_field _ h v props k Hr) as (x & Hx & Hrx).
  rewrite Hf in Hrx. apply reify_shape in Hrx. now subst x.
Qed.

Lemma string_field (h : heap) (e : value) (props : list (string * jsval))
      (k s : string) :
  reify (S (List.length h)) h e = Some (JObj props) ->
  get_prop e k h = (Ok (VStr s), h) ->
  field k (JObj props) = JStr s.
Proof.
  intros Hr Hg.
  destruct (get_prop_field _ h e props k Hr) as (x & Hx & Hrx).
  rewrite Hg in Hx. injection Hx as <-.
  destruct (List.length h); cbn [reify] in Hrx; congruence.
Qed.











(** ** The variants that are probed *)

(** Under the location [all], the first variant of the strategy is one for
    the query, the second is not the one for the path, and there is a
    third. *)
Lemma Inject_all_first_two (props : list (string * jsval)) (payload : string) :
  exists T1 T2 rest p1 p2 l1 l2,
    Inject (JObj props) payload "all" = T1 :: T2 :: rest
    /\ T1 = JObj p1 /\ T2 = JObj p2
    /\ field "injectionPoint" T1 = JStr l1
    /\ field "injectionPoint" T2 = JStr l2
    /\ String.prefix "Query param: " l1 = true
    /\ l2 <> "URL path (appended)"
    /\ rest <> [].
Proof.
  unfold Inject. cbv zeta.
  change (String.eqb "all" "query" || String.eqb "all" "all") with true.
  change (String.eqb "all" "body" || String.eqb "all" "all") with true.
  change (String.eqb "all" "header" || String.eqb "all" "all") with true.
  change (String.eqb "all" "path" || String.eqb "all" "all") with true.
  cbv iota.
  destruct (List.map fst (mapping (field "queryParams" (JObj props))))
    as [|k1 [|k2 qs]]; cbn [List.map List.app].
  - destruct (List.map fst (mapping (field "body" (JObj props)))) as [|b1 bs];
      cbn [List.map List.app].
    + destruct (method_carries_body (field "method" (JObj props)));
        cbn [List.app]; do 3 eexists; eexists _, _, _, _;
        (split; [reflexivity|]);
        (split; [reflexivity|]); (split; [reflexivity|]);
        (split; [apply tagged_label|]); (split; [apply tagged_label|]);
        (split; [reflexivity|]); split; discriminate.
    + do 3 eexists; eexists _, _, _, _;
        (split; [reflexivity|]);
        (split; [reflexivity|]); (split; [reflexivity|]);
        (split; [apply tagged_label|]); (split; [apply tagged_label|]);
        (split; [reflexivity|]); split; [discriminate|].
      destruct bs; cbn; [destruct (method_carries_body _)|]; discriminate.
  - do 3 eexists; eexists _, _, _, _;
      (split; [reflexivity|]);
      (split; [reflexivity|]); (split; [reflexivity|]);
      (split; [apply tagged_label|]); (split; [apply tagged_label|]);
      (split; [apply prefix_append; reflexivity|]); split; [discriminate|].
    destruct (List.map _ (List.map fst (mapping (field "body" (JObj props)))));
      cbn; [destruct (method_carries_body _)|]; discriminate.
  - do 3 eexists; eexists _, _, _, _;
      (split; [reflexivity|]);
      (split; [reflexivity|]); (split; [reflexivity|]);
      (split; [apply tagged_label|]); (split; [apply tagged_label|]);
      (split; [apply prefix_append; reflexivity|]); split; [discriminate|].
    destruct qs; discriminate.
Qed.

(** The first two variants of [injectPayload] under the location [all]. *)
Lemma injectPayload_first_two (h : heap) (e : value) (E : jsval) (payload : string) :
  reify (S (List.length h)) h e = Some E ->
  descriptor E ->
  exists v1 v2 rest h' l1 l2,
    injectPayload e payload "all" h = (Ok (v1 :: v2 :: rest), h')
    /\ extends (List.length h) h h'
    /\ get_prop v1 "injectionPoint" h' = (Ok (VStr l1), h')
    /\ get_prop v2 "injectionPoint" h' = (Ok (VStr l2), h')
    /\ String.prefix "Query param: " l1 = true
    /\ l2 <> "URL path (appended)"
    /\ rest <> [].
Proof.
  intros Hr HE.
  destruct (injectPayload_run h e E payload "all" Hr HE)
    as (vs & h' & Hrun & He & Hv & _).
  destruct HE as ([props ->] & _).
  destruct (Inject_all_first_two props payload)
    as (T1 & T2 & Ts & p1 & p2 & l1 & l2 & HI & -> & -> & Hl1 & Hl2 & Hq & Hp & Hrest).
  rewrite HI in Hv.
  apply Forall2_cons_inv_r in Hv. destruct Hv as (v1 & vs1 & Hv1 & Hv & ->).
  apply Forall2_cons_inv_r in Hv. destruct Hv as (v2 & rest & Hv2 & Hv & ->).
  exists v1, v2, rest, h', l1, l2.
  split; [exact Hrun|]. split; [exact He|].
  split; [apply (get_prop_string h' v1 (JObj p1)); eauto|].
  split; [apply (get_prop_string h' v2 (JObj p2)); eauto|].
  split; [exact Hq|]. split; [exact Hp|].
  intros ->. apply Forall2_nil_inv_l in Hv. contradiction.
Qed.



(** ** The scan of an endpoint of the data model *)

(** A loop whose rounds all return, returns; what each round adds, adds
    up. *)
Lemma forEach_adds_up {St A B : Type} (f : B -> A -> M St B) (Inv : B -> St -> Prop)
      (size : B -> nat) (weight : A -> nat) :
  (forall acc a s, Inv acc s ->
     exists acc' s', f acc a s = (Ok acc', s') /\ Inv acc' s'
                     /\ size acc' = (size acc + weight a)%nat) ->
  forall l acc s, Inv acc s ->
    exists acc' s', forEach l f acc s = (Ok acc', s') /\ Inv acc' s'
                    /\ size acc' = (size acc + list_sum (List.map weight l))%nat.
Proof.
  intros Hf l. induction l as [|a l IH]; intros acc s Hinv; simpl.
  - exists acc, s. split; [reflexivity|]. split; [exact Hinv | lia].
  - destruct (Hf acc a s Hinv) as (acc1 & s1 & E1 & Hinv1 & Hs1).
    destruct (IH acc1 s1 Hinv1) as (acc2 & s2 & E2 & Hinv2 & Hs2).
    exists acc2, s2. unfold bind. rewrite E1.
    split; [exact E2|]. split; [exact Hinv2 | lia].
Qed.

Lemma list_sum_twice {A : Type} (weight : A -> nat) (l : list A) :
  (0 + list_sum (List.map (fun a => 2 * weight a) l))%nat
  = (2 * list_sum (List.map weight l))%nat.
Proof. induction l as [|a l IH]; simpl in *; lia. Qed.

Lemma list_sum_twos {A : Type} (l : list A) :
  list_sum (List.map (fun _ => 2%nat) l) = (2 * List.length l)%nat.
Proof. induction l as [|a l IH]; simpl in *; lia. Qed.

(** A probe of a variant that has a label returns, with one record more:
    the record of the probe, which has the label of the variant. *)
Lemma probe_record {World : Type} (P : Platform World) (scanner : Scanner)
      (payload : string) (baseline : option Baseline) (results : EndpointResult)
      (injectedEndpoint point : value) (s : State World) :
  get_prop injectedEndpoint "injectionPoint" (objects s) = (Ok point, objects s) ->
  exists r s' t,
    probe P scanner payload baseline results injectedEndpoint s = (Ok r, s')
    /\ objects s' = objects s
    /\ tests r = (tests results ++ [t])%list
    /\ test_injectionPoint t = point
    /\ test_payload t = payload
    /\ test_type t = getType scanner.
Proof.
  intros Hpoint. unfold probe, bind at 1. unfold liftH at 1. rewrite Hpoint.
  match goal with
  | |- context [{| objects := objects s; modules := modules s; world := world s |}] =>
      replace {| objects := objects s; modules := modules s; world := world s |}
        with s by (destruct s; reflexivity)
  end.
  unfold bind at 1, try_catch.
  match goal with
  | |- context [bind (liftW (Date_now P)) ?k s] =>
      destruct (bind (liftW (Date_now P)) k s) as [[[r pause]|e] s2] eqn:Hbody
  end.
  - assert (Hr : objects s2 = objects s
                 /\ exists t, tests r = (tests results ++ [t])%list
                              /\ test_injectionPoint t = point
                              /\ test_payload t = payload
                              /\ test_type t = getType scanner).
    { revert Hbody. unfold bind, liftW, liftH, liftA, ret.
      destruct (Date_now P (world s)) as [t0 w1]. cbn [objects modules world].
      match goal with
      | |- context [sendRequest P injectedEndpoint ?s0] =>
          destruct (sendRequest_returns P injectedEndpoint s0)
            as (sent & s3 & -> & Ho & Hm)
      end.
      cbn [objects modules world] in Ho, Hm.
      pose proof (get_prop_heap injectedEndpoint "url" (objects s3)) as E.
      destruct (get_prop injectedEndpoint "url" (objects s3)) as [[u|e] h3];
        cbn [snd] in E; subst h3; [|discriminate].
      cbn [objects modules world].
      pose proof (get_prop_heap injectedEndpoint "method" (objects s3)) as E.
      destruct (get_prop injectedEndpoint "method" (objects s3)) as [[mt|e] h4];
        cbn [snd] in E; subst h4; [|discriminate].
      cbn [objects modules world].
      destruct (Date_toISOString P (world s3)) as [stamp w4].
      cbn [objects modules world].
      destruct (match error sent with
                | Some e => negb (String.eqb e EmptyString) && negb (success sent)
                | None => false
                end).
      - intros [= <- <- <-]. cbn [objects]. split; [exact Ho|].
        eexists. repeat split.
      - destruct (analyzeResponse scanner _ _ _ _ _) as [[analysis|e] ms];
          [|discriminate].
        intros [= <- <- <-]. cbn [objects]. split; [exact Ho|].
        destruct (vulnerable analysis); eexists; repeat split. }
    destruct Hr as (Ho & t & Ht & Hp).
    destruct pause; unfold bind, liftW, ret; cbn [objects];
      exists r; eexists; exists t; (split; [reflexivity|]); cbn [objects]; auto.
  - assert (Ho : objects s2 = objects s).
    { revert Hbody. unfold bind, liftW, liftH, liftA, ret.
      destruct (Date_now P (world s)) as [t0 w1]. cbn [objects modules world].
      match goal with
      | |- context [sendRequest P injectedEndpoint ?s0] =>
          destruct (sendRequest_returns P injectedEndpoint s0)
            as (sent & s3 & -> & Ho & Hm)
      end.
      cbn [objects modules world] in Ho, Hm.
      pose proof (get_prop_heap injectedEndpoint "url" (objects s3)) as E.
      destruct (get_prop injectedEndpoint "url" (objects s3)) as [[u|e'] h3];
        cbn [snd] in E; subst h3;
        [|intros [= _ <-]; cbn [objects]; exact Ho].
      cbn [objects modules world].
      pose proof (get_prop_heap injectedEndpoint "method" (objects s3)) as E.
      destruct (get_prop injectedEndpoint "method" (objects s3)) as [[mt|e'] h4];
        cbn [snd] in E; subst h4;
        [|intros [= _ <-]; cbn [objects]; exact Ho].
      cbn [objects modules world].
      destruct (Date_toISOString P (world s3)) as [stamp w4].
      cbn [objects modules world].
      destruct (match error sent with
                | Some e => negb (String.eqb e EmptyString) && negb (success sent)
                | None => false
                end); [discriminate|].
      destruct (analyzeResponse scanner _ _ _ _ _) as [[analysis|e'] ms];
        [discriminate|].
      intros [= _ <-]. cbn [objects]. exact Ho. }
    unfold bind, liftW, ret.
    destruct (Date_toISOString P (world s2)) as [stamp w3].
    cbn [objects modules world].
    eexists _, _, _. split; [reflexivity|]. cbn [objects].
    split; [exact Ho|]. repeat split.
Qed.

(** The round of a payload: two probes, the first in the query and the
    second not in the path. *)
Lemma payload_round {World : Type} (P : Platform World) (e : value) (E : jsval)
      (scanner : Scanner) (payload : string) (baseline : option Baseline)
      (results : EndpointResult) (s : State World) :
  reify (S (List.length (objects s))) (objects s) e = Some E ->
  descriptor E ->
  exists r s' t1 t2 l1 l2,
    (let* injectedEndpoints := liftH (injectPayload e payload "all") in
     forEach (firstn 2 injectedEndpoints) (probe P scanner payload baseline) results) s
    = (Ok r, s')
    /\ extends (List.length (objects s)) (objects s) (objects s')
    /\ tests r = (tests results ++ [t1; t2])%list
    /\ test_injectionPoint t1 = VStr l1
    /\ test_injectionPoint t2 = VStr l2
    /\ test_payload t1 = payload /\ test_payload t2 = payload
    /\ test_type t1 = getType scanner /\ test_type t2 = getType scanner
    /\ String.prefix "Query param: " l1 = true
    /\ l2 <> "URL path (appended)".
Proof.
  intros Hr HE.
  destruct (injectPayload_first_two (objects s) e E payload Hr HE)
    as (v1 & v2 & rest & h' & l1 & l2 & Hrun & He & H1 & H2 & Hq & Hp & _).
  unfold bind at 1, liftH at 1. rewrite Hrun. cbn [firstn forEach].
  set (s1 := {| objects := h'; modules := modules s; world := world s |}).
  destruct (probe_record P scanner payload baseline results v1 (VStr l1) s1 H1)
    as (r1 & s2 & t1 & E1 & Ho1 & Ht1 & Hp1 & Hpay1 & Hty1).
  assert (H2' : get_prop v2 "injectionPoint" (objects s2) = (Ok (VStr l2), objects s2))
    by (rewrite Ho1; exact H2).
  destruct (probe_record P scanner payload baseline r1 v2 (VStr l2) s2 H2')
    as (r2 & s3 & t2 & E2 & Ho2 & Ht2 & Hp2 & Hpay2 & Hty2).
  exists r2, s3, t1, t2, l1, l2.
  split; [unfold bind at 1; rewrite E1; unfold bind at 1; rewrite E2; reflexivity|].
  split; [rewrite Ho2, Ho1; exact He|].
  split; [rewrite Ht2, Ht1, <- List.app_assoc; reflexivity|].
  repeat split; assumption.
Qed.

(** X19.  The scan of an endpoint of the data model, under the location
    [all] (the default).  [scanEndpoint] returns a result (it does not
    throw), whatever the server answers or fails to answer; the result has
    two test records for each payload of each analyzer in use, no more and
    no fewer; no record is a probe of the path of the URL; and the
    endpoint is held as it was. *)
Theorem scanEndpoint_two_probes_a_payload {World : Type} (P : Platform World)
        (e : value) (E : jsval) (opts : Options) (s : State World) :
  reify (S (List.length (objects s))) (objects s) e = Some E ->
  descriptor E ->
  injectLocationOf opts = "all" ->
  exists r s',
    scanEndpoint P e opts s = (Ok r, s')
    /\ List.length (tests r)
       = (2 * list_sum
                (List.map
                   (fun scanner =>
                      List.length (slice0 (maxPayloadsOf opts) (getPayloads scanner)))
                   (scannersToUse opts)))%nat
    /\ Forall (fun t => exists label,
                 test_injectionPoint t = VStr label
                 /\ label <> "URL path (appended)")
         (tests r)
    /\ reify (S (List.length (objects s'))) (objects s') e = Some E.
Proof.
  intros Hr HE Hloc.
  assert (Hobj : exists props, E = JObj props) by apply HE.
  destruct Hobj as [props ->].
  unfold scanEndpoint. rewrite Hloc.
  assert (Heta : {| objects := objects s; modules := modules s; world := world s |} = s)
    by (destruct s; reflexivity).
  destruct (get_prop_field _ _ e props "method" Hr) as (mt & Emt & _).
  destruct (get_prop_field _ _ e props "url" Hr) as (u & Eu & _).
  destruct (get_prop_field _ _ e props "name" Hr) as (nm & Enm & _).
  unfold bind at 1, liftH at 1. rewrite Emt, Heta.
  unfold bind at 1, liftH at 1. rewrite Eu, Heta.
  unfold bind at 1, liftH at 1. rewrite Enm, Heta.
  unfold bind at 1.
  assert (Hbase : exists baseline s1,
            try_catch (let* b := getBaseline P e in ret (Some b))
              (fun _ => ret None) s = (Ok baseline, s1)
            /\ objects s1 = objects s).
  { unfold try_catch, bind, getBaseline, bind, ret.
    destruct (sendRequest_returns P e s) as (sent & s1 & -> & Ho & _). eauto. }
  destruct Hbase as (baseline & s1 & -> & Ho1).
  set (Inv := fun (r : EndpointResult) (st : State World) =>
                reify (S (List.length (objects st))) (objects st) e = Some (JObj props)
                /\ Forall (fun t => exists label,
                             test_injectionPoint t = VStr label
                             /\ label <> "URL path (appended)")
                     (tests r)).
  match goal with
  | |- exists r s', forEach ?items ?body ?start s1 = _ /\ _ =>
      destruct (forEach_adds_up body Inv (fun r => List.length (tests r))
                  (fun scanner =>
                     (2 * List.length
                            (slice0 (maxPayloadsOf opts) (getPayloads scanner)))%nat))
        with (l := items) (acc := start) (s := s1)
        as (r & s' & Erun & [Hkept Hrec] & Hsize)
  end.
  - intros results scanner st Hinv.
    destruct (forEach_adds_up
                (fun results payload =>
                   let* injectedEndpoints := liftH (injectPayload e payload "all") in
                   forEach (firstn 2 injectedEndpoints)
                     (probe P scanner payload baseline) results)
                Inv (fun r => List.length (tests r)) (fun _ => 2%nat))
      with (l := slice0 (maxPayloadsOf opts) (getPayloads scanner))
           (acc := results) (s := st)
      as (r & s' & Erun & Hinv' & Hsize); [|exact Hinv|].
    + intros results1 payload st1 [Hkept Hrec].
      destruct (payload_round P e (JObj props) scanner payload baseline results1 st1
                  Hkept HE)
        as (r & s' & t1 & t2 & l1 & l2 & Erun & He & Ht & Hp1 & Hp2 & _ & _ & _ & _
            & Hq & Hp).
      exists r, s'. split; [exact Erun|]. split; [split|].
      * exact (endpoint_kept _ _ e _ Hkept He).
      * rewrite Ht. apply Forall_app. split; [exact Hrec|].
        constructor; [|constructor; [|constructor]].
        -- exists l1. split; [exact Hp1|]. intros ->. discriminate Hq.
        -- exists l2. split; [exact Hp2 | exact Hp].
      * rewrite Ht, length_app. reflexivity.
    + exists r, s'. split; [exact Erun|]. split; [exact Hinv'|].
      rewrite Hsize. f_equal. apply list_sum_twos.
  - split; [rewrite Ho1; exact Hr | constructor].
  - exists r, s'. split; [exact Erun|]. split; [|split; [exact Hrec | exact Hkept]].
    rewrite Hsize. cbn [tests List.length]. apply list_sum_twice.
Qed.

Lemma scanEndpoint_two_probes_a_payload_witness :
  exists r s',
    scanEndpoint offline sample_ref
      {| scanTypes := None; maxPayloads := None; injectLocation := None |}
      sample_state = (Ok r, s')
    /\ List.length (tests r) = 96%nat
    /\ Forall (fun t => exists label,
                 test_injectionPoint t = VStr label
                 /\ label <> "URL path (appended)")
         (tests r)
    /\ reify (S (List.length (objects s'))) (objects s') sample_ref
       = Some (sample_endpoint "login" "http://localhost/api/login" []).
Proof.
  refine (scanEndpoint_two_probes_a_payload offline sample_ref
            (sample_endpoint "login" "http://localhost/api/login" [])
            {| scanTypes := None; maxPayloads := None; injectLocation := None |}
            sample_state _ _ _).
  - vm_compute. reflexivity.
  - split; [eexists; reflexivity|]. split; [reflexivity|].
    split; [eexists; reflexivity|]. split; [reflexivity|].
    split; reflexivity.
  - reflexivity.
Defined.

(** ** The records of a scan, in order *)

(** A loop whose rounds all return, returns; what each round puts out
    comes in the order of the rounds. *)
Lemma forEach_trace {St A B C : Type} (f : B -> A -> M St B) (Inv : St -> Prop)
      (out : B -> list C) (step : A -> list C) :
  (forall acc a s, Inv s ->
     exists acc' s', f acc a s = (Ok acc', s') /\ Inv s'
                     /\ out acc' = (out acc ++ step a)%list) ->
  forall l acc s, Inv s ->
    exists acc' s', forEach l f acc s = (Ok acc', s') /\ Inv s'
                    /\ out acc' = (out acc ++ List.flat_map step l)%list.
Proof.
  intros Hf l. induction l as [|a l IH]; intros acc s Hinv;
    cbn [forEach List.flat_map].
  - exists acc, s. rewrite List.app_nil_r. auto.
  - destruct (Hf acc a s Hinv) as (acc1 & s1 & E1 & Hinv1 & Hout1).
    destruct (IH acc1 s1 Hinv1) as (acc2 & s2 & E2 & Hinv2 & Hout2).
    exists acc2, s2. unfold bind. rewrite E1.
    split; [exact E2|]. split; [exact Hinv2|].
    rewrite Hout2, Hout1, List.app_assoc. reflexivity.
Qed.

(** The probes of the variants of a payload: a record for each, with the
    injection point of the variant. *)
Lemma probes_run {World : Type} (P : Platform World) (scanner : Scanner)
      (payload : string) (baseline : option Baseline) (h : heap) :
  forall (vs : list value) (Ts : list jsval),
    Forall2 (fun v T => reify (S (List.length h)) h v = Some T) vs Ts ->
    Forall (fun T => exists props label,
              T = JObj props /\ field "injectionPoint" T = JStr label) Ts ->
    forall (results : EndpointResult) (s : State World),
      objects s = h ->
      exists r s',
        forEach vs (probe P scanner payload baseline) results s = (Ok r, s')
        /\ objects s' = h
        /\ List.map probed (tests r)
           = (List.map probed (tests results)
              ++ List.map (fun T => (getType scanner, payload, label_of T)) Ts)%list.
Proof.
  induction 1 as [|v T vs Ts Hv _ IH]; intros Hlab results s Hs; cbn [forEach List.map].
  - exists results, s. rewrite List.app_nil_r. auto.
  - apply Forall_cons in Hlab. destruct Hlab as [(props & label & -> & Hl) Hlab].
    assert (Hpoint : get_prop v "injectionPoint" (objects s)
                     = (Ok (VStr label), objects s)).
    { rewrite Hs. apply (get_prop_string h v (JObj props)); eauto. }
    destruct (probe_record P scanner payload baseline results v (VStr label) s
                Hpoint) as (r1 & s1 & t & E1 & Ho1 & Ht1 & Hp1 & Hpay1 & Hty1).
    destruct (IH Hlab r1 s1) as (r2 & s2 & E2 & Ho2 & Ht2); [congruence|].
    exists r2, s2. unfold bind. rewrite E1.
    split; [exact E2|]. split; [exact Ho2|].
    rewrite Ht2, Ht1, List.map_app, <- List.app_assoc. cbn [List.map List.app].
    unfold probed at 2, label_of. rewrite Hty1, Hpay1, Hp1, Hl. reflexivity.
Qed.

(** The round of a payload, under any location. *)
Lemma payload_probes {World : Type} (P : Platform World) (e : value) (E : jsval)
      (scanner : Scanner) (payload location : string) (baseline : option Baseline)
      (results : EndpointResult) (s : State World) :
  reify (S (List.length (objects s))) (objects s) e = Some E ->
  descriptor E ->
  exists r s',
    (let* injectedEndpoints := liftH (injectPayload e payload location) in
     forEach (firstn 2 injectedEndpoints) (probe P scanner payload baseline) results) s
    = (Ok r, s')
    /\ reify (S (List.length (objects s'))) (objects s') e = Some E
    /\ List.map probed (tests r)
       = (List.map probed (tests results)
          ++ List.map (fun T => (getType scanner, payload, label_of T))
               (firstn 2 (Inject E payload location)))%list.
Proof.
  intros Hr HE.
  destruct (injectPayload_run (objects s) e E payload location Hr HE)
    as (vs & h' & Hrun & He & Hv & _).
  assert (Hlab : Forall (fun T => exists props label,
                           T = JObj props /\ field "injectionPoint" T = JStr label)
                   (Inject E payload location)).
  { destruct HE as ([props ->] & _). apply Inject_Forall.
    - intros label name key _. eexists _, label.
      split; [reflexivity | apply tagged_label].
    - eexists _, _. split; [reflexivity | apply tagged_label]. }
  unfold bind at 1, liftH at 1. rewrite Hrun.
  assert (Hv2 : Forall2 (fun v T => reify (S (List.length h')) h' v = Some T)
                  (firstn 2 vs) (firstn 2 (Inject E payload location)))
    by (apply Forall2_take; exact Hv).
  assert (Hlab2 : Forall (fun T => exists props label,
                            T = JObj props /\ field "injectionPoint" T = JStr label)
                    (firstn 2 (Inject E payload location)))
    by (apply Forall_take; exact Hlab).
  destruct (probes_run P scanner payload baseline h' _ _ Hv2 Hlab2 results
              {| objects := h'; modules := modules s; world := world s |}
              eq_refl) as (r & s' & Erun & Ho & Ht).
  exists r, s'. split; [exact Erun|]. split; [|exact Ht].
  rewrite Ho. exact (endpoint_kept _ _ e E Hr He).
Qed.

(** The scan of an endpoint of the data model follows the plan. *)
Lemma scanEndpoint_plan {World : Type} (P : Platform World) (e : value) (E : jsval)
      (opts : Options) (s : State World) :
  reify (S (List.length (objects s))) (objects s) e = Some E ->
  descriptor E ->
  exists r s',
    scanEndpoint P e opts s = (Ok r, s')
    /\ List.map probed (tests r) = planned E opts
    /\ reify (S (List.length (objects s'))) (objects s') e = Some E.
Proof.
  intros Hr HE.
  assert (Hobj : exists props, E = JObj props) by apply HE.
  destruct Hobj as [props Hprops]. rewrite Hprops in Hr.
  unfold scanEndpoint.
  assert (Heta : {| objects := objects s; modules := modules s; world := world s |} = s)
    by (destruct s; reflexivity).
  destruct (get_prop_field _ _ e props "method" Hr) as (mt & Emt & _).
  destruct (get_prop_field _ _ e props "url" Hr) as (u & Eu & _).
  destruct (get_prop_field _ _ e props "name" Hr) as (nm & Enm & _).
  unfold bind at 1, liftH at 1. rewrite Emt, Heta.
  unfold bind at 1, liftH at 1. rewrite Eu, Heta.
  unfold bind at 1, liftH at 1. rewrite Enm, Heta.
  unfold bind at 1.
  assert (Hbase : exists baseline s1,
            try_catch (let* b := getBaseline P e in ret (Some b))
              (fun _ => ret None) s = (Ok baseline, s1)
            /\ objects s1 = objects s).
  { unfold try_catch, bind, getBaseline, bind, ret.
    destruct (sendRequest_returns P e s) as (sent & s1 & -> & Ho & _). eauto. }
  destruct Hbase as (baseline & s1 & -> & Ho1).
  rewrite <- Hprops in Hr.
  set (Inv := fun st : State World =>
                reify (S (List.length (objects st))) (objects st) e = Some E).
  match goal with
  | |- exists r s', forEach ?items ?body ?start s1 = _ /\ _ =>
      destruct (forEach_trace body Inv (fun r => List.map probed (tests r))
                  (fun scanner =>
                     List.flat_map
                       (fun payload =>
                          List.map (fun T => (getType scanner, payload, label_of T))
                            (firstn 2 (Inject E payload (injectLocationOf opts))))
                       (slice0 (maxPayloadsOf opts) (getPayloads scanner))))
        with (l := items) (acc := start) (s := s1)
        as (r & s' & Erun & Hkept & Hout)
  end.
  - intros results scanner st Hinv.
    apply (forEach_trace
             (fun results payload =>
                let* injectedEndpoints :=
                  liftH (injectPayload e payload (injectLocationOf opts)) in
                forEach (firstn 2 injectedEndpoints)
                  (probe P scanner payload baseline) results)
             Inv (fun r => List.map probed (tests r))
             (fun payload =>
                List.map (fun T => (getType scanner, payload, label_of T))
                  (firstn 2 (Inject E payload (injectLocationOf opts)))));
      [|exact Hinv].
    intros results1 payload st1 Hinv1.
    destruct (payload_probes P e E scanner payload (injectLocationOf opts) baseline
                results1 st1 Hinv1 HE) as (r & s' & Erun & Hkept & Ht).
    exists r, s'. auto.
  - unfold Inv. rewrite Ho1. exact Hr.
  - exists r, s'. split; [exact Erun|]. split; [|exact Hkept].
    rewrite Hout. reflexivity.
Qed.

(** The plan has a probe when an analyzer is in use and has a payload. *)
Lemma planned_not_empty (E : jsval) (opts : Options) (scanner : Scanner)
      (rest : list Scanner) (payload : string) (payloads : list string) :
  scannersToUse opts = scanner :: rest ->
  slice0 (maxPayloadsOf opts) (getPayloads scanner) = payload :: payloads ->
  planned E opts <> [].
Proof.
  intros Hs Hp. unfold planned. rewrite Hs. cbn [List.flat_map].
  rewrite Hp. cbn [List.flat_map].
  pose proof (Inject_not_empty E payload (injectLocationOf opts)) as Hne.
  destruct (Inject E payload (injectLocationOf opts)) as [|T Ts]; [contradiction|].
  destruct Ts; discriminate.
Qed.

(** ** The options of a scan *)



(** ** The records of a scan *)

Lemma firstn_member {A : Type} (a : A) (l : list A) :
  forall n, In a (firstn n l) -> In a l.
Proof.
  induction l as [|x l IH]; intros [|n]; cbn; try tauto.
  intros [->|H]; [now left | right; eauto].
Qed.

Lemma slice0_In {A : Type} (n : Z) (l : list A) (a : A) :
  In a (slice0 n l) -> In a l.
Proof. unfold slice0. destruct (0 <=? n)%Z; apply firstn_member. Qed.

(** X20.  The records of a scan follow the plan.  For an endpoint of the
    data model and under any options, [scanEndpoint] returns, and the test
    records of its result are, one for one and in this order, the probes of
    the plan: for each analyzer in use, in the order of the table, and each
    of its first [maxPayloads] payloads, in the order of its list, one
    record for each of the first two variants of the injection strategy
    for this payload.  So every record carries the type of an analyzer in
    use, a payload of the list of this analyzer as the list has it, and the
    injection point of a variant of the strategy for this very payload. *)
Theorem records_follow_the_plan {World : Type} (P : Platform World)
        (e : value) (E : jsval) (opts : Options) (s : State World) :
  reify (S (List.length (objects s))) (objects s) e = Some E ->
  descriptor E ->
  exists r s',
    scanEndpoint P e opts s = (Ok r, s')
    /\ List.map probed (tests r) = planned E opts
    /\ Forall (fun t => exists scanner payload T,
                 In scanner (scannersToUse opts)
                 /\ In payload (getPayloads scanner)
                 /\ In T (Inject E payload (injectLocationOf opts))
                 /\ test_type t = getType scanner
                 /\ test_payload t = payload
                 /\ test_injectionPoint t = label_of T)
         (tests r).
Proof.
  intros Hr HE.
  destruct (scanEndpoint_plan P e E opts s Hr HE) as (r & s' & Hrun & Hplan & _).
  exists r, s'. split; [exact Hrun|]. split; [exact Hplan|].
  apply List.Forall_forall. intros t Ht.
  apply (List.in_map probed) in Ht. rewrite Hplan in Ht.
  unfold planned in Ht.
  apply List.in_flat_map in Ht. destruct Ht as (scanner & Hsc & Ht).
  apply List.in_flat_map in Ht. destruct Ht as (payload & Hp & Ht).
  apply List.in_map_iff in Ht. destruct Ht as (T & HT & Hin).
  exists scanner, payload, T. unfold probed in HT. injection HT as <- <- <-.
  split; [exact Hsc|]. split; [exact (slice0_In _ _ _ Hp)|].
  split; [exact (firstn_member _ _ _ Hin)|]. auto.
Qed.

Lemma records_follow_the_plan_witness :
  exists r s',
    scanEndpoint online bare_ref
      {| scanTypes := Some ["Payload Size"; "HTTP Method"]; maxPayloads := Some 2%Z;
         injectLocation := Some "header" |}
      {| objects := bare_heap; modules := modules0; world := 0%nat |} = (Ok r, s')
    /\ List.map probed (tests r)
       = planned bare_endpoint
           {| scanTypes := Some ["Payload Size"; "HTTP Method"];
              maxPayloads := Some 2%Z; injectLocation := Some "header" |}
    /\ Forall (fun t => exists scanner payload T,
                 In scanner
                   (scannersToUse
                      {| scanTypes := Some ["Payload Size"; "HTTP Method"];
                         maxPayloads := Some 2%Z; injectLocation := Some "header" |})
                 /\ In payload (getPayloads scanner)
                 /\ In T (Inject bare_endpoint payload
                            (injectLocationOf
                               {| scanTypes := Some ["Payload Size"; "HTTP Method"];
                                  maxPayloads := Some 2%Z;
                                  injectLocation := Some "header" |}))
                 /\ test_type t = getType scanner
                 /\ test_payload t = payload
                 /\ test_injectionPoint t = label_of T)
         (tests r).
Proof.
  refine (records_follow_the_plan online bare_ref bare_endpoint
            {| scanTypes := Some ["Payload Size"; "HTTP Method"];
               maxPayloads := Some 2%Z; injectLocation := Some "header" |}
            {| objects := bare_heap; modules := modules0; world := 0%nat |} _ _).
  - vm_compute. reflexivity.
  - split; [eexists; reflexivity|]. split; [reflexivity|].
    split; [eexists; reflexivity|]. split; [reflexivity|].
    split; reflexivity.
Defined.

(** ** The injection strategy, as the specification has it *)

Lemma Inject_rules (E : jsval) (payload location : string) :
  Inject E payload location
  = match rules E payload location with
    | [] => [ fallback E payload ]
    | variants => variants
    end.
Proof. reflexivity. Qed.

(** A write to an object of a variant leaves the endpoint and the other
    variants as they were. *)
Lemma writes_stay_local (h h' : heap) (e : value) (E : jsval) (vs : list value)
      (Ts : list jsval) :
  reify (S (List.length h)) h e = Some E ->
  made_all h h' vs Ts ->
  forall i vi Ti Fi l k x,
    vs !! i = Some vi ->
    Ts !! i = Some Ti ->
    fp h' vi Ti = Some Fi ->
    l ∈ Fi ->
    (List.length h <= l)%nat
    /\ let after := snd (set_prop (VRef l) k x h') in
       reify (S (List.length after)) after e = Some E
       /\ forall j vj Tj,
            j <> i ->
            vs !! j = Some vj ->
            Ts !! j = Some Tj ->
            reify (S (List.length after)) after vj = Some Tj.
Proof.
  intros Hr (He & Hv & Ha).
  destruct (apart_footprints _ _ _ _ _ Ha) as (Fs & H3 & Hb & Hd).
  intros i vi Ti Fi l k x Hvi HTi HFi Hl.
  destruct (set_prop_elsewhere l k x h') as [Hlen Hother].
  destruct (Forall3_lookup_l _ _ _ _ _ _ H3 Hvi) as (Ti' & Fi' & HTi' & HFi' & Hfp).
  rewrite HTi in HTi'. injection HTi' as <-.
  rewrite HFi in Hfp. injection Hfp as <-.
  pose proof (Hb i Fi l HFi' Hl) as Hnew.
  destruct He as [Hgrow Hold].
  split; [lia|]. cbv zeta. rewrite Hlen. split.
  - destruct (reify_fp _ _ _ _ Hr) as [Fe HFe].
    apply (fp_reify E _ e Fe).
    + apply (fp_frame E h); [exact HFe|].
      intros l' Hl'. pose proof (fp_bound _ _ _ _ HFe l' Hl').
      rewrite Hother by lia. apply Hold. lia.
    + apply reify_depth in Hr. lia.
  - intros j vj Tj Hji Hvj HTj.
    destruct (Forall3_lookup_l _ _ _ _ _ _ H3 Hvj) as (Tj' & Fj & HTj' & HFj & Hfp).
    rewrite HTj in HTj'. injection HTj' as <-.
    apply (fp_reify Tj _ vj Fj).
    + apply (fp_frame Tj h'); [exact Hfp|].
      intros l' Hl'. apply Hother. intros ->.
      destruct (Nat.lt_total i j) as [Hlt|[Heq|Hgt]].
      * exact (Hd i j Fi Fj l Hlt HFi' HFj Hl Hl').
      * congruence.
      * exact (Hd j i Fj Fi l Hgt HFj HFi' Hl' Hl).
    + pose proof (Forall2_lookup_lr _ _ _ _ _ _ Hv Hvj HTj) as Hrj.
      apply reify_depth in Hrj. exact Hrj.
Qed.




